(* ===== verification/_CoqProject ===== *)
-Q . S2P
Prelude.v
PointOps.v
Mirror.v
Kernel.v
Grid.v
Domain2D.v
Scene.v
Geometry.v
Hull.v
Sector.v
Facade.v
Pillars.v
Floors.v
Outline.v
Car.v
Wheels.v
Spokes.v
Surfaces.v
Assembly.v
