(* ===== verification/Prelude.v ===== *)
(** * A verification development for the pyplasm exercises of cvdlab-cg/413937

    ** The program

    The repository holds two Python 2 scripts written against pyplasm,
    a functional solid-modelling library:

    - [src/2013-04-05/python/exercise3.py] builds a building model.  Its
      utility layer is [GRID = COMP([INSR(PROD),AA(QUOTE)])] (line 8),
      the curried parametric domain [DOMAIN(dims)(divs)] (lines 10-19) and
      the two polar maps [annulus_sector] and [circular_sector]
      (lines 22-31).  The rest of the file is scene data: the four
      vertical enclosures [north], [south], [east], [west] as [GRID]s of
      signed interval lists (lines 35-63), the pillars as [STRUCT]s of
      cylinders, cuboids and translations (lines 71-91), the floors and
      the final [building] (lines 94-122).
    - [src/2013-05-10/python/exercise3.py] builds a car.  Its utility
      layer is [DOMAIN2D] / [DOMAIN2DI] (lines 9-29), which re-triangulate
      the quads of a 2D product domain with two windings, [AAPOINTS]
      (lines 31-38), which applies a binary numeric function coordinate
      by coordinate between an operand vector and every point of a list,
      [MIRROR] (lines 40-48), which appends the reversed reflection of a
      point list, and [DUPLIROT] (lines 50-56), which aggregates [n]
      rotated copies of a shape.  The rest of the file is control-point
      data for Bezier and spline profiles built with these helpers
      (lines 66-160).

    The helpers call one another ([MIRROR] calls [AAPOINTS(PROD)],
    [DOMAIN] calls [GRID] and the translation [T]) and all of them call
    the pyplasm kernel ([QUOTE], [PROD], [INSR], [T], [R], [STRUCT],
    [UKPOL], [MKPOL]).  None of them keeps state; what can go wrong is a
    Python exception ([IndexError], [ValueError], [TypeError]) raised by
    an index or an unpacking inside a comprehension.

    ** How the development models it

    Every Python function is a Rocq function that returns [res A]
    (this file): [Ok v] for a normal return and [Raise e] for an
    exception that escapes, with the exceptions of the Python code
    written out where the code raises them (list indexing, pair
    unpacking, [reduce] on an empty list).  Python 2's eager [map] and
    list comprehensions are [py_map], which raises the first exception
    met from left to right, as CPython does.  Numbers are exact
    rationals [Q]: pyplasm computes in floating point, and the
    development does not model rounding (every literal of the source is
    a decimal, hence a rational, and every property below is exact
    arithmetic over them).  Angles are rationals counted in half turns
    (the source only writes multiples of [PI]).  Where the source itself
    leaves the rationals (the points [COS(PI/6), SIN(PI/6)] of the
    spokes, the surfaces of revolution) the model uses the reals of the
    Standard Library.

    The files, in dependency order, and what their theorems show:

    - [Prelude] (this file): Python exceptions, the [res] error monad and
      its notation, [py_index] (Python [l[i]]), [py_range] (Python
      [range(n)]), [py_map], their lemmas, the [py] hint database, and
      the list lemmas the components share.
    - [PointOps]: [AAPOINTS] over any element type and a total reference
      [pointwise]; [AAPOINTS] returns exactly when no point is longer
      than the operand vector and then equals the reference, and raises
      only [IndexError] otherwise.  The [PyNum] interface gives pyplasm's
      [SUM] and [PROD] ([reduce]) with their laws, instantiated on [Q].
    - [Mirror]: [MIRROR] (lines 40-48 of the car script): its exceptions,
      output length and prefix, the round trip through a second
      reflection, the symmetry of its output, what an axis outside the
      point's dimension does, and the duplicated seam point the spec
      accepts when a profile ends on the axis.
    - [Kernel]: the part of pyplasm the helpers rely on, modelled from
      its documented behaviour (a library, not code of this repository):
      complexes of axis-aligned boxes up to [Qeq] (with [Proper]
      instances), [QUOTE], [INTERVALS], the product [PROD], [INSR], the
      translation [T] and how translations compose.
    - [Grid]: [GRID] and [DOMAIN]: the cells of [GRID] are the products
      of the [QUOTE] cells of its axes, and their number the product of
      the axes' counts; [DOMAIN] refines the
      product of uniform subdivisions and its cells have one interval per
      axis; each of its exceptions and its silent empty results.
    - [Domain2D]: [DOMAIN2D] and [DOMAIN2DI] against a [Ukpol] interface
      for pyplasm's [UKPOL] (laws: 1-based indices in range, four
      vertices per product cell, every vertex a corner of a cell): same
      vertices, opposite winding, two triangles per quad with indices in
      range, every vertex a corner of the domain, the exceptions.
    - [Scene]: the scene tree [hpc] (boxes, [MKPOL] meshes of real
      points, curves, [MAP(f)(shape)], opaque primitives, aggregates and
      the affine operators), pyplasm's [STRUCT] rule (a transformation in
      the list applies to every item after it), [CUBOID] and [COLOR].
    - [Geometry]: a point-set semantics of scenes over the reals (a
      mesh cell is the convex hull of its vertices, [MAP(f)(shape)] the
      convex hulls of the images of the vertices of each cell, as pyplasm
      draws it) and [DUPLIROT]: one copy is the shape itself, a count
      [n <= 0] raises pyplasm's exception (its [STRUCT] refuses an empty
      list), and [n] copies at angle [alpha] with [n * alpha] a full turn
      are invariant under rotation by [alpha].
    - [Hull]: finite sums, weighted sums and linear forms over convex
      combinations: a linear bound that holds at the points of a mesh
      holds on every cell, and so does a disc about an axis; the
      Bernstein weights of a Bezier curve on [[0,1]] are non-negative and
      sum to 1 (binomial theorem).
    - [Sector]: [annulus_sector] and [circular_sector]: for a positive
      angle and [r < R] the mapped domain has 36 cells, cell [k] the
      convex hull of the polar points at the angles [k*alpha/36] and
      [(k+1)*alpha/36] and the radii [r] and [R]: the polygon pyplasm
      draws, not the exact annulus.
    - [Facade]: the four walls as data: slabs 0.4 thick, inside the
      envelope, reaching z = 16.7, south, east and west without
      overlapping boxes, and the overlap inside the north wall.
    - [Pillars]: the pillar lists, built with the [NN] idiom of pending
      translations: every pillar in a bay of the column grid, no two
      pillars overlapping.
    - [Floors]: the floors, the ground and [building] (lines 94-122),
      over pyplasm's [EXTRUDE] as a section variable: the box slabs lie
      at the storey levels of the pillars, the roof level with the top of
      the walls, and the two rounded ends of the ground floor plan are
      half discs on the edges of its rectangles (over the real point
      semantics, through the 36-gon of [annulus_sector]).
    - [Outline]: when the end points of a drawing's curves form one
      closed outline: the executable check [closed_outline] and its
      soundness for the inductive reachability [linked].
    - [Car]: the side, top, back and front views as curves with their
      control points from [AAPOINTS] and [MIRROR]: each view is closed;
      the assembly [exercise2] puts each view in its coordinate plane
      (quarter-turn rotations computed exactly, and shown equal to the
      real rotations of [Geometry]).
    - [Wheels]: the rim and tire profiles of the wheels: translating a
      mirrored profile away from the axis commutes with mirroring, so
      both profiles are symmetric about the wheel's mid-plane.
    - [Spokes]: the spoke polyhedron [AWPoints1] / [MKPOL] (lines
      129-138) with its real points: its cells name only its points, and
      it lies in the 30-degree wedge between the x axis and the ray at
      [PI/6].
    - [Surfaces]: pyplasm's [S1], [BEZIER] and [ROTATIONALSURFACE] from
      the library's definitions, and the rim and tire surfaces of lines
      144 and 148, [MAP] of a surface of revolution over the [MKPOL] of
      [DOMAIN2D]: for any [UKPOL] numbering satisfying its laws they are
      built without an exception and every triangle pyplasm draws through
      the mapped vertices lies within the radius 8 (rim) and 9.8 (tire)
      of the axis, bounds of their control points that every point of a
      Bezier curve keeps.
    - [Assembly]: the wheel and its placement (lines 140-160): [wheels]
      is exactly four copies of a wheel in explicit frames (scale 0.4,
      axes along y, spoke faces outward); compared with the side view
      placed by [exercise2] the rear wheels sit one unit behind their
      arch; the six spoke pairs of [DUPLIROT] each keep to their own
      60-degree sector; and [exercise3], composed of the spokes, the rim
      and the tire, lies within 3.92 of the four hubs, so the front
      wheels stay inside the span of their arch.

    Bounds and fuel.  [DOMAIN] and [annulus_sector] are total, so no fuel
    is needed; [Outline.reach] explores the curves of a view in as many
    rounds as there are curves, and what it finds is reachable whatever
    the fuel ([reach_linked]), so a view it accepts is connected; the
    data theorems are decided by [vm_compute] on the exact rationals of
    the source.  There are no termination or liveness properties: every
    loop of the scripts runs over a list or a [range], the model's
    functions are structurally recursive (the kernel checks that they
    terminate), and nothing waits or runs concurrently.

    What is not modelled: rendering ([VIEW]; [COLOR] is the identity on
    the geometry); the sampling of the 2D Bezier and spline curves over
    [domain1D] (lines 66 and 126; a curve of the views is known by its
    control points and end points); how pyplasm splits a box cell into
    simplices before [MAP] maps their vertices ([Geometry.mem] takes the
    hull of the mapped corners, which contains the triangles and equals
    their union when the images are in convex position, as for the
    sectors); the unused
    [wheelSectionPoints] (line 68); pyplasm's [EXTRUDE] (no behaviour of
    it is documented here, so [floor0] and [floor21] take it as a
    variable); pyplasm's library functions themselves, which [Kernel],
    [Scene] and [Surfaces] state from the library's definitions and
    documentation but do not map to code of the repository;
    floating-point rounding. *)

From Stdlib Require Import List ZArith Lia.
Import ListNotations.

(** ** Python exceptions and the error monad *)

Inductive pyexn : Type :=
| IndexError   (* l[i] with i out of range *)
| ValueError   (* unpacking [s,e] from a list that is not a pair *)
| TypeError    (* reduce() of an empty sequence *)
| PlasmError.  (* pyplasm's own [Exception], e.g. [STRUCT] of an empty list *)

Inductive res (A : Type) : Type :=
| Ok (a : A)
| Raise (e : pyexn).
Arguments Ok {A} a.
Arguments Raise {A} e.

Definition res_bind {A B} (m : res A) (k : A -> res B) : res B :=
  match m with
  | Ok a => k a
  | Raise e => Raise e
  end.

Declare Scope py_scope.
Delimit Scope py_scope with py.
Notation "x <- m ;; k" := (res_bind m (fun x => k))
  (at level 61, m at next level, right associativity) : py_scope.
Open Scope py_scope.

Definition is_ok {A} (m : res A) : bool :=
  match m with Ok _ => true | Raise _ => false end.

(** Python [l[i]] for a non-negative index. *)
Definition py_index {A} (l : list A) (i : nat) : res A :=
  match nth_error l i with
  | Some x => Ok x
  | None => Raise IndexError
  end.

(** Python [range(n)] for an integer [n]: empty when [n <= 0]. *)
Definition py_range (n : Z) : list nat := seq 0 (Z.to_nat n).

(** Python 2 [map(f, l)] and [[f(x) for x in l]]: eager, left to right,
    the first exception escapes. *)
Fixpoint py_map {A B} (f : A -> res B) (l : list A) : res (list B) :=
  match l with
  | [] => Ok []
  | x :: l' => y <- f x ;; ys <- py_map f l' ;; Ok (y :: ys)
  end.

(** ** Lemmas on the monad and the list primitives *)

Lemma bind_ok {A B} (a : A) (k : A -> res B) : res_bind (Ok a) k = k a.
Proof. reflexivity. Qed.

Lemma bind_raise {A B} e (k : A -> res B) : res_bind (Raise e) k = Raise e.
Proof. reflexivity. Qed.

Lemma bind_ok_inv {A B} (m : res A) (k : A -> res B) b :
  res_bind m k = Ok b -> exists a, m = Ok a /\ k a = Ok b.
Proof. destruct m; simpl; [eauto | discriminate]. Qed.

Lemma py_index_lt {A} (l : list A) i :
  i < length l -> exists x, py_index l i = Ok x /\ nth_error l i = Some x.
Proof.
  intros H. unfold py_index.
  destruct (nth_error l i) eqn:E; [eauto|].
  apply nth_error_None in E. lia.
Qed.

Lemma py_index_ge {A} (l : list A) i :
  length l <= i -> py_index l i = Raise IndexError.
Proof. intros H. unfold py_index. rewrite (proj2 (nth_error_None l i) H). reflexivity. Qed.

Lemma py_index_ok {A} (l : list A) i x :
  py_index l i = Ok x <-> nth_error l i = Some x.
Proof.
  unfold py_index. destruct (nth_error l i); split; intros H; congruence.
Qed.

Lemma py_index_raise {A} (l : list A) i e : py_index l i = Raise e -> e = IndexError.
Proof. unfold py_index. destruct (nth_error l i); congruence. Qed.

Lemma py_index_map {A B} (f : A -> B) l i :
  py_index (map f l) i = match py_index l i with Ok x => Ok (f x) | Raise e => Raise e end.
Proof. unfold py_index. rewrite nth_error_map. destruct (nth_error l i); reflexivity. Qed.

Lemma length_py_range n : length (py_range n) = Z.to_nat n.
Proof. apply length_seq. Qed.

Lemma py_range_nonpos n : (n <= 0)%Z -> py_range n = [].
Proof. intros H. unfold py_range. replace (Z.to_nat n) with 0 by lia. reflexivity. Qed.

Lemma py_map_total {A B} (f : A -> res B) (g : A -> B) l :
  (forall x, In x l -> f x = Ok (g x)) -> py_map f l = Ok (map g l).
Proof.
  induction l as [|x l IH]; intros H; simpl; [reflexivity|].
  rewrite H by (left; reflexivity). simpl.
  rewrite IH by (intros y Hy; apply H; right; exact Hy). reflexivity.
Qed.

Lemma py_map_ok_Forall2 {A B} (f : A -> res B) l ys :
  py_map f l = Ok ys <-> Forall2 (fun x y => f x = Ok y) l ys.
Proof.
  revert ys; induction l as [|x l IH]; intros ys; simpl.
  - split; intros H; [injection H as <-; constructor | inversion H; reflexivity].
  - split.
    + intros H. destruct (f x) as [y|e] eqn:Ef; [|discriminate]. simpl in H.
      destruct (py_map f l) as [ys'|e] eqn:Em; [|discriminate]. simpl in H.
      injection H as <-. constructor; [exact Ef | apply IH; reflexivity].
    + intros H. inversion H as [|x' y ys' l' Hy Hrest]; subst.
      rewrite Hy. simpl. rewrite (proj2 (IH _) Hrest). reflexivity.
Qed.

Lemma py_map_length {A B} (f : A -> res B) l ys :
  py_map f l = Ok ys -> length ys = length l.
Proof. intros H. apply py_map_ok_Forall2 in H. symmetry. eapply Forall2_length. exact H. Qed.

Lemma py_map_app {A B} (f : A -> res B) l1 l2 :
  py_map f (l1 ++ l2) = (ys1 <- py_map f l1 ;; ys2 <- py_map f l2 ;; Ok (ys1 ++ ys2)).
Proof.
  induction l1 as [|x l1 IH]; simpl.
  - destruct (py_map f l2); reflexivity.
  - destruct (f x); simpl; [|reflexivity]. rewrite IH.
    destruct (py_map f l1); simpl; [|reflexivity].
    destruct (py_map f l2); reflexivity.
Qed.

(** [py_map] raises exactly when some element raises; the first one wins. *)
Lemma py_map_raise {A B} (f : A -> res B) l e :
  py_map f l = Raise e ->
  exists l1 x l2, l = l1 ++ x :: l2 /\ f x = Raise e /\
                  Forall (fun y => is_ok (f y) = true) l1.
Proof.
  induction l as [|x l IH]; simpl; [discriminate|].
  destruct (f x) as [y|e'] eqn:Ef; simpl.
  - destruct (py_map f l) eqn:Em; simpl; [discriminate|].
    intros H. injection H as ->. destruct (IH eq_refl) as (l1 & z & l2 & -> & Hz & Hok).
    exists (x :: l1), z, l2. split; [reflexivity|]. split; [exact Hz|].
    constructor; [rewrite Ef; reflexivity | exact Hok].
  - intros H. injection H as ->. exists [], x, l. repeat split; [exact Ef | constructor].
Qed.

Lemma py_map_is_ok {A B} (f : A -> res B) l :
  is_ok (py_map f l) = true <-> Forall (fun x => is_ok (f x) = true) l.
Proof.
  induction l as [|x l IH]; simpl.
  - split; constructor || reflexivity.
  - rewrite Forall_cons_iff, <- IH.
    destruct (f x); simpl; [|split; [discriminate | intros [H _]; discriminate]].
    destruct (py_map f l); simpl; split; intuition discriminate.
Qed.

Lemma forallb_rev {A} (f : A -> bool) l : forallb f (rev l) = forallb f l.
Proof.
  induction l as [|x l IH]; simpl; [reflexivity|].
  rewrite forallb_app, IH. simpl. rewrite Bool.andb_true_r, Bool.andb_comm. reflexivity.
Qed.

Lemma Forall2_map_r {A B C} (R : A -> C -> Prop) (f : B -> C) l1 l2 :
  Forall2 R l1 (map f l2) <-> Forall2 (fun a b => R a (f b)) l1 l2.
Proof.
  revert l2; induction l1 as [|x l1 IH]; intros [|y l2]; simpl;
    split; intros H; inversion H; subst; constructor; try apply IH; assumption.
Qed.

(** When every exception [f] can raise is [e0] and some element raises,
    [py_map f] raises [e0]. *)
Lemma py_map_raise_only {A B} (f : A -> res B) l e0 :
  (forall x e, f x = Raise e -> e = e0) ->
  Exists (fun x => is_ok (f x) = false) l ->
  py_map f l = Raise e0.
Proof.
  intros Honly Hex. destruct (py_map f l) as [ys|e] eqn:E.
  - assert (Hok : is_ok (py_map f l) = true) by (rewrite E; reflexivity).
    apply py_map_is_ok in Hok. rewrite Forall_forall in Hok.
    apply Exists_exists in Hex. destruct Hex as (x & Hx & Hf). rewrite Hok in Hf; [discriminate|exact Hx].
  - apply py_map_raise in E. destruct E as (l1 & x & l2 & _ & Hx & _).
    f_equal. eapply Honly; exact Hx.
Qed.

Lemma Forall2_map_map {A B C} (R : B -> C -> Prop) (f : A -> B) (g : A -> C) l :
  (forall x, In x l -> R (f x) (g x)) -> Forall2 R (map f l) (map g l).
Proof.
  induction l as [|x l IH]; intros H; simpl; constructor.
  - apply H. left. reflexivity.
  - apply IH. intros y Hy. apply H. right. exact Hy.
Qed.

Lemma Forall2_map_both {A B C D} (R : A -> B -> Prop) (R' : C -> D -> Prop)
      (f : A -> C) (g : B -> D) l m :
  (forall x y, R x y -> R' (f x) (g y)) -> Forall2 R l m -> Forall2 R' (map f l) (map g m).
Proof. intros H Hlm. induction Hlm; simpl; constructor; auto. Qed.

Lemma Forall2_diag {A} (R : A -> A -> Prop) l :
  Forall (fun x => R x x) l -> Forall2 R l l.
Proof. induction 1; constructor; assumption. Qed.

Lemma Forall2_rev {A B} (R : A -> B -> Prop) l1 l2 :
  Forall2 R l1 l2 -> Forall2 R (rev l1) (rev l2).
Proof. induction 1; simpl; [constructor | apply Forall2_app; [assumption | repeat constructor; assumption]]. Qed.

Lemma Forall2_In_l {A B} (R : A -> B -> Prop) l1 l2 x :
  Forall2 R l1 l2 -> In x l1 -> exists y, In y l2 /\ R x y.
Proof.
  induction 1 as [|a b l1 l2 Hab _ IH]; intros Hx; [destruct Hx|].
  destruct Hx as [<- | Hx]; [exists b; simpl; auto|].
  destruct (IH Hx) as (y & Hy & Hxy). exists y. simpl. auto.
Qed.

Lemma Forall2_In_r {A B} (R : A -> B -> Prop) l1 l2 y :
  Forall2 R l1 l2 -> In y l2 -> exists x, In x l1 /\ R x y.
Proof.
  induction 1 as [|a b l1 l2 Hab _ IH]; intros Hy; [destruct Hy|].
  destruct Hy as [<- | Hy]; [exists a; simpl; auto|].
  destruct (IH Hy) as (x & Hx & Hxy). exists x. simpl. auto.
Qed.

Lemma length_concat_const {A} (k : nat) (ls : list (list A)) :
  Forall (fun l => length l = k) ls -> length (concat ls) = k * length ls.
Proof.
  induction 1 as [|l ls Hl _ IH]; simpl; [lia|]. rewrite length_app, Hl, IH. lia.
Qed.

Lemma nth_map_seq {A} (f : nat -> A) n k d : (k < n)%nat -> nth k (map f (seq 0 n)) d = f k.
Proof.
  intros Hk. rewrite nth_indep with (d' := f 0%nat) by (rewrite length_map, length_seq; lia).
  rewrite map_nth, seq_nth by lia. reflexivity.
Qed.

(** ** Automation *)

Create HintDb py.
Create Rewrite HintDb py.
#[export] Hint Rewrite @bind_ok @bind_raise @length_py_range : py.
#[export] Hint Resolve py_map_length : py.

(** Simplify binds on known results, then case on the remaining ones. *)
Ltac py_simpl :=
  repeat (simpl res_bind in *; autorewrite with py in *).

Ltac py_inv H :=
  match type of H with
  | res_bind ?m _ = Ok _ =>
      let a := fresh "a" in let Ha := fresh "Ha" in
      apply bind_ok_inv in H; destruct H as (a & Ha & H)
  end.
