(* ===== verification/PointOps.v ===== *)
(** * PointOps: [AAPOINTS] of src/2013-05-10/python/exercise3.py

    [AAPOINTS(func)(operands)(args)] maps over the point list [args]
    and, for every point [list], builds
    [[func([operands[i],list[i]]) for i in range(len(list))]].
    The indexing [operands[i]] raises [IndexError] when a point is
    longer than [operands]; a point shorter than [operands] uses only a
    prefix of it.

    This file holds the model [AAPOINTS] (generic in the element type
    and in [func], as the Python is), a total reference definition
    [pointwise], the theorem that [AAPOINTS] is the reference exactly
    when every point fits the operand vector and raises [IndexError]
    otherwise, and the [PyNum] interface through which [MIRROR] uses
    pyplasm's numeric [SUM] and [PROD]. *)

From Stdlib Require Import List ZArith QArith Lia.
From S2P Require Import Prelude.
Import ListNotations.
Local Open Scope nat_scope.

Section AAPoints.
Context {A : Type}.
Variable func : list A -> A.

(** The body of the comprehension at index [i]. *)
Definition aapoint_at (operands lst : list A) (i : nat) : res A :=
  o <- py_index operands i ;; x <- py_index lst i ;; Ok (func [o; x]).

(** [lambda list : [func([operands[i],list[i]]) for i in range(len(list))]] *)
Definition aapoint (operands lst : list A) : res (list A) :=
  py_map (aapoint_at operands lst) (py_range (Z.of_nat (length lst))).

(** [AAPOINTS(func)(operands)(args)]: Python 2 [map] over the points. *)
Definition AAPOINTS (operands : list A) (args : list (list A)) : res (list (list A)) :=
  py_map (aapoint operands) args.

(** Reference: [func] applied to the coordinates paired with the
    operands, as long as both lists last. *)
Fixpoint pointwise (operands lst : list A) : list A :=
  match operands, lst with
  | o :: os, x :: xs => func [o; x] :: pointwise os xs
  | _, _ => []
  end.

(** The decidable precondition under which [AAPOINTS] returns. *)
Definition fits (operands : list A) (args : list (list A)) : bool :=
  forallb (fun p => length p <=? length operands) args.

Lemma py_range_of_nat n : py_range (Z.of_nat n) = seq 0 n.
Proof. unfold py_range. rewrite Nat2Z.id. reflexivity. Qed.

Lemma py_map_shift {B} (f : nat -> res B) k n :
  py_map f (seq (S k) n) = py_map (fun i => f (S i)) (seq k n).
Proof.
  revert k; induction n as [|n IH]; intros k; simpl; [reflexivity|].
  rewrite IH. reflexivity.
Qed.

Lemma aapoint_nil operands : aapoint operands [] = Ok [].
Proof. reflexivity. Qed.

Lemma aapoint_cons_nil x xs : aapoint [] (x :: xs) = Raise IndexError.
Proof. unfold aapoint. rewrite py_range_of_nat. reflexivity. Qed.

Lemma aapoint_cons o os x xs :
  aapoint (o :: os) (x :: xs) = (ys <- aapoint os xs ;; Ok (func [o; x] :: ys)).
Proof.
  unfold aapoint. rewrite !py_range_of_nat. simpl length.
  cbn [seq py_map]. rewrite py_map_shift. reflexivity.
Qed.

(** One point: the comprehension is the reference when the point fits
    the operand vector, and raises [IndexError] otherwise. *)
Lemma aapoint_spec operands lst :
  aapoint operands lst =
  if length lst <=? length operands then Ok (pointwise operands lst)
  else Raise IndexError.
Proof.
  revert operands; induction lst as [|x xs IH]; intros [|o os]; try reflexivity.
  - apply aapoint_cons_nil.
  - rewrite aapoint_cons, IH. simpl length.
    destruct (length xs <=? length os) eqn:E; simpl; rewrite E; reflexivity.
Qed.

Lemma length_pointwise operands lst :
  length lst <= length operands -> length (pointwise operands lst) = length lst.
Proof.
  revert operands; induction lst as [|x xs IH]; intros [|o os] H; simpl in *;
    try reflexivity; try lia.
  rewrite IH by lia. reflexivity.
Qed.

Lemma nth_error_pointwise operands lst i o x :
  nth_error operands i = Some o -> nth_error lst i = Some x ->
  nth_error (pointwise operands lst) i = Some (func [o; x]).
Proof.
  revert operands lst; induction i as [|i IH]; intros [|o' os] [|x' xs] Ho Hx;
    simpl in *; try discriminate.
  - injection Ho as ->. injection Hx as ->. reflexivity.
  - apply IH; assumption.
Qed.

(** [AAPOINTS] is the reference [map (pointwise operands)] when every
    point fits, and raises [IndexError] as soon as one does not. *)
Theorem AAPOINTS_eq operands args :
  AAPOINTS operands args =
  if fits operands args then Ok (map (pointwise operands) args)
  else Raise IndexError.
Proof.
  unfold AAPOINTS, fits. induction args as [|p args IH]; [reflexivity|].
  simpl py_map. rewrite aapoint_spec, IH. simpl forallb.
  destruct (length p <=? length operands); simpl; [|reflexivity].
  destruct (forallb _ args); reflexivity.
Qed.

Corollary AAPOINTS_ok operands args :
  fits operands args = true ->
  AAPOINTS operands args = Ok (map (pointwise operands) args).
Proof. intros H. rewrite AAPOINTS_eq, H. reflexivity. Qed.

(** C4: Refinement: [AAPOINTS] returns exactly when every point fits the
    operand vector, and then returns the reference. *)
Theorem AAPOINTS_refines operands args r :
  AAPOINTS operands args = Ok r <->
  fits operands args = true /\ r = map (pointwise operands) args.
Proof.
  rewrite AAPOINTS_eq. destruct (fits operands args); split.
  - intros Hr. injection Hr as <-. auto.
  - intros [_ ->]. reflexivity.
  - discriminate.
  - intros [Hf _]. discriminate.
Qed.

(** C12: The exceptions of [AAPOINTS]: only [IndexError], and exactly
    when some point is longer than the operand vector. *)
Theorem AAPOINTS_error operands args e :
  AAPOINTS operands args = Raise e <-> e = IndexError /\ fits operands args = false.
Proof.
  rewrite AAPOINTS_eq. destruct (fits operands args); split.
  - discriminate.
  - intros [_ H]; discriminate.
  - intros H. injection H as <-. auto.
  - intros [-> _]. reflexivity.
Qed.

Lemma fits_iff operands args :
  fits operands args = true <-> Forall (fun p => length p <= length operands) args.
Proof.
  unfold fits. rewrite forallb_forall, Forall_forall.
  split; intros H p Hp; specialize (H p Hp); apply Nat.leb_le; assumption.
Qed.

(** C16: Coordinate by coordinate: coordinate [i] of the [j]-th output
    point is [func([operands[i], args[j][i]])], and every output point
    has the length of its input point. *)
Theorem AAPOINTS_nth operands args r j p :
  AAPOINTS operands args = Ok r -> nth_error args j = Some p ->
  exists q, nth_error r j = Some q /\ length q = length p /\
    forall i x, nth_error p i = Some x ->
      exists o, nth_error operands i = Some o /\ nth_error q i = Some (func [o; x]).
Proof.
  rewrite AAPOINTS_eq. destruct (fits operands args) eqn:Hfit; [|discriminate].
  intros Hr Hp. injection Hr as <-.
  apply fits_iff in Hfit. rewrite Forall_forall in Hfit.
  specialize (Hfit p (nth_error_In _ _ Hp)).
  exists (pointwise operands p). rewrite nth_error_map, Hp.
  split; [reflexivity|]. split; [apply length_pointwise; exact Hfit|].
  intros i x Hx. assert (Hi : i < length operands).
  { assert (i < length p) by (apply nth_error_Some; congruence). lia. }
  destruct (nth_error operands i) as [o|] eqn:Ho;
    [|apply nth_error_None in Ho; lia].
  exists o. split; [reflexivity | apply nth_error_pointwise; assumption].
Qed.
End AAPoints.

(** ** The numeric interface MIRROR relies on

    pyplasm's [SUM] and [PROD] reduce a list of numbers with [+] and
    [*]; [AAPOINTS] always hands them a pair.  [MIRROR] needs only that
    multiplying by [1] is the identity and multiplying twice by [-1] is
    the identity, which is what [PyNumLaws] states. *)

Class PyNum (A : Type) := {
  num_one : A;
  num_neg_one : A;
  SUM : list A -> A;
  PROD : list A -> A
}.

Class PyNumLaws (A : Type) `{PyNum A} := {
  PROD_one_l : forall x, PROD [num_one; x] = x;
  PROD_neg_one_involutive : forall x, PROD [num_neg_one; PROD [num_neg_one; x]] = x
}.

(** [reduce(f, l)] of Python; [reduce] of an empty list is a
    [TypeError] in Python, never reached from [AAPOINTS]. *)
Definition py_reduce {A} (f : A -> A -> A) (dflt : A) (l : list A) : A :=
  match l with
  | [] => dflt
  | x :: l' => fold_left f l' x
  end.

#[export] Instance PyNum_Q : PyNum Q := {
  num_one := 1%Q;
  num_neg_one := (-1)%Q;
  SUM := py_reduce Qplus 0%Q;
  PROD := py_reduce Qmult 1%Q
}.

Lemma Qmult_one_l_eq (x : Q) : (1 * x)%Q = x.
Proof. destruct x as [n d]. unfold Qmult. simpl. destruct n; reflexivity. Qed.

Lemma Qmult_neg_one_involutive (x : Q) : (-1 * (-1 * x))%Q = x.
Proof. destruct x as [n d]. unfold Qmult. simpl. destruct n; reflexivity. Qed.

#[export] Instance PyNumLaws_Q : PyNumLaws Q.
Proof. constructor; [apply Qmult_one_l_eq | apply Qmult_neg_one_involutive]. Qed.

#[export] Hint Rewrite @aapoint_spec @AAPOINTS_eq : py.

(** ** Concrete runs on the wheel section of line 69 *)

Local Open Scope Q_scope.

Definition wheel_section_unit : list (list Q) := [[0; 0]; [0.05; 2 / 3]; [0.95; 2 / 3]; [1; 0]].

Lemma AAPOINTS_nth_witness :
  exists q, nth_error (map (pointwise PROD [8; 8]) wheel_section_unit) 1 = Some q /\
    length q = length [0.05; 2 / 3] /\
    forall i x, nth_error [0.05; 2 / 3] i = Some x ->
      exists o, nth_error [8; 8] i = Some o /\ nth_error q i = Some (PROD [o; x]).
Proof. apply (AAPOINTS_nth PROD [8; 8] wheel_section_unit _ 1); reflexivity. Defined.
