(* ===== verification/Mirror.v ===== *)
(** * Mirror: [MIRROR] of src/2013-05-10/python/exercise3.py (lines 40-48)

    [MIRROR(axis)(points)] builds the sign vector
    [[-1 if n == axis else 1 for n in range(len(points[0]))]], multiplies
    every point by it coordinate by coordinate with [AAPOINTS(PROD)],
    reverses the result in place and returns [points + mirrored].

    The model is generic over the numbers through the [PyNum] interface
    of [PointOps]; the theorems use only its laws [PyNumLaws].  They
    give the exact result and every exception ([MIRROR_eq]), the
    length, the unchanged first half, the round trip of the second half
    and the mirror symmetry of the whole output, and what happens when
    [axis] names no coordinate.  On rationals, [MIRROR_seam] shows the
    seam the spec accepts: a last point on the mirror axis appears twice
    in a row in the output. *)

From Stdlib Require Import List ZArith QArith Lia.
From S2P Require Import Prelude PointOps.
Import ListNotations.
Local Open Scope nat_scope.

Section Mirror.
Context {A : Type} `{PyNum A}.

(** [[-1 if n == axis else 1 for n in range(len(points[0]))]] *)
Definition mirror_signs (axis : Z) (dim : nat) : list A :=
  map (fun n => if Z.eqb (Z.of_nat n) axis then num_neg_one else num_one)
      (py_range (Z.of_nat dim)).

(** [MIRROR(axis)(points)]. *)
Definition MIRROR (axis : Z) (points : list (list A)) : res (list (list A)) :=
  p0 <- py_index points 0 ;;
  mirrored <- AAPOINTS PROD (mirror_signs axis (length p0)) points ;;
  Ok (points ++ rev mirrored).

(** Reflection of a point list by a sign vector, as [MIRROR] computes
    it before the reversal. *)
Definition reflect (signs : list A) (pts : list (list A)) : list (list A) :=
  map (pointwise PROD signs) pts.

Lemma length_mirror_signs axis dim : length (mirror_signs axis dim) = dim.
Proof.
  unfold mirror_signs. rewrite length_map, py_range_of_nat, length_seq. reflexivity.
Qed.

(** The exact behaviour: [IndexError] on an empty list or on a point
    longer than the first one, otherwise the points followed by their
    reversed reflection. *)
Theorem MIRROR_eq axis points :
  MIRROR axis points =
  match points with
  | [] => Raise IndexError
  | p0 :: _ =>
      let signs := mirror_signs axis (length p0) in
      if fits signs points then Ok (points ++ rev (reflect signs points))
      else Raise IndexError
  end.
Proof.
  unfold MIRROR. destruct points as [|p0 ps]; [reflexivity|].
  cbn [py_index nth_error res_bind]. rewrite AAPOINTS_eq.
  destruct (fits (mirror_signs axis (length p0)) (p0 :: ps)); reflexivity.
Qed.

Lemma MIRROR_ok_inv axis points r :
  MIRROR axis points = Ok r ->
  exists p0 ps, points = p0 :: ps /\
    fits (mirror_signs axis (length p0)) points = true /\
    r = points ++ rev (reflect (mirror_signs axis (length p0)) points).
Proof.
  rewrite MIRROR_eq. destruct points as [|p0 ps]; [discriminate|]. cbv zeta.
  destruct (fits (mirror_signs axis (length p0)) (p0 :: ps)) eqn:Hf; [|discriminate].
  intros Hr. injection Hr as <-.
  exists p0, ps. auto.
Qed.

(** C11: [MIRROR] raises only [IndexError]: on an empty point list
    ([points[0]]) or when some point is longer than the first one. *)
Theorem MIRROR_error axis points e :
  MIRROR axis points = Raise e <->
  e = IndexError /\
  (points = [] \/
   exists p0 ps, points = p0 :: ps /\ fits (mirror_signs axis (length p0)) points = false).
Proof.
  rewrite MIRROR_eq. destruct points as [|p0 ps]; cbv zeta.
  - split; [intros Hr; injection Hr as <-; auto | intros [-> _]; reflexivity].
  - destruct (fits (mirror_signs axis (length p0)) (p0 :: ps)) eqn:Hf; split.
    + discriminate.
    + intros [_ [Hr | (p0' & ps' & Heq & Hr)]]; [discriminate|].
      injection Heq as <- <-. congruence.
    + intros Hr. injection Hr as <-. split; [reflexivity|]. right. eauto.
    + intros [-> _]. reflexivity.
Qed.

(** The output has twice as many points as the input, and its first half
    is the input, untouched. *)
Lemma MIRROR_shape axis points r :
  MIRROR axis points = Ok r -> length r = 2 * length points /\ firstn (length points) r = points.
Proof.
  intros (p0 & ps & -> & _ & ->)%MIRROR_ok_inv. split.
  - unfold reflect. rewrite length_app, length_rev, length_map. lia.
  - rewrite firstn_app, Nat.sub_diag, firstn_all, firstn_O. apply app_nil_r.
Qed.

Context `{!PyNumLaws A}.

Lemma mirror_signs_Forall axis dim :
  Forall (fun s => s = num_one \/ s = num_neg_one) (mirror_signs axis dim).
Proof.
  unfold mirror_signs. apply Forall_map, Forall_forall. intros n _.
  destruct (Z.of_nat n =? axis)%Z; auto.
Qed.

(** Multiplying twice by a vector of signs gives the point back. *)
Lemma pointwise_signs_involutive signs p :
  Forall (fun s => s = num_one \/ s = num_neg_one) signs ->
  length p <= length signs ->
  pointwise PROD signs (pointwise PROD signs p) = p.
Proof.
  intros Hs. revert p; induction Hs as [|s signs Hs0 Hs IH]; intros [|x p] Hl;
    simpl in *; try reflexivity; try lia.
  rewrite IH by lia. f_equal.
  destruct Hs0 as [-> | ->]; [rewrite !PROD_one_l | rewrite PROD_neg_one_involutive];
    reflexivity.
Qed.

Lemma reflect_involutive signs pts :
  Forall (fun s => s = num_one \/ s = num_neg_one) signs ->
  Forall (fun p => length p <= length signs) pts ->
  reflect signs (reflect signs pts) = pts.
Proof.
  intros Hs Hl. unfold reflect. rewrite map_map.
  induction Hl as [|p pts Hp _ IH]; simpl; [reflexivity|].
  rewrite IH, pointwise_signs_involutive; auto.
Qed.

Lemma fits_reflect signs pts :
  fits signs pts = true -> fits signs (reflect signs pts) = true.
Proof.
  intros Hf. apply fits_iff in Hf. apply fits_iff. unfold reflect.
  apply Forall_map. eapply Forall_impl; [|exact Hf]. intros p Hp.
  rewrite length_pointwise; assumption.
Qed.

(** C3: Shape and round trip: the output has twice as many points as the
    input and its first half is the input, untouched; reversing the
    second half and reflecting it again with the same sign vector gives
    the input back. *)
Theorem MIRROR_roundtrip axis p0 ps r :
  MIRROR axis (p0 :: ps) = Ok r ->
  length r = 2 * S (length ps) /\ firstn (S (length ps)) r = p0 :: ps /\
  AAPOINTS PROD (mirror_signs axis (length p0)) (rev (skipn (S (length ps)) r))
    = Ok (p0 :: ps).
Proof.
  intros Hm. destruct (MIRROR_shape _ _ _ Hm) as [Hl Hfst]. split; [exact Hl | split; [exact Hfst|]].
  apply MIRROR_ok_inv in Hm as (p0' & ps' & Heq & Hf & ->).
  injection Heq as <- <-.
  change (S (length ps)) with (length (p0 :: ps)).
  rewrite skipn_app, skipn_all, Nat.sub_diag. cbn [skipn]. rewrite app_nil_l.
  rewrite rev_involutive, AAPOINTS_ok by (apply fits_reflect; exact Hf).
  f_equal. apply reflect_involutive; [apply mirror_signs_Forall | apply fits_iff, Hf].
Qed.

(** C2: Symmetry: the whole output is its own reversed reflection, the
    closed-profile property the car model uses [MIRROR] for. *)
Theorem MIRROR_symmetric axis p0 ps r :
  MIRROR axis (p0 :: ps) = Ok r ->
  AAPOINTS PROD (mirror_signs axis (length p0)) (rev r) = Ok r.
Proof.
  intros (p0' & ps' & Heq & Hf & ->)%MIRROR_ok_inv.
  injection Heq as <- <-.
  set (signs := mirror_signs axis (length p0)) in *.
  set (pts := p0 :: ps) in *.
  assert (Hall : fits signs (rev (pts ++ rev (reflect signs pts))) = true).
  { pose proof (fits_reflect _ _ Hf) as HfR. unfold fits in *.
    rewrite rev_app_distr, rev_involutive, forallb_app, forallb_rev, Hf, HfR.
    reflexivity. }
  rewrite AAPOINTS_ok by exact Hall. f_equal.
  rewrite rev_app_distr, rev_involutive.
  change (map (pointwise PROD signs) (reflect signs pts ++ rev pts))
    with (reflect signs (reflect signs pts ++ rev pts)).
  unfold reflect at 1. rewrite map_app.
  fold (reflect signs (reflect signs pts)).
  rewrite reflect_involutive by (apply mirror_signs_Forall || apply fits_iff, Hf).
  unfold reflect. rewrite map_rev. reflexivity.
Qed.

Lemma pointwise_ones signs p :
  Forall (fun s => s = num_one) signs -> length p <= length signs ->
  pointwise PROD signs p = p.
Proof.
  intros Hs. revert p; induction Hs as [|s signs -> _ IH]; intros [|x p] Hl;
    simpl in *; try reflexivity; try lia.
  rewrite PROD_one_l, IH by lia. reflexivity.
Qed.

Lemma mirror_signs_out_of_range axis dim :
  (axis < 0 \/ Z.of_nat dim <= axis)%Z ->
  Forall (fun s => s = num_one) (mirror_signs axis dim).
Proof.
  intros Hax. unfold mirror_signs. rewrite py_range_of_nat.
  apply Forall_map, Forall_forall. intros n Hn. apply in_seq in Hn.
  destruct (Z.of_nat n =? axis)%Z eqn:E; [apply Z.eqb_eq in E; lia | reflexivity].
Qed.

(** C15: An axis that names no coordinate is not an error: nothing is
    negated and the output is the points followed by their reversal. *)
Theorem MIRROR_axis_out_of_range axis p0 ps :
  (axis < 0 \/ Z.of_nat (length p0) <= axis)%Z ->
  fits (mirror_signs axis (length p0)) (p0 :: ps) = true ->
  MIRROR axis (p0 :: ps) = Ok ((p0 :: ps) ++ rev (p0 :: ps)).
Proof.
  intros Hax Hf. rewrite MIRROR_eq. cbv zeta. rewrite Hf. do 3 f_equal.
  unfold reflect. rewrite <- (map_id (p0 :: ps)) at 2. apply map_ext_in. intros p Hp.
  apply pointwise_ones; [apply mirror_signs_out_of_range; exact Hax|].
  apply fits_iff in Hf. rewrite Forall_forall in Hf. apply Hf, Hp.
Qed.
End Mirror.

(** ** Points on the mirror axis (rationals) *)

Local Open Scope Q_scope.

(** The signs of [MIRROR(axis)] fix every point whose [axis] coordinate
    is 0. *)
Lemma signs_fix axis k dim v :
  (length v <= dim)%nat -> (forall n, Z.of_nat (k + n) = axis -> nth n v 0 == 0) ->
  Forall2 (fun si vi => si * vi == vi)
    (firstn (length v) (map (fun n => if Z.eqb (Z.of_nat n) axis then num_neg_one else num_one) (seq k dim))) v.
Proof.
  revert k dim. induction v as [|x v IH]; intros k dim Hlen Hv; [constructor|].
  destruct dim as [|dim]; [cbn in Hlen; lia|]. cbn [length seq map firstn]. constructor.
  - destruct (Z.eqb_spec (Z.of_nat k) axis) as [E | E]; cbn [num_neg_one num_one PyNum_Q].
    + assert (Hx : x == 0) by (apply (Hv 0%nat); rewrite <- E; f_equal; lia).
      rewrite Hx. ring.
    + ring.
  - apply IH; [cbn in Hlen; lia|]. intros n Hn. apply (Hv (S n)). rewrite <- Hn. f_equal. lia.
Qed.

Lemma mirror_signs_fix axis dim v :
  (length v <= dim)%nat -> (forall n, Z.of_nat n = axis -> nth n v 0 == 0) ->
  Forall2 (fun si vi => si * vi == vi) (firstn (length v) (mirror_signs axis dim)) v.
Proof.
  intros Hlen Hv. unfold mirror_signs. rewrite py_range_of_nat. apply signs_fix; assumption.
Qed.

Lemma pointwise_firstn {A} (f : list A -> A) (s p : list A) :
  pointwise f s p = pointwise f (firstn (length p) s) p.
Proof.
  revert s. induction p as [|x p IH]; intros [|o s]; try reflexivity.
  cbn [length firstn pointwise]. rewrite <- IH. reflexivity.
Qed.

Lemma pointwise_PROD_fix s p :
  Forall2 (fun si xi => si * xi == xi) s p -> Forall2 Qeq (pointwise PROD s p) p.
Proof. induction 1; constructor; assumption. Qed.

(** C26: The spec's seam: when the last point lies on the mirror axis, the
    output holds it twice in a row (the second time reflected, which
    changes nothing); [MIRROR] does not remove the duplicate. *)
Theorem MIRROR_seam axis ps p r :
  MIRROR axis (ps ++ [p]) = Ok r -> (forall n, Z.of_nat n = axis -> nth n p 0 == 0) ->
  nth_error r (length ps) = Some p /\
  exists q, nth_error r (S (length ps)) = Some q /\ Forall2 Qeq q p.
Proof.
  intros Hm Hp. apply MIRROR_ok_inv in Hm as (p0 & ps' & Hpts & Hfits & ->).
  set (s := mirror_signs axis (length p0)) in *.
  assert (Hlen : (length p <= length s)%nat).
  { unfold fits in Hfits. rewrite forallb_forall in Hfits. apply Nat.leb_le, Hfits, in_or_app. simpl. auto. }
  unfold reflect. rewrite map_app, rev_app_distr. cbn [map rev app].
  rewrite <- app_assoc. cbn [app]. split.
  - rewrite nth_error_app2, Nat.sub_diag by lia. reflexivity.
  - exists (pointwise PROD s p). split.
    + rewrite nth_error_app2 by lia. replace (S (length ps) - length ps)%nat with 1%nat by lia. reflexivity.
    + rewrite pointwise_firstn. apply pointwise_PROD_fix, mirror_signs_fix; [|exact Hp].
      unfold s in Hlen. rewrite length_mirror_signs in Hlen. exact Hlen.
Qed.

(** ** Concrete runs on the tire profile of line 147 *)


Definition tire_profile : list (list Q) :=
  [[1; 0; 3.6]; [2; 0; 3.6]; [2.2; 0; 4]; [4; 0; 4]; [4.3; 0; 3.6]].

Example MIRROR_tire :
  MIRROR 2 tire_profile =
  Ok (tire_profile ++
      [[4.3; 0; -3.6]; [4; 0; -4]; [2.2; 0; -4]; [2; 0; -3.6]; [1; 0; -3.6]]).
Proof. vm_compute. reflexivity. Qed.

Lemma MIRROR_roundtrip_witness :
  length (tire_profile ++
      [[4.3; 0; -3.6]; [4; 0; -4]; [2.2; 0; -4]; [2; 0; -3.6]; [1; 0; -3.6]]) = 10%nat /\
  AAPOINTS PROD (mirror_signs 2 3)
    (rev (skipn 5 (tire_profile ++
      [[4.3; 0; -3.6]; [4; 0; -4]; [2.2; 0; -4]; [2; 0; -3.6]; [1; 0; -3.6]])))
  = Ok tire_profile.
Proof.
  destruct (MIRROR_roundtrip 2 [1; 0; 3.6] (tl tire_profile) _ MIRROR_tire) as (Hl & _ & Hr).
  split; [exact Hl | exact Hr].
Defined.

Lemma MIRROR_symmetric_witness :
  exists r, MIRROR 2 tire_profile = Ok r /\ AAPOINTS PROD (mirror_signs 2 3) (rev r) = Ok r.
Proof.
  eexists. split; [exact MIRROR_tire|].
  exact (MIRROR_symmetric 2 [1; 0; 3.6] (tl tire_profile) _ MIRROR_tire).
Defined.

Lemma MIRROR_axis_out_of_range_witness :
  MIRROR 3 tire_profile = Ok (tire_profile ++ rev tire_profile).
Proof.
  exact (MIRROR_axis_out_of_range 3 [1; 0; 3.6] (tl tire_profile)
           (or_intror (Z.le_refl 3)) eq_refl).
Defined.

Lemma MIRROR_seam_witness :
  exists r, MIRROR 1 ([[14; 9.5]; [14; 9.5]; [14; 9.5]; [9; 9.5]; [8; 9.5]; [4; 8]; [1; 6]; [0; 5.3];
                       [0; 0]; [0; 0]] ++ [[0; 0]]) = Ok r /\
    nth_error r 10 = Some [0; 0] /\ exists q, nth_error r 11 = Some q /\ Forall2 Qeq q [0; 0].
Proof.
  eexists. split; [reflexivity|].
  apply (MIRROR_seam 1 [[14; 9.5]; [14; 9.5]; [14; 9.5]; [9; 9.5]; [8; 9.5]; [4; 8]; [1; 6]; [0; 5.3];
                       [0; 0]; [0; 0]] [0; 0]); [reflexivity|].
  intros [|[|n]] Hn; [discriminate | reflexivity | lia].
Defined.
