(* ===== verification/Kernel.v ===== *)
(** * Kernel: the part of pyplasm that [GRID] and [DOMAIN] call

    pyplasm is the library the scripts import ([from pyplasm import *]);
    it is not code of this repository, so this file models the
    documented behaviour of the few operators the helpers use, on the
    one kind of geometry they produce: complexes of axis-aligned boxes.

    - A [cell] is a box, one closed interval per axis; a [complex] is a
      list of cells.
    - [QUOTE(l)] reads the signed lengths of [l] left to right from
      position 0: each value advances the position by its absolute
      value, and a positive value adds the segment it spans as a cell,
      a non-positive one leaves a gap.
    - [INTERVALS(a)(n)] is [QUOTE] of [n] steps of [a/n].
    - [PROD([a,b])] on complexes is the Cartesian product: every cell of
      [a] concatenated with every cell of [b].
    - [INSR(f)(seq)] folds from the right, starting from [seq[-1]]
      (an [IndexError] on an empty sequence).
    - [T(axes)(values)] translates axis [axes[k]] (1-based) by
      [values[k]].

    Alongside: the equivalence [complex_eqv] (same cells up to equality
    of rationals), its [Proper] instances, and the invariant of the
    one-dimensional complexes [QUOTE] builds (every cell non-empty,
    cells in increasing order, pairwise disjoint). *)

From Stdlib Require Import List ZArith QArith Qabs Lia Lqa Setoid Morphisms.
From S2P Require Import Prelude.
Import ListNotations.

Abbreviation interval := (Q * Q)%type.
Abbreviation cell := (list interval).
Abbreviation complex := (list cell).

(** ** [QUOTE] and [INTERVALS] *)

Fixpoint quote_from (pos : Q) (l : list Q) : complex :=
  match l with
  | [] => []
  | v :: l' =>
      let next := pos + Qabs v in
      if Qle_bool v 0 then quote_from next l'
      else [(pos, next)] :: quote_from next l'
  end.

Definition QUOTE (l : list Q) : complex := quote_from 0 l.

Definition INTERVALS (a : Q) (n : Z) : complex :=
  QUOTE (map (fun _ => a / inject_Z n) (py_range n)).

(** ** Product, right insertion, translation *)

Definition cprod (a b : complex) : complex :=
  flat_map (fun ca => map (fun cb => ca ++ cb) b) a.

(** [INSR(PROD)(seq)]. *)
Fixpoint insr_prod (seq : list complex) : res complex :=
  match seq with
  | [] => Raise IndexError
  | [c] => Ok c
  | c :: cs => r <- insr_prod cs ;; Ok (cprod c r)
  end.

Definition shift (v : Q) (iv : interval) : interval := (fst iv + v, snd iv + v).

(** Translate the interval of the 1-based axis [ax] of a cell. *)
Fixpoint shift_axis (ax : nat) (v : Q) (c : cell) : cell :=
  match c, ax with
  | [], _ => []
  | iv :: c', O => iv :: c'
  | iv :: c', S O => shift v iv :: c'
  | iv :: c', S ax' => iv :: shift_axis ax' v c'
  end.

(** [T(axes)(values)(complex)]. *)
Definition T (axes : list nat) (vals : list Q) (cx : complex) : complex :=
  map (fun c => fold_left (fun c '(ax, v) => shift_axis ax v c) (combine axes vals) c) cx.

(** ** Equivalence of complexes *)

Definition interval_eqv (a b : interval) : Prop := fst a == fst b /\ snd a == snd b.
Definition cell_eqv : cell -> cell -> Prop := Forall2 interval_eqv.
Definition complex_eqv : complex -> complex -> Prop := Forall2 cell_eqv.

#[export] Instance interval_eqv_equiv : Equivalence interval_eqv.
Proof.
  split.
  - intros [a b]. split; reflexivity.
  - intros [a b] [c d] [H1 H2]. split; symmetry; assumption.
  - intros [a b] [c d] [e f] [H1 H2] [H3 H4]. split; etransitivity; eassumption.
Qed.

Lemma Forall2_equiv {A} (R : A -> A -> Prop) :
  Equivalence R -> Equivalence (Forall2 R).
Proof.
  intros HR. split.
  - intros l. induction l; constructor; [reflexivity | assumption].
  - intros l1 l2 H. induction H; constructor; [symmetry|]; assumption.
  - intros l1 l2 l3 H12. revert l3.
    induction H12 as [|x y l1 l2 Hxy H IH]; intros l3 H23; inversion H23; subst;
      constructor; [etransitivity|apply IH]; eassumption.
Qed.

#[export] Instance cell_eqv_equiv : Equivalence cell_eqv.
Proof. apply Forall2_equiv, interval_eqv_equiv. Qed.

#[export] Instance complex_eqv_equiv : Equivalence complex_eqv.
Proof. apply Forall2_equiv, cell_eqv_equiv. Qed.

Lemma Forall2_app_eqv {A} (R : A -> A -> Prop) l1 l2 m1 m2 :
  Forall2 R l1 m1 -> Forall2 R l2 m2 -> Forall2 R (l1 ++ l2) (m1 ++ m2).
Proof. intros H1 H2. induction H1; simpl; [exact H2 | constructor; assumption]. Qed.

Lemma map_app_eqv ca ca' b b' :
  cell_eqv ca ca' -> complex_eqv b b' ->
  complex_eqv (map (fun cb => ca ++ cb) b) (map (fun cb => ca' ++ cb) b').
Proof.
  intros Hc Hb. induction Hb; simpl; constructor; [apply Forall2_app_eqv|]; assumption.
Qed.

#[export] Instance cprod_proper : Proper (complex_eqv ==> complex_eqv ==> complex_eqv) cprod.
Proof.
  intros a a' Ha b b' Hb. unfold cprod.
  induction Ha as [|ca ca' a a' Hc _ IH]; simpl; [constructor|].
  apply Forall2_app_eqv; [apply map_app_eqv|]; assumption.
Qed.

#[export] Instance shift_proper : Proper (Qeq ==> interval_eqv ==> interval_eqv) shift.
Proof.
  intros v v' Hv [a b] [a' b'] [H1 H2]. unfold shift, interval_eqv in *. simpl in *.
  split; [rewrite H1, Hv | rewrite H2, Hv]; reflexivity.
Qed.

Lemma map_shift_eqv v a b :
  complex_eqv a b -> complex_eqv (map (map (shift v)) a) (map (map (shift v)) b).
Proof.
  apply Forall2_map_both. intros ca cb. apply Forall2_map_both.
  intros x y Hxy. apply shift_proper; [reflexivity | exact Hxy].
Qed.

(** ** Translations along one axis

    [T([ax])([v])] shifts one axis of every cell; two such translations
    compose by adding their offsets, up to [Qeq]. *)

Lemma inject_Z_S k : inject_Z (Z.of_nat (S k)) = inject_Z (Z.of_nat k) + 1.
Proof. rewrite Nat2Z.inj_succ, <- Z.add_1_r, inject_Z_plus. reflexivity. Qed.

Lemma length_shift_axis ax v c : length (shift_axis ax v c) = length c.
Proof.
  revert ax. induction c as [|iv c IH]; intros [|[|ax]]; try reflexivity.
  exact (f_equal S (IH (S ax))).
Qed.

(** [T] moves boxes without changing their dimension. *)
Lemma T_length axes vals cx : Forall2 (fun c c' => length c' = length c) cx (T axes vals cx).
Proof.
  unfold T. apply Forall2_map_r, Forall2_diag, Forall_forall. intros c _.
  generalize (combine axes vals) as l. intros l. revert c.
  induction l as [|[ax v] l IH]; intros c; [reflexivity|]. simpl. rewrite IH. apply length_shift_axis.
Qed.

Lemma T_one ax v cx : T [ax] [v] cx = map (shift_axis ax v) cx.
Proof. reflexivity. Qed.

Lemma T_app axes vals a b : T axes vals (a ++ b) = T axes vals a ++ T axes vals b.
Proof. apply map_app. Qed.

#[export] Instance shift_axis_proper ax : Proper (Qeq ==> cell_eqv ==> cell_eqv) (shift_axis ax).
Proof.
  intros v v' Hv c c' Hc. revert ax.
  induction Hc as [|x y c c' Hxy Hc IH]; intros [|[|ax]];
    [exact (Forall2_nil _) | exact (Forall2_nil _) | exact (Forall2_nil _) | constructor; assumption
    | constructor; [apply shift_proper|]; assumption | constructor; [assumption | exact (IH (S ax))]].
Qed.

Lemma shift_axis_add ax u v c :
  cell_eqv (shift_axis ax v (shift_axis ax u c)) (shift_axis ax (u + v) c).
Proof.
  revert ax. induction c as [|iv c IH]; intros [|[|ax]];
    [exact (Forall2_nil _) | exact (Forall2_nil _) | exact (Forall2_nil _) | reflexivity
    | constructor; [unfold shift, interval_eqv; simpl; split; ring | reflexivity]
    | constructor; [reflexivity | exact (IH (S ax))]].
Qed.

Lemma shift_axis_0 ax c : cell_eqv (shift_axis ax 0 c) c.
Proof.
  revert ax. induction c as [|iv c IH]; intros [|[|ax]];
    [exact (Forall2_nil _) | exact (Forall2_nil _) | exact (Forall2_nil _) | reflexivity
    | constructor; [unfold shift, interval_eqv; simpl; split; ring | reflexivity]
    | constructor; [reflexivity | exact (IH (S ax))]].
Qed.

Lemma T_one_eqv ax v v' a b :
  v == v' -> complex_eqv a b -> complex_eqv (T [ax] [v] a) (T [ax] [v'] b).
Proof.
  intros Hv Hab. rewrite !T_one. apply Forall2_map_both with (R := cell_eqv); [|exact Hab].
  intros c c' Hc. apply shift_axis_proper; assumption.
Qed.

Lemma T_one_add ax u v cx : complex_eqv (T [ax] [v] (T [ax] [u] cx)) (T [ax] [u + v] cx).
Proof.
  rewrite !T_one, map_map. apply Forall2_map_map. intros c _. apply shift_axis_add.
Qed.

Lemma T_one_0 ax cx : complex_eqv (T [ax] [0] cx) cx.
Proof.
  rewrite T_one. rewrite <- (map_id cx) at 2. apply Forall2_map_map. intros c _. apply shift_axis_0.
Qed.

(** ** The invariant of one-dimensional complexes

    [QUOTE] builds cells of dimension one, each non-empty, in increasing
    order and pairwise disjoint (a cell ends where or before the next
    begins). *)

Fixpoint ordered_from (pos : Q) (cx : complex) : Prop :=
  match cx with
  | [] => True
  | [(a, b)] :: cx' => pos <= a /\ a < b /\ ordered_from b cx'
  | _ :: _ => False
  end.

Lemma ordered_from_weaken p q cx : q <= p -> ordered_from p cx -> ordered_from q cx.
Proof.
  destruct cx as [|[|[a b] [|]] cx]; simpl; try tauto.
  intros Hqp (Hpa & Hab & Hr). repeat split; [lra | assumption | assumption].
Qed.

(** ** Products and translations *)

(** A complex of one-dimensional cells, as [QUOTE] builds. *)
Abbreviation one_dim := (Forall (fun ca : cell => exists iv, ca = [iv])).

Lemma In_cprod c a b :
  In c (cprod a b) <-> exists ca cb, c = ca ++ cb /\ In ca a /\ In cb b.
Proof.
  unfold cprod. rewrite in_flat_map. split.
  - intros (ca & Hca & Hc). apply in_map_iff in Hc. destruct Hc as (cb & <- & Hcb). eauto.
  - intros (ca & cb & -> & Hca & Hcb). exists ca. split; [exact Hca|]. apply in_map, Hcb.
Qed.

Lemma length_flat_map_map {A B C} (f : A -> B -> C) a b :
  length (flat_map (fun x => map (f x) b) a) = (length a * length b)%nat.
Proof.
  induction a as [|x a IH]; simpl; [reflexivity|].
  rewrite length_app, length_map, IH. reflexivity.
Qed.

Lemma length_cprod a b : length (cprod a b) = (length a * length b)%nat.
Proof. exact (length_flat_map_map (@app interval) a b). Qed.

(** The translation [T(range(1,len(vals)+1))(vals)] on one cell. *)
Definition tcell (vals : list Q) (c : cell) : cell :=
  fold_left (fun c '(ax, v) => shift_axis ax v c) (combine (seq 1 (length vals)) vals) c.

Lemma T_seq vals cx : T (seq 1 (length vals)) vals cx = map (tcell vals) cx.
Proof. reflexivity. Qed.

Lemma fold_shift_axis_S axes vals iv c :
  Forall (fun ax => ax <> O) axes ->
  fold_left (fun c '(ax, v) => shift_axis ax v c) (combine (map S axes) vals) (iv :: c)
  = iv :: fold_left (fun c '(ax, v) => shift_axis ax v c) (combine axes vals) c.
Proof.
  revert vals c; induction axes as [|ax axes IH]; intros [|v vals] c Hax; try reflexivity.
  inversion Hax as [|? ? Hax0 Hax']; subst. simpl.
  destruct ax as [|ax]; [congruence|]. apply IH, Hax'.
Qed.

Lemma tcell_nil c : tcell [] c = c.
Proof. reflexivity. Qed.

Lemma tcell_cons v vals iv c : tcell (v :: vals) (iv :: c) = shift v iv :: tcell vals c.
Proof.
  unfold tcell. simpl length. cbn [seq].
  rewrite <- (seq_shift (length vals) 1). cbn [combine fold_left].
  change (shift_axis 1 v (iv :: c)) with (shift v iv :: c).
  apply fold_shift_axis_S, Forall_forall. intros ax Hax. apply in_seq in Hax. lia.
Qed.

(** Translating a product of a one-dimensional complex [a] by
    [v :: vals] translates [a] by [v] and the rest by [vals]. *)
Lemma cprod_nil_l b : cprod [] b = [].
Proof. reflexivity. Qed.

Lemma cprod_cons ca a b : cprod (ca :: a) b = map (fun cb => ca ++ cb) b ++ cprod a b.
Proof. reflexivity. Qed.

Lemma tcell_cprod v vals a b :
  one_dim a ->
  map (tcell (v :: vals)) (cprod a b) = cprod (map (map (shift v)) a) (map (tcell vals) b).
Proof.
  intros Ha. induction Ha as [|ca a (iv & ->) _ IH]; [reflexivity|].
  change (map (map (shift v)) ([iv] :: a)) with ([shift v iv] :: map (map (shift v)) a).
  rewrite !cprod_cons, map_app. f_equal; [|exact IH].
  rewrite !map_map. apply map_ext. intros cb. apply tcell_cons.
Qed.

Lemma quote_from_shape pos l : Forall (fun c => exists a b, c = [(a, b)]) (quote_from pos l).
Proof.
  revert pos; induction l as [|v l IH]; intros pos; simpl; [constructor|].
  destruct (Qle_bool v 0); [apply IH | constructor; [eauto | apply IH]].
Qed.

Lemma QUOTE_one_dim l : one_dim (QUOTE l).
Proof.
  eapply Forall_impl; [|apply quote_from_shape].
  intros c (a & b & ->). eauto.
Qed.

(** ** Automation *)

Create HintDb kernel.
#[export] Hint Resolve ordered_from_weaken : kernel.
#[export] Hint Unfold complex_eqv cell_eqv interval_eqv : kernel.
