(* ===== verification/Grid.v ===== *)
(** * Grid: [GRID] and [DOMAIN] of src/2013-04-05/python/exercise3.py

    [GRID = COMP([INSR(PROD),AA(QUOTE)])] (line 8) turns one signed
    interval list per axis into the product of their [QUOTE]s.
    [DOMAIN(dims)(divs)] (lines 10-19) unpacks every axis of [dims] as a
    pair [[s,e]], then, given [divs], builds for axis [i] the list of
    [divs[i]] steps [(end[i]-start[i])/float(divs[i])], takes their
    [GRID] and translates it by [start] along axes [1..len(dims)].

    Theorems: the cells of [QUOTE] sit exactly between consecutive
    cumulative sums at the positive entries, in order and disjoint; the
    cells of [GRID] are the products of the cells of the axes; [DOMAIN]
    refines the product of uniform subdivisions of [[s_i, e_i]] and its
    cells have one interval per axis of [dims]; and the exceptions
    [DOMAIN] raises ([ValueError] on an axis that is not a
    pair, [IndexError] on too few division counts). *)

From Stdlib Require Import List ZArith QArith Qabs Lia Lqa Setoid Morphisms.
From S2P Require Import Prelude PointOps Kernel.
Import ListNotations.

(** ** The model *)

(** [GRID(seqs)]: [INSR(PROD)] applied to [AA(QUOTE)(seqs)]. *)
Definition GRID (seqs : list (list Q)) : res complex :=
  insr_prod (map QUOTE seqs).

(** The pattern [[s,e]] of the comprehensions on lines 11-12. *)
Definition unpack_pair (d : list Q) : res (Q * Q) :=
  match d with
  | [s; e] => Ok (s, e)
  | _ => Raise ValueError
  end.

(** The comprehension of line 17 for axis [i]. *)
Definition domain_axis (start end_ : list Q) (divs : list Z) (i : nat) : res (list Q) :=
  d <- py_index divs i ;;
  py_map (fun _ : nat =>
            e <- py_index end_ i ;; s <- py_index start i ;; d' <- py_index divs i ;;
            Ok ((e - s) / inject_Z d'))
         (py_range d).

(** [DOMAIN1(divs)], lines 14-18, closing over [start], [end], [dims]. *)
Definition DOMAIN1 (start end_ : list Q) (ndims : nat) (divs : list Z) : res complex :=
  grid <- py_map (domain_axis start end_ divs) (py_range (Z.of_nat ndims)) ;;
  g <- GRID grid ;;
  Ok (T (seq 1 ndims) start g).

(** [DOMAIN(dims)], lines 10-19: the unpacking runs when [DOMAIN] is
    called, before any [divs] is given. *)
Definition DOMAIN (dims : list (list Q)) : res (list Z -> res complex) :=
  start <- py_map (fun d => se <- unpack_pair d ;; Ok (fst se)) dims ;;
  end_ <- py_map (fun d => se <- unpack_pair d ;; Ok (snd se)) dims ;;
  Ok (DOMAIN1 start end_ (length dims)).

(** ** Cumulative sums and the cells of [QUOTE] *)

(** The position reached after reading the signed lengths [l] from [pos]. *)
Definition advance (pos : Q) (l : list Q) : Q :=
  fold_left (fun acc v => acc + Qabs v) l pos.

(** [cumsum i l]: the [i]-th grid line, the sum of the first [i]
    absolute lengths. *)
Definition cumsum (i : nat) (l : list Q) : Q := advance 0 (firstn i l).

Lemma advance_ge pos l : pos <= advance pos l.
Proof.
  revert pos; induction l as [|v l IH]; intros pos; simpl; [apply Qle_refl|].
  eapply Qle_trans; [|apply IH]. pose proof (Qabs_nonneg v). lra.
Qed.

Lemma Qle_bool_false_lt a b : Qle_bool a b = false -> b < a.
Proof.
  intros H. destruct (Qlt_le_dec b a) as [Hv|Hv]; [exact Hv|].
  apply Qle_bool_iff in Hv. congruence.
Qed.

Lemma Qle_bool_false v : Qle_bool v 0 = false -> 0 < v.
Proof. apply Qle_bool_false_lt. Qed.

(** A cell of [quote_from pos l] spans the [i]-th step of [l] from
    [pos], for a positive entry [i]. *)
Lemma quote_from_In pos l a b :
  In [(a, b)] (quote_from pos l) <->
  exists i v, nth_error l i = Some v /\ 0 < v /\
              a = advance pos (firstn i l) /\ b = advance pos (firstn (S i) l).
Proof.
  revert pos; induction l as [|v l IH]; intros pos; simpl.
  - split; [intros [] | intros (i & w & Hi & _); destruct i; discriminate].
  - assert (Hstep : (exists i w, nth_error l i = Some w /\ 0 < w /\
                       a = advance (pos + Qabs v) (firstn i l) /\
                       b = advance (pos + Qabs v) (firstn (S i) l)) <->
                    (exists i w, nth_error (v :: l) (S i) = Some w /\ 0 < w /\
                       a = advance pos (firstn (S i) (v :: l)) /\
                       b = advance pos (firstn (S (S i)) (v :: l)))) by reflexivity.
    destruct (Qle_bool v 0) eqn:Hv.
    + rewrite IH, Hstep. split.
      * intros (i & w & H); exists (S i), w; exact H.
      * intros ([|i] & w & Hi & Hw & Ha & Hb); [|exists i, w; exact (conj Hi (conj Hw (conj Ha Hb)))].
        simpl in Hi. injection Hi as <-. apply Qle_bool_iff in Hv. lra.
    + simpl. rewrite IH, Hstep. split.
      * intros [H | (i & w & H)]; [|exists (S i), w; exact H].
        injection H as <- <-. exists 0%nat, v. simpl.
        split; [reflexivity|]. split; [apply Qle_bool_false, Hv|]. split; reflexivity.
      * intros ([|i] & w & Hi & Hw & Ha & Hb); [left | right; exists i, w; auto].
        simpl in Hi, Ha, Hb. injection Hi as <-. subst. reflexivity.
Qed.

(** The cells of [QUOTE(l)] are exactly the segments between the
    consecutive cumulative sums [cumsum i l] and [cumsum (i+1) l] at the
    entries [i] of [l] that are positive; a non-positive entry is a gap. *)
Theorem QUOTE_cells l a b :
  In [(a, b)] (QUOTE l) <->
  exists i v, nth_error l i = Some v /\ 0 < v /\ a = cumsum i l /\ b = cumsum (S i) l.
Proof. apply quote_from_In. Qed.


Lemma quote_from_ordered pos l : ordered_from pos (quote_from pos l).
Proof.
  revert pos; induction l as [|v l IH]; intros pos; simpl; [exact I|].
  pose proof (Qabs_nonneg v) as Habs.
  destruct (Qle_bool v 0) eqn:Hv.
  - apply (ordered_from_weaken (pos + Qabs v)); [lra | apply IH].
  - apply Qle_bool_false in Hv. assert (Qabs v == v) by (apply Qabs_pos; lra).
    simpl. split; [apply Qle_refl|]. split; [lra | apply IH].
Qed.

(** Invariant of [QUOTE]: every cell is a non-empty one-dimensional
    segment, the segments come in increasing order and no two overlap. *)
Theorem QUOTE_ordered l : ordered_from 0 (QUOTE l).
Proof. apply quote_from_ordered. Qed.

(** ** [GRID]: the Cartesian product of the axes *)


Lemma insr_prod_cells cs r :
  Forall one_dim cs -> insr_prod cs = Ok r ->
  forall c, In c r <-> Forall2 (fun iv cx => In [iv] cx) c cs.
Proof.
  revert r; induction cs as [|cx cs IH]; intros r Hcs Hr c; [discriminate|].
  inversion Hcs as [|? ? Hcx Hcs']; subst.
  destruct cs as [|cx2 cs].
  - injection Hr as <-. split.
    + intros Hc. rewrite Forall_forall in Hcx. destruct (Hcx c Hc) as [iv ->].
      repeat constructor. exact Hc.
    + intros H. inversion H as [|iv ? c' ? Hiv Hrest]; subst.
      inversion Hrest; subst. exact Hiv.
  - change (insr_prod (cx :: cx2 :: cs))
      with (r' <- insr_prod (cx2 :: cs) ;; Ok (cprod cx r')) in Hr.
    py_inv Hr. injection Hr as <-. rewrite In_cprod. split.
    + intros (ca & cb & -> & Hca & Hcb). rewrite Forall_forall in Hcx.
      destruct (Hcx ca Hca) as [iv ->]. constructor; [exact Hca|].
      apply (IH _ Hcs' Ha), Hcb.
    + intros H. inversion H as [|iv ? cb ? Hiv Hrest]; subst.
      exists [iv], cb. split; [reflexivity|]. split; [exact Hiv|].
      apply (IH _ Hcs' Ha), Hrest.
Qed.

(** C7: The cells of [GRID(seqs)] are the boxes whose interval on axis [i]
    is a cell of [QUOTE(seqs[i])], for every axis. *)
Theorem GRID_cells seqs cx c :
  GRID seqs = Ok cx ->
  In c cx <-> Forall2 (fun iv q => In [iv] (QUOTE q)) c seqs.
Proof.
  intros Hg. unfold GRID in Hg.
  assert (Hdim : Forall one_dim (map QUOTE seqs)).
  { apply Forall_map, Forall_forall. intros q _. apply QUOTE_one_dim. }
  rewrite (insr_prod_cells _ _ Hdim Hg), Forall2_map_r. reflexivity.
Qed.

Lemma insr_prod_nonempty cs : cs <> [] -> exists r, insr_prod cs = Ok r.
Proof.
  induction cs as [|cx cs IH]; intros Hne; [congruence|].
  destruct cs as [|cx2 cs]; [eexists; reflexivity|].
  destruct IH as [r Hr]; [discriminate|].
  exists (cprod cx r). change (insr_prod (cx :: cx2 :: cs))
    with (r' <- insr_prod (cx2 :: cs) ;; Ok (cprod cx r')). rewrite Hr. reflexivity.
Qed.

(** C17: [GRID] raises exactly on an empty list of axes ([INSR] reads
    [seq[-1]]), and otherwise has as many cells as the product of the
    numbers of cells of the axes. *)
Theorem GRID_total seqs :
  (seqs = [] -> GRID seqs = Raise IndexError) /\
  (seqs <> [] -> exists cx, GRID seqs = Ok cx /\
     length cx = fold_right Nat.mul 1%nat (map (fun q => length (QUOTE q)) seqs)).
Proof.
  split; [intros ->; reflexivity|]. intros Hne. unfold GRID.
  induction seqs as [|q seqs IH]; [congruence|].
  destruct seqs as [|q2 seqs]; [eexists; split; [reflexivity | simpl; lia]|].
  destruct IH as (r & Hr & Hlen); [discriminate|].
  exists (cprod (QUOTE q) r). split.
  - change (insr_prod (map QUOTE (q :: q2 :: seqs)))
      with (r' <- insr_prod (map QUOTE (q2 :: seqs)) ;; Ok (cprod (QUOTE q) r')).
    rewrite Hr. reflexivity.
  - rewrite length_cprod, Hlen. reflexivity.
Qed.

(** ** [DOMAIN]: unpacking and exceptions *)

Lemma unpack_pair_raise d e : unpack_pair d = Raise e -> e = ValueError.
Proof. destruct d as [|s [|t [|u d]]]; simpl; congruence. Qed.

Definition as_pairs (ps : list (Q * Q)) : list (list Q) := map (fun p => [fst p; snd p]) ps.

Lemma DOMAIN_pairs ps :
  DOMAIN (as_pairs ps) = Ok (DOMAIN1 (map fst ps) (map snd ps) (length ps)).
Proof.
  unfold DOMAIN, as_pairs.
  rewrite (py_map_total _ (fun d => nth 0 d 0)), (py_map_total _ (fun d => nth 1 d 0)).
  - simpl. rewrite !map_map, length_map. reflexivity.
  - intros d Hd. apply in_map_iff in Hd. destruct Hd as (p & <- & _). reflexivity.
  - intros d Hd. apply in_map_iff in Hd. destruct Hd as (p & <- & _). reflexivity.
Qed.

Lemma domain_axis_raise start end_ divs i e :
  domain_axis start end_ divs i = Raise e -> e = IndexError.
Proof.
  unfold domain_axis. destruct (py_index divs i) as [d|e'] eqn:Hd; simpl;
    [|intros H; injection H as <-; eapply py_index_raise; eassumption].
  intros H. apply py_map_raise in H. destruct H as (_ & x & _ & _ & Hx & _).
  destruct (py_index end_ i) eqn:He; simpl in Hx;
    [|injection Hx as <-; eapply py_index_raise; eassumption].
  destruct (py_index start i) eqn:Hs; simpl in Hx;
    [|injection Hx as <-; eapply py_index_raise; eassumption].
  discriminate.
Qed.

(** C13: [DOMAIN]'s two exceptions.  An axis of [dims] that is not a
    pair [[s,e]] makes [DOMAIN(dims)] raise [ValueError] at once, before
    any division count is read; fewer division counts than axes make
    [DOMAIN1] raise [IndexError], and so does an empty [dims], at [INSR]
    of the empty grid. *)
Theorem DOMAIN_errors dims ps divs :
  (Exists (fun d => length d <> 2%nat) dims -> DOMAIN dims = Raise ValueError) /\
  ((length divs < length ps)%nat \/ ps = [] ->
   DOMAIN1 (map fst ps) (map snd ps) (length ps) divs = Raise IndexError).
Proof.
  split.
  - intros Hex. unfold DOMAIN.
    rewrite py_map_raise_only with (e0 := ValueError); [reflexivity| |].
    + intros d e. destruct (unpack_pair d) eqn:E; simpl; [discriminate|].
      intros H. injection H as <-. apply (unpack_pair_raise d), E.
    + eapply Exists_impl; [|exact Hex]. intros d Hd.
      destruct d as [|s [|t [|u d]]]; simpl in *; try reflexivity. lia.
  - intros [Hlt | ->]; [|reflexivity].
    unfold DOMAIN1. rewrite py_map_raise_only with (e0 := IndexError); [reflexivity| |].
    + apply domain_axis_raise.
    + apply Exists_exists. exists (length divs). split.
      * unfold py_range. rewrite Nat2Z.id. apply in_seq. lia.
      * unfold domain_axis. rewrite py_index_ge by lia. reflexivity.
Qed.

(** ** [DOMAIN] refines the product of uniform subdivisions *)

(** The list built by the comprehension of line 17 for one axis. *)
Definition steps (s e : Q) (d : Z) : list Q := repeat ((e - s) / inject_Z d) (Z.to_nat d).

(** Abstract specification of one axis: [[s, e]] cut into [d] equal
    cells when [s < e]; nothing otherwise. *)
Definition uniform (s e : Q) (d : Z) : complex :=
  if Qle_bool e s then []
  else let h := (e - s) / inject_Z d in
       map (fun k => [(s + inject_Z (Z.of_nat k) * h, s + inject_Z (Z.of_nat (S k)) * h)])
           (seq 0 (Z.to_nat d)).

(** The total product of a list of complexes. *)
Fixpoint prod_all (cs : list complex) : complex :=
  match cs with
  | [] => []
  | [c] => c
  | c :: cs' => cprod c (prod_all cs')
  end.

(** Abstract specification of [DOMAIN(dims)(divs)]: the product over the
    axes of the uniform subdivisions. *)
Definition domain_ref (ps : list (Q * Q)) (divs : list Z) : complex :=
  prod_all (map (fun x => uniform (fst (fst x)) (snd (fst x)) (snd x)) (combine ps divs)).

Lemma Qle_bool_pos h : 0 < h -> Qle_bool h 0 = false.
Proof.
  intros H. destruct (Qle_bool h 0) eqn:E; [|reflexivity].
  apply Qle_bool_iff in E. lra.
Qed.

Lemma quote_repeat_nonpos pos h n : h <= 0 -> quote_from pos (repeat h n) = [].
Proof.
  intros Hh. revert pos; induction n as [|n IH]; intros pos; [reflexivity|].
  simpl. replace (Qle_bool h 0) with true by (symmetry; apply Qle_bool_iff, Hh). apply IH.
Qed.

Lemma quote_repeat_pos pos h n :
  0 < h ->
  complex_eqv (quote_from pos (repeat h n))
    (map (fun k => [(pos + inject_Z (Z.of_nat k) * h, pos + inject_Z (Z.of_nat (S k)) * h)])
         (seq 0 n)).
Proof.
  intros Hh. assert (Habs : Qabs h == h) by (apply Qabs_pos; lra).
  revert pos; induction n as [|n IH]; intros pos; [constructor|].
  simpl repeat. cbn [quote_from]. rewrite Qle_bool_pos by exact Hh.
  cbn [seq map]. rewrite <- seq_shift, map_map. constructor.
  - constructor; [|constructor]. split; cbn [fst snd]; rewrite ?inject_Z_S, ?Habs;
      simpl; ring.
  - etransitivity; [apply IH|]. apply Forall2_map_map. intros k _.
    constructor; [|constructor]. split; cbn [fst snd]; rewrite !inject_Z_S, Habs; ring.
Qed.

(** One axis of [DOMAIN]: translating the [QUOTE] of the steps by [s]
    gives the uniform subdivision of [[s, e]]. *)
Lemma domain_axis_uniform s e d :
  complex_eqv (map (map (shift s)) (QUOTE (steps s e d))) (uniform s e d).
Proof.
  unfold steps, uniform, QUOTE.
  destruct (Z_lt_le_dec 0 d) as [Hd | Hd];
    [|replace (Z.to_nat d) with 0%nat by lia; destruct (Qle_bool e s); constructor].
  assert (Hdq : 0 < inject_Z d) by (change (inject_Z 0 < inject_Z d); rewrite <- Zlt_Qlt; exact Hd).
  destruct (Qle_bool e s) eqn:Hes.
  - apply Qle_bool_iff in Hes. rewrite quote_repeat_nonpos; [constructor|].
    apply Qle_shift_div_r; [exact Hdq | lra].
  - apply Qle_bool_false_lt in Hes.
    assert (Hh : 0 < (e - s) / inject_Z d) by (apply Qlt_shift_div_l; [exact Hdq | lra]).
    etransitivity; [apply map_shift_eqv, quote_repeat_pos, Hh|].
    rewrite map_map. apply Forall2_map_map. intros k _.
    constructor; [|constructor]. split; cbn [fst snd shift map]; ring.
Qed.

Lemma insr_prod_prod_all cs : cs <> [] -> insr_prod cs = Ok (prod_all cs).
Proof.
  induction cs as [|c cs IH]; intros Hne; [congruence|].
  destruct cs as [|c2 cs]; [reflexivity|].
  change (insr_prod (c :: c2 :: cs)) with (r <- insr_prod (c2 :: cs) ;; Ok (cprod c r)).
  rewrite IH by discriminate. reflexivity.
Qed.

Lemma domain_axis_0 p ps d divs :
  domain_axis (map fst (p :: ps)) (map snd (p :: ps)) (d :: divs) 0 = Ok (steps (fst p) (snd p) d).
Proof.
  unfold domain_axis. cbn [py_index nth_error map res_bind].
  rewrite (py_map_total _ (fun _ => (snd p - fst p) / inject_Z d)) by reflexivity.
  unfold steps. rewrite map_const, length_py_range. reflexivity.
Qed.

Abbreviation axis_steps := (fun x : (Q * Q) * Z => steps (fst (fst x)) (snd (fst x)) (snd x)).
Abbreviation axis_uniform := (fun x : (Q * Q) * Z => uniform (fst (fst x)) (snd (fst x)) (snd x)).

(** The loop of lines 16-17 builds, axis by axis, the steps of that axis. *)
Lemma domain_grid ps divs :
  (length ps <= length divs)%nat ->
  py_map (domain_axis (map fst ps) (map snd ps) divs) (seq 0 (length ps))
  = Ok (map axis_steps (combine ps divs)).
Proof.
  revert divs; induction ps as [|p ps IH]; intros [|d divs] Hlen; simpl in Hlen;
    try reflexivity; try lia.
  simpl length. cbn [seq py_map]. rewrite domain_axis_0, py_map_shift.
  change (py_map (fun i => domain_axis (map fst (p :: ps)) (map snd (p :: ps)) (d :: divs) (S i))
            (seq 0 (length ps)))
    with (py_map (domain_axis (map fst ps) (map snd ps) divs) (seq 0 (length ps))).
  rewrite IH by lia. reflexivity.
Qed.

Lemma map_fst_combine {A B} (l1 : list A) (l2 : list B) :
  (length l1 <= length l2)%nat -> map fst (combine l1 l2) = l1.
Proof.
  revert l2; induction l1 as [|x l1 IH]; intros [|y l2] H; simpl in *; try reflexivity; try lia.
  rewrite IH by lia. reflexivity.
Qed.

Lemma tcell_QUOTE v l : map (tcell [v]) (QUOTE l) = map (map (shift v)) (QUOTE l).
Proof.
  apply map_ext_in. intros c Hc. pose proof (QUOTE_one_dim l) as H.
  rewrite Forall_forall in H. destruct (H c Hc) as [iv ->]. reflexivity.
Qed.

(** Translation commutes with the product, axis by axis. *)
Lemma tcell_prod_all pds :
  complex_eqv (map (tcell (map (fun x => fst (fst x)) pds)) (prod_all (map QUOTE (map axis_steps pds))))
              (prod_all (map axis_uniform pds)).
Proof.
  induction pds as [|x pds IH]; [constructor|].
  destruct pds as [|y pds].
  - cbn [map prod_all]. rewrite tcell_QUOTE. apply domain_axis_uniform.
  - change (prod_all (map QUOTE (map axis_steps (x :: y :: pds))))
      with (cprod (QUOTE (axis_steps x)) (prod_all (map QUOTE (map axis_steps (y :: pds))))).
    change (prod_all (map axis_uniform (x :: y :: pds)))
      with (cprod (axis_uniform x) (prod_all (map axis_uniform (y :: pds)))).
    cbn [map]. rewrite tcell_cprod by apply QUOTE_one_dim.
    apply cprod_proper; [apply domain_axis_uniform | exact IH].
Qed.

Lemma DOMAIN1_eqv ps divs :
  ps <> [] -> (length ps <= length divs)%nat ->
  exists cx, DOMAIN1 (map fst ps) (map snd ps) (length ps) divs = Ok cx /\
             complex_eqv cx (domain_ref ps divs).
Proof.
  intros Hne Hlen. eexists. split.
  - unfold DOMAIN1. rewrite py_range_of_nat, domain_grid by exact Hlen.
    cbn [res_bind]. unfold GRID. rewrite insr_prod_prod_all; [reflexivity|].
    destruct ps; [congruence|]. destruct divs; simpl in *; [lia | discriminate].
  - rewrite <- (length_map fst ps) at 1. rewrite T_seq.
    replace (map fst ps) with (map (fun x => fst (fst x)) (combine ps divs))
      by (rewrite <- map_map, map_fst_combine by exact Hlen; reflexivity).
    apply tcell_prod_all.
Qed.

(** C1: Refinement: [DOMAIN(dims)(divs)] on pairs [[s_i, e_i]], with a
    division count for every axis, returns the product over the axes of
    the uniform subdivision of [[s_i, e_i]] into [divs[i]] cells (up to
    equality of the rational endpoints). *)
Theorem DOMAIN_refines ps divs :
  ps <> [] -> (length ps <= length divs)%nat ->
  exists f cx, DOMAIN (as_pairs ps) = Ok f /\ f divs = Ok cx /\
               complex_eqv cx (domain_ref ps divs).
Proof.
  intros Hne Hlen. destruct (DOMAIN1_eqv ps divs Hne Hlen) as (cx & Hcx & Heqv).
  exists (DOMAIN1 (map fst ps) (map snd ps) (length ps)), cx.
  split; [apply DOMAIN_pairs | split; assumption].
Qed.

Lemma cprod_nil_r a : cprod a [] = [].
Proof. induction a as [|ca a IH]; [reflexivity|]. rewrite cprod_cons, IH. reflexivity. Qed.

Lemma prod_all_empty cs : Exists (fun c => c = []) cs -> prod_all cs = [].
Proof.
  induction 1 as [c cs -> | c cs Hex IH].
  - destruct cs; [reflexivity|]. apply cprod_nil_l.
  - destruct cs as [|c2 cs]; [inversion Hex|].
    change (prod_all (c :: c2 :: cs)) with (cprod c (prod_all (c2 :: cs))).
    rewrite IH. apply cprod_nil_r.
Qed.

Lemma uniform_empty s e d : Qle_bool e s = true \/ (d <= 0)%Z -> uniform s e d = [].
Proof.
  unfold uniform. intros [-> | Hd]; [reflexivity|].
  destruct (Qle_bool e s); [reflexivity|]. replace (Z.to_nat d) with 0%nat by lia. reflexivity.
Qed.

(** C14: No [InvalidDomainSpec]: an axis with a non-positive division count,
    or whose end is not after its start, makes [DOMAIN] return the
    empty domain, without an exception. *)
Theorem DOMAIN_empty ps divs :
  ps <> [] -> (length ps <= length divs)%nat ->
  Exists (fun x => Qle_bool (snd (fst x)) (fst (fst x)) = true \/ (snd x <= 0)%Z)
         (combine ps divs) ->
  exists f, DOMAIN (as_pairs ps) = Ok f /\ f divs = Ok [].
Proof.
  intros Hne Hlen Hex.
  destruct (DOMAIN1_eqv ps divs Hne Hlen) as (cx & Hcx & Heqv).
  eexists. split; [apply DOMAIN_pairs|]. rewrite Hcx. f_equal.
  unfold domain_ref in Heqv. rewrite prod_all_empty in Heqv; [inversion Heqv; reflexivity|].
  apply Exists_map. eapply Exists_impl; [|exact Hex]. intros x Hx. apply uniform_empty, Hx.
Qed.

(** ** Concrete runs on the building data *)

Local Open Scope Q_scope.

(** The spec's example: the signed list [[2,-1,2]] gives two solid
    cells, [[0,2]] and [[3,5]]; the hollow step is a gap, not a cell. *)
Example QUOTE_spec_example : QUOTE [2; -1; 2] = [[(0, 2)]; [(3, 5)]].
Proof. reflexivity. Qed.


(** [north0], line 35. *)
Definition north0_seqs : list (list Q) := [[-17.5; 0.4]; [0.4; -8; 1.4; -0.45; 0.4]; [-4; 12.7]].

Lemma GRID_cells_witness :
  In [(17.5, 17.9); (0, 0.4); (4, 16.7)]
     (match GRID north0_seqs with Ok cx => cx | Raise _ => [] end) <->
  Forall2 (fun iv q => In [iv] (QUOTE q)) [(17.5, 17.9); (0, 0.4); (4, 16.7)] north0_seqs.
Proof. apply GRID_cells. vm_compute. reflexivity. Defined.

Lemma GRID_total_witness : exists cx, GRID north0_seqs = Ok cx /\ length cx = 3%nat.
Proof.
  destruct (proj2 (GRID_total north0_seqs) ltac:(discriminate)) as (cx & Hcx & Hlen).
  exists cx. split; [exact Hcx | rewrite Hlen; reflexivity].
Defined.

(** [floor00], line 94: [DOMAIN([[2.7,15.1],[6.5,9.85]])([1,1])]. *)
Definition floor00_dims : list (Q * Q) := [(2.7, 15.1); (6.5, 9.85)].

Lemma DOMAIN_refines_witness :
  exists f cx, DOMAIN (as_pairs floor00_dims) = Ok f /\ f [1%Z; 1%Z] = Ok cx /\
               complex_eqv cx (domain_ref floor00_dims [1%Z; 1%Z]).
Proof. apply DOMAIN_refines; [discriminate | simpl; lia]. Defined.

(** The spec's list [[2,-1,2]] handed to [DOMAIN] is not a pair; [floor00]'s
    two axes with one division count. *)
Lemma DOMAIN_errors_witness :
  DOMAIN [[2; -1; 2]] = Raise ValueError /\
  DOMAIN1 (map fst floor00_dims) (map snd floor00_dims) 2 [1%Z] = Raise IndexError.
Proof.
  destruct (DOMAIN_errors [[2; -1; 2]] floor00_dims [1%Z]) as [Hv Hi]. split.
  - apply Hv. constructor. simpl. lia.
  - apply Hi. left. simpl. lia.
Defined.

Lemma DOMAIN_empty_witness :
  exists f, DOMAIN (as_pairs floor00_dims) = Ok f /\ f [1%Z; 0%Z] = Ok [].
Proof.
  apply DOMAIN_empty; [discriminate | simpl; lia |].
  constructor 2. constructor 1. right. simpl. lia.
Defined.

Local Close Scope Q_scope.



(** C28: the domain has the dimension of [dims]: every cell of
    [DOMAIN(dims)(divs)] has one interval per axis of [dims], whatever
    the division counts, whenever both calls return. *)
Theorem DOMAIN_dims dims divs f cx :
  DOMAIN dims = Ok f -> f divs = Ok cx -> Forall (fun c => length c = length dims) cx.
Proof.
  unfold DOMAIN. intros Hd Hf. py_inv Hd. py_inv Hd. injection Hd as <-.
  unfold DOMAIN1 in Hf. py_inv Hf. py_inv Hf. injection Hf as <-.
  assert (Hlen : length a1 = length dims)
    by (rewrite (py_map_length _ _ _ Ha1), length_py_range; lia).
  assert (Hdim : Forall one_dim (map QUOTE a1)).
  { apply Forall_map, Forall_forall. intros q _. apply QUOTE_one_dim. }
  apply Forall_forall. intros c Hc.
  destruct (Forall2_In_r _ _ _ _ (T_length (seq 1 (length dims)) a a2) Hc) as (c0 & Hc0 & ->).
  apply (insr_prod_cells _ _ Hdim Ha2) in Hc0. apply Forall2_length in Hc0.
  rewrite Hc0, length_map. exact Hlen.
Qed.

Lemma DOMAIN_dims_witness :
  exists cx, DOMAIN1 (map fst floor00_dims) (map snd floor00_dims) 2 [1; 1]%Z = Ok cx /\
             Forall (fun c => length c = length (as_pairs floor00_dims)) cx.
Proof.
  eexists. split; [reflexivity|].
  apply (DOMAIN_dims (as_pairs floor00_dims) [1; 1]%Z
           (DOMAIN1 (map fst floor00_dims) (map snd floor00_dims) 2)); reflexivity.
Defined.
