(* ===== verification/Domain2D.v ===== *)
(** * Domain2D: [DOMAIN2D] and [DOMAIN2DI] of src/2013-05-10/python/exercise3.py

    Both take a pair of one-dimensional domains (by default two
    [INTERVALS(1)(32)]), form their product with [PROD], read it back as
    [[points, cells]] with pyplasm's [UKPOL], and rebuild it with
    [MKPOL] after splitting every quad [x] into two triangles:
    [DOMAIN2D] emits [[x[3],x[1],x[0]]] and [[x[2],x[1],x[3]]],
    [DOMAIN2DI] emits [[x[0],x[1],x[3]]] and [[x[3],x[1],x[2]]].

    How [UKPOL] numbers the vertices is pyplasm's business, so the
    definitions are stated against the interface [Ukpol] (and its laws
    [UkpolLaws]: 1-based indices into the point list, four vertices per
    cell of a product of two segments, every point a corner of a cell).
    An instance that lists the four corners of every box makes the
    definitions run on concrete inputs.

    Theorems: [DOMAIN2DI] is [DOMAIN2D] with every triangle reversed,
    exceptions included; hence the same vertices and opposite signed
    areas; on two one-dimensional domains [DOMAIN2D] returns two
    triangles per quad, every triangle index names a vertex of the point
    list and every vertex is a corner of the product; and the exceptions
    raised. *)

From Stdlib Require Import List ZArith QArith Lia Lqa.
From S2P Require Import Prelude Kernel.
Import ListNotations.
Local Open Scope nat_scope.

(** ** The interface to pyplasm's [UKPOL] and [MKPOL] *)

Class Ukpol := {
  UKPOL : complex -> list (list Q) * list (list nat)
}.

(** A vertex index is valid when it names a point (1-based). *)
Definition valid_index (npts k : nat) : bool := (1 <=? k) && (k <=? npts).

Class UkpolLaws `{Ukpol} := {
  ukpol_indices : forall cx,
    forallb (forallb (valid_index (length (fst (UKPOL cx))))) (snd (UKPOL cx)) = true;
  ukpol_quads : forall a b, one_dim a -> one_dim b ->
    Forall (fun c => length c = 4) (snd (UKPOL (cprod a b)));
  ukpol_corners : forall a b p, one_dim a -> one_dim b -> In p (fst (UKPOL (cprod a b))) ->
    exists c, In c (cprod a b) /\ Forall2 (fun iv x => x == fst iv \/ x == snd iv)%Q c p
}.

(** [MKPOL([points, cells, None])]: a polyhedral complex given by its
    vertices and its cells of 1-based vertex indices. *)
Record mkpol := MKPOL { mk_points : list (list Q); mk_cells : list (list nat) }.

(** ** The model *)

Section Domain2D.
Context `{Ukpol}.

(** [lambda x: [[x[3],x[1],x[0]],[x[2],x[1],x[3]]]] *)
Definition quad_tris (x : list nat) : res (list (list nat)) :=
  x3 <- py_index x 3 ;; x1 <- py_index x 1 ;; x0 <- py_index x 0 ;;
  x2 <- py_index x 2 ;; x1' <- py_index x 1 ;; x3' <- py_index x 3 ;;
  Ok [[x3; x1; x0]; [x2; x1'; x3']].

(** [lambda x: [[x[0],x[1],x[3]],[x[3],x[1],x[2]]]] *)
Definition quad_tris_inv (x : list nat) : res (list (list nat)) :=
  x0 <- py_index x 0 ;; x1 <- py_index x 1 ;; x3 <- py_index x 3 ;;
  x3' <- py_index x 3 ;; x1' <- py_index x 1 ;; x2 <- py_index x 2 ;;
  Ok [[x0; x1; x3]; [x3'; x1'; x2]].

(** [DOMAIN2D(domains1D)]. *)
Definition DOMAIN2D (domains1D : list complex) : res mkpol :=
  d0 <- py_index domains1D 0 ;; d1 <- py_index domains1D 1 ;;
  let complex := UKPOL (cprod d0 d1) in
  let points := fst complex in
  cells <- py_map quad_tris (snd complex) ;;
  Ok (MKPOL points (concat cells)).

(** [DOMAIN2DI(domains1D)]. *)
Definition DOMAIN2DI (domains1D : list complex) : res mkpol :=
  d0 <- py_index domains1D 0 ;; d1 <- py_index domains1D 1 ;;
  let complex := UKPOL (cprod d0 d1) in
  let points := fst complex in
  cells <- py_map quad_tris_inv (snd complex) ;;
  Ok (MKPOL points (concat cells)).

(** The default argument [[INTERVALS(1)(32),INTERVALS(1)(32)]]. *)
Definition default_domains : list complex := [INTERVALS 1 32; INTERVALS 1 32].

(** Every triangle reversed: the winding [DOMAIN2DI] is meant to have. *)
Definition flip (m : mkpol) : mkpol := MKPOL (mk_points m) (map (@rev nat) (mk_cells m)).

Definition res_map {A B} (f : A -> B) (m : res A) : res B :=
  match m with Ok a => Ok (f a) | Raise e => Raise e end.

Lemma quad_tris_eq x :
  quad_tris x = match x with
                | a :: b :: c :: d :: _ => Ok [[d; b; a]; [c; b; d]]
                | _ => Raise IndexError
                end.
Proof. destruct x as [|a [|b [|c [|d x]]]]; reflexivity. Qed.

Lemma quad_tris_inv_rev x :
  quad_tris_inv x = res_map (map (@rev nat)) (quad_tris x).
Proof.
  unfold quad_tris, quad_tris_inv, py_index.
  destruct x as [|a [|b [|c [|d x]]]]; reflexivity.
Qed.

Lemma py_map_res_map {A B C} (f : A -> res B) (g : A -> res C) (h : B -> C) l :
  (forall x, g x = res_map h (f x)) -> py_map g l = res_map (map h) (py_map f l).
Proof.
  intros Hg. induction l as [|x l IH]; [reflexivity|]. simpl. rewrite Hg, IH.
  destruct (f x); [|reflexivity]. simpl. destruct (py_map f l); reflexivity.
Qed.

Lemma concat_map_rev (ls : list (list (list nat))) :
  concat (map (map (@rev nat)) ls) = map (@rev nat) (concat ls).
Proof. rewrite concat_map. reflexivity. Qed.

(** [DOMAIN2DI] is [DOMAIN2D] with every triangle's vertex order
    reversed, on every input, exceptions included. *)
Lemma DOMAIN2DI_rev_cells ds : DOMAIN2DI ds = res_map flip (DOMAIN2D ds).
Proof.
  unfold DOMAIN2DI, DOMAIN2D.
  destruct (py_index ds 0) as [d0|e]; [|reflexivity]. simpl.
  destruct (py_index ds 1) as [d1|e]; [|reflexivity]. simpl.
  rewrite (py_map_res_map quad_tris quad_tris_inv (map (@rev nat))) by apply quad_tris_inv_rev.
  destruct (py_map quad_tris _); [|reflexivity]. simpl.
  unfold flip. simpl. rewrite concat_map_rev. reflexivity.
Qed.

(** ** Orientation *)

Definition vertex (pts : list (list Q)) (k : nat) : list Q := nth (k - 1) pts [].

(** Twice the signed area of a triangle given by three vertex indices. *)
Definition signed_area2 (pts : list (list Q)) (t : list nat) : Q :=
  match t with
  | [i; j; k] =>
      let p := vertex pts i in let q := vertex pts j in let r := vertex pts k in
      ((nth 0 q 0 - nth 0 p 0) * (nth 1 r 0 - nth 1 p 0) -
       (nth 1 q 0 - nth 1 p 0) * (nth 0 r 0 - nth 0 p 0))%Q
  | _ => 0%Q
  end.

Lemma signed_area2_rev pts t :
  length t = 3 -> (signed_area2 pts (rev t) == - signed_area2 pts t)%Q.
Proof.
  destruct t as [|i [|j [|k [|l t]]]]; simpl; intros Hl; try discriminate. ring.
Qed.

Lemma DOMAIN2D_triangles ds m :
  DOMAIN2D ds = Ok m ->
  exists quads, snd (UKPOL (cprod (nth 0 ds []) (nth 1 ds []))) = quads /\
    mk_points m = fst (UKPOL (cprod (nth 0 ds []) (nth 1 ds []))) /\
    Forall (fun x => 4 <= length x) quads /\
    mk_cells m = concat (map (fun x => [[nth 3 x 0; nth 1 x 0; nth 0 x 0];
                                       [nth 2 x 0; nth 1 x 0; nth 3 x 0]]) quads).
Proof.
  unfold DOMAIN2D. intros Hm.
  py_inv Hm. py_inv Hm. apply py_index_ok in Ha, Ha0.
  rewrite (nth_error_nth _ _ _ Ha), (nth_error_nth _ _ _ Ha0).
  py_inv Hm. injection Hm as <-. eexists. split; [reflexivity|]. split; [reflexivity|].
  apply py_map_ok_Forall2 in Ha1. simpl. clear Ha Ha0.
  induction Ha1 as [|x ts quads tss Hx _ [IHlen IHeq]]; [split; [constructor | reflexivity]|].
  rewrite quad_tris_eq in Hx. destruct x as [|x0 [|x1 [|x2 [|x3 x]]]]; try discriminate.
  injection Hx as <-. split; [constructor; [simpl; lia | exact IHlen]|].
  simpl. rewrite IHeq. reflexivity.
Qed.

Lemma DOMAIN2D_cells_triangles ds m :
  DOMAIN2D ds = Ok m -> Forall (fun t => length t = 3) (mk_cells m).
Proof.
  intros (quads & _ & _ & _ & ->)%DOMAIN2D_triangles.
  apply Forall_concat, Forall_map, Forall_forall. intros x _. repeat constructor.
Qed.

(** C5: Same vertices, opposite winding: [DOMAIN2DI] returns the points of
    [DOMAIN2D] and, triangle for triangle, the opposite signed area. *)
Theorem DOMAIN2DI_opposite ds m :
  DOMAIN2D ds = Ok m ->
  exists m', DOMAIN2DI ds = Ok m' /\ mk_points m' = mk_points m /\
    Forall2 (fun t t' => signed_area2 (mk_points m) t' == - signed_area2 (mk_points m) t)%Q
            (mk_cells m) (mk_cells m').
Proof.
  intros Hm. exists (flip m). rewrite DOMAIN2DI_rev_cells, Hm.
  split; [reflexivity|]. split; [reflexivity|].
  apply Forall2_map_r, Forall2_diag. eapply Forall_impl; [|exact (DOMAIN2D_cells_triangles _ _ Hm)].
  intros t Ht. apply signed_area2_rev, Ht.
Qed.

Section Laws.
Context `{!UkpolLaws}.

(** Every vertex index of every triangle names a point of the result. *)
Lemma DOMAIN2D_valid ds m :
  DOMAIN2D ds = Ok m ->
  forallb (forallb (valid_index (length (mk_points m)))) (mk_cells m) = true.
Proof.
  intros Hm. destruct (DOMAIN2D_triangles ds m Hm) as (quads & Hq & Hpts & Hlen & Hcells).
  pose proof (ukpol_indices (cprod (nth 0 ds []) (nth 1 ds []))) as Hidx.
  rewrite Hq, <- Hpts in Hidx. rewrite Hcells.
  apply forallb_forall. intros t Ht. apply in_concat in Ht. destruct Ht as (ts & Hts & Ht).
  apply in_map_iff in Hts. destruct Hts as (x & <- & Hx).
  rewrite forallb_forall in Hidx. specialize (Hidx x Hx). rewrite forallb_forall in Hidx.
  rewrite Forall_forall in Hlen. specialize (Hlen x Hx).
  apply forallb_forall. intros k Hk.
  destruct Ht as [<- | [<- | []]]; simpl in Hk;
    repeat destruct Hk as [<- | Hk]; try contradiction; apply Hidx, nth_In; lia.
Qed.

(** On two one-dimensional domains [DOMAIN2D] returns, with two
    triangles per quad of the product. *)
Lemma DOMAIN2D_count d0 d1 rest :
  one_dim d0 -> one_dim d1 ->
  exists m, DOMAIN2D (d0 :: d1 :: rest) = Ok m /\
    length (mk_cells m) = 2 * length (snd (UKPOL (cprod d0 d1))).
Proof.
  intros Hd0 Hd1. pose proof (ukpol_quads d0 d1 Hd0 Hd1) as Hq.
  unfold DOMAIN2D. cbn [py_index nth_error res_bind].
  rewrite (py_map_total _ (fun x => [[nth 3 x 0; nth 1 x 0; nth 0 x 0];
                                     [nth 2 x 0; nth 1 x 0; nth 3 x 0]])).
  - eexists. split; [reflexivity|]. simpl. rewrite length_concat_const with (k := 2).
    + rewrite length_map. reflexivity.
    + apply Forall_map, Forall_forall. intros x _. reflexivity.
  - intros x Hx. rewrite Forall_forall in Hq. specialize (Hq x Hx).
    rewrite quad_tris_eq. destruct x as [|x0 [|x1 [|x2 [|x3 [|x4 x]]]]]; simpl in Hq;
      try discriminate; reflexivity.
Qed.
(** C9: on two one-dimensional domains [DOMAIN2D] returns, with two
    triangles per quad of the product, and every vertex index of every
    triangle names a point of its vertex list. *)
Theorem DOMAIN2D_output d0 d1 rest :
  one_dim d0 -> one_dim d1 ->
  exists m, DOMAIN2D (d0 :: d1 :: rest) = Ok m /\
    length (mk_cells m) = 2 * length (snd (UKPOL (cprod d0 d1))) /\
    forallb (forallb (valid_index (length (mk_points m)))) (mk_cells m) = true.
Proof.
  intros Hd0 Hd1. destruct (DOMAIN2D_count d0 d1 rest Hd0 Hd1) as (m & Hm & Hlen).
  exists m. split; [exact Hm|]. split; [exact Hlen | exact (DOMAIN2D_valid _ m Hm)].
Qed.

(** The vertices of [DOMAIN2D]'s triangles are corners of the cells of
    the product of its two domains. *)
Lemma DOMAIN2D_corners d0 d1 rest m p :
  one_dim d0 -> one_dim d1 -> DOMAIN2D (d0 :: d1 :: rest) = Ok m -> In p (mk_points m) ->
  exists c, In c (cprod d0 d1) /\ Forall2 (fun iv x => x == fst iv \/ x == snd iv)%Q c p.
Proof.
  intros Hd0 Hd1 Hm Hp. destruct (DOMAIN2D_triangles _ m Hm) as (quads & _ & Hpts & _ & _).
  rewrite Hpts in Hp. exact (ukpol_corners d0 d1 p Hd0 Hd1 Hp).
Qed.
End Laws.
End Domain2D.

(** ** The exceptions *)

Lemma quad_tris_raise x e : quad_tris x = Raise e -> e = IndexError.
Proof. rewrite quad_tris_eq. destruct x as [|a [|b [|c [|d x]]]]; congruence. Qed.

Lemma quad_tris_short x : length x < 4 -> is_ok (quad_tris x) = false.
Proof. rewrite quad_tris_eq. destruct x as [|a [|b [|c [|d x]]]]; simpl; try reflexivity; lia. Qed.

(** C10: [DOMAIN2D] raises only [IndexError]: with fewer than two domains,
    or when [UKPOL] gives a cell of fewer than four vertices. *)
Theorem DOMAIN2D_error `{Ukpol} ds e :
  DOMAIN2D ds = Raise e <->
  e = IndexError /\
  (length ds < 2 \/
   Exists (fun x => length x < 4) (snd (UKPOL (cprod (nth 0 ds []) (nth 1 ds []))))).
Proof.
  unfold DOMAIN2D.
  destruct ds as [|d0 [|d1 ds]]; cbn [py_index nth_error res_bind length nth];
    [split; [intros Hr; injection Hr as <-; split; [reflexivity | left; lia] | intros [-> _]; reflexivity]..|].
  destruct (py_map quad_tris (snd (UKPOL (cprod d0 d1)))) as [ts|e'] eqn:Hm; simpl; split.
  - discriminate.
  - intros [-> [Hl | Hex]]; [lia|].
    rewrite py_map_raise_only with (e0 := IndexError) in Hm; [discriminate | apply quad_tris_raise |].
    eapply Exists_impl; [|exact Hex]. apply quad_tris_short.
  - intros Hr. injection Hr as <-. apply py_map_raise in Hm.
    destruct Hm as (l1 & x & l2 & Heq & Hx & _). split; [apply (quad_tris_raise x), Hx|].
    right. rewrite Heq. apply Exists_app. right. constructor.
    rewrite quad_tris_eq in Hx. destruct x as [|a [|b [|c [|d x]]]]; simpl; try lia; discriminate.
  - intros [-> [Hl | Hex]]; [lia|].
    rewrite py_map_raise_only with (e0 := IndexError) in Hm; [congruence | apply quad_tris_raise |].
    eapply Exists_impl; [|exact Hex]. apply quad_tris_short.
Qed.

(** ** A concrete numbering: the four corners of every box

    Each cell [[(x0,x1);(y0,y1)]] contributes its corners in cyclic
    order [(x0,y0)], [(x1,y0)], [(x1,y1)], [(x0,y1)], numbered from the
    next free index.  It satisfies [UkpolLaws], and makes [DOMAIN2D]
    compute on concrete domains. *)

Definition corners (c : cell) : list (list Q) :=
  let x := nth 0 c (0, 0)%Q in
  let y := nth 1 c (0, 0)%Q in
  [[fst x; fst y]; [snd x; fst y]; [snd x; snd y]; [fst x; snd y]].

Definition ukpol_boxes (cx : complex) : list (list Q) * list (list nat) :=
  (flat_map corners cx, map (fun k => [4 * k + 1; 4 * k + 2; 4 * k + 3; 4 * k + 4]) (seq 0 (length cx))).

#[export] Instance Ukpol_boxes : Ukpol := { UKPOL := ukpol_boxes }.

Lemma length_flat_map_corners cx : length (flat_map corners cx) = 4 * length cx.
Proof.
  rewrite flat_map_concat_map, (length_concat_const 4), length_map; [reflexivity|].
  apply Forall_map, Forall_forall. intros c _. reflexivity.
Qed.

#[export] Instance UkpolLaws_boxes : UkpolLaws.
Proof.
  constructor.
  - intros cx. simpl. rewrite length_flat_map_corners. apply forallb_forall.
    intros x Hx. apply in_map_iff in Hx. destruct Hx as (k & <- & Hk). apply in_seq in Hk.
    simpl. unfold valid_index.
    repeat (apply andb_true_intro; split); try reflexivity; apply Nat.leb_le; lia.
  - intros a b _ _. simpl. apply Forall_map, Forall_forall. intros k _. reflexivity.
  - intros a b p Ha Hb Hp. simpl in Hp. apply in_flat_map in Hp as (c & Hc & Hp). exists c.
    split; [exact Hc|]. apply In_cprod in Hc as (ca & cb & -> & Hca & Hcb).
    destruct (proj1 (Forall_forall _ _) Ha ca Hca) as (ia & ->).
    destruct (proj1 (Forall_forall _ _) Hb cb Hcb) as (ib & ->).
    simpl in Hp. repeat destruct Hp as [<- | Hp]; try contradiction;
      repeat constructor; simpl; (left; reflexivity) || (right; reflexivity).
Qed.

(** A two-by-two domain, the shape of [DOMAIN2D([INTERVALS(1)(2),INTERVALS(1)(2)])]. *)
Definition small_domains : list complex := [INTERVALS 1 2; INTERVALS 1 2].

Definition small_mesh : mkpol :=
  match DOMAIN2D small_domains with Ok m => m | Raise _ => MKPOL [] [] end.

Example DOMAIN2D_small :
  DOMAIN2D small_domains = Ok small_mesh /\ length (mk_cells small_mesh) = 8.
Proof. vm_compute. split; reflexivity. Qed.

Lemma DOMAIN2DI_opposite_witness :
  exists m', DOMAIN2DI small_domains = Ok m' /\ mk_points m' = mk_points small_mesh /\
    Forall2 (fun t t' => signed_area2 (mk_points small_mesh) t' ==
                         - signed_area2 (mk_points small_mesh) t)%Q
            (mk_cells small_mesh) (mk_cells m').
Proof. apply DOMAIN2DI_opposite. vm_compute. reflexivity. Defined.

Lemma DOMAIN2D_output_witness :
  exists m, DOMAIN2D default_domains = Ok m /\
    length (mk_cells m) = 2 * length (snd (UKPOL (cprod (INTERVALS 1 32) (INTERVALS 1 32)))) /\
    forallb (forallb (valid_index (length (mk_points m)))) (mk_cells m) = true.
Proof. apply DOMAIN2D_output; apply QUOTE_one_dim. Defined.
