(* ===== verification/Scene.v ===== *)
(** * Scene: pyplasm scene trees and [STRUCT]

    A pyplasm shape is modelled as a tree [hpc]: box complexes (what
    [GRID], [DOMAIN] and [CUBOID] build), meshes ([MKPOL]: real points
    and cells of 1-based vertex indices), curves given by their control
    points (polylines, Bezier curves, cubic B-splines), [MAP(f)(shape)]
    (a mapping of points, which may raise, and the shape it maps), the
    primitives the scripts only call ([CYLINDER], [EXTRUDE], ...) as
    opaque leaves, aggregates, and the affine operators
    [T], [R], [S] applied to a shape.  Angles of [R] are rationals
    counted in half turns: the scripts only rotate by multiples of [PI].

    [STRUCT(items)] follows pyplasm's rule: its items are shapes or
    transformations, and a transformation applies to the aggregate of
    every item after it.

    [boxes] flattens a scene made of box complexes, translations and
    aggregates into the boxes it occupies, which the facade and pillar
    data are checked against. *)

From Stdlib Require Import List ZArith QArith Qminmax Reals String Lia.
From S2P Require Import Prelude Kernel.
Import ListNotations.

Scheme All for list.

(** The curves of the car drawings: [POLYLINE(points)],
    [MAP(BEZIER(S1)(ctrl))(domain1D)] and
    [SPLINE(CUBICUBSPLINE(domain1D))(ctrl)], by their control points. *)
Inductive curve_kind : Type := POLYLINE | BEZIER | CUBICUBSPLINE.

Inductive hpc : Type :=
| Cells (cx : complex)
| Mesh (points : list (list R)) (cells : list (list nat))
| Prim (name : string) (params : list Q)
| Curve (kind : curve_kind) (ctrl : list (list Q))
| Map (f : list R -> res (list R)) (dom : hpc)
| Struct (items : list hpc)
| Trans (axes : list nat) (vals : list Q) (h : hpc)
| Rot (i j : nat) (angle : Q) (h : hpc)
| Scale (axes : list nat) (vals : list Q) (h : hpc).

(** The items of a [STRUCT] list: a shape, or a transformation such as
    [T([1])([4.375])] waiting for its argument. *)
Inductive item : Type :=
| Obj (h : hpc)
| Fn (f : hpc -> hpc).

(** [T(axes)(vals)], [R([i,j])(angle)], [S(axes)(vals)] as functions. *)
Definition T_ (axes : list nat) (vals : list Q) : hpc -> hpc := Trans axes vals.
Definition R_ (axes : list nat) (angle : Q) : hpc -> hpc := Rot (nth 0 axes 0%nat) (nth 1 axes 0%nat) angle.
Definition S_ (axes : list nat) (vals : list Q) : hpc -> hpc := Scale axes vals.

(** pyplasm's [STRUCT]: shapes are collected, a transformation takes
    the aggregate of the rest of the list. *)
Fixpoint struct_items (l : list item) : list hpc :=
  match l with
  | [] => []
  | Obj h :: r => h :: struct_items r
  | Fn f :: r => [f (Struct (struct_items r))]
  end.

Definition STRUCT (l : list item) : hpc := Struct (struct_items l).

(** pyplasm's [STRUCT] raises [Exception("STRUCT must be applied to a not
    empty list")] on an empty list.  The scripts write their [STRUCT]s
    as non-empty literals, for which [STRUCT] above is the result; a list
    computed at run time, as in [DUPLIROT], goes through [STRUCT_list]. *)
Definition STRUCT_list (l : list item) : res hpc :=
  match l with
  | [] => Raise PlasmError
  | _ => Ok (STRUCT l)
  end.

(** [CUBOID(sizes)]: the unit cube scaled by [sizes], the box between
    the origin and the point [sizes] (a negative size extends it below
    the origin). *)
Definition CUBOID (sizes : list Q) : hpc := Cells [map (fun a => (Qmin 0 a, Qmax 0 a)%Q) sizes].

(** [MKPOL([points, cells, None])]: the polyhedral complex whose cells
    are the convex hulls of the points they index (1-based). *)
Definition MKPOL_ (points : list (list R)) (cells : list (list nat)) : hpc := Mesh points cells.

(** [MAP(f)(shape)]: the images by [f] of the points of the shape. *)
Definition MAP (f : list R -> res (list R)) (dom : hpc) : hpc := Map f dom.

(** [COLOR(rgb)(shape)]: the shape painted; the colour is not part of
    the geometry. *)
Definition COLOR (rgb : list Q) (h : hpc) : hpc := h.

(** ** Boxes occupied by a box scene *)

Fixpoint boxes (h : hpc) : complex :=
  match h with
  | Cells cx => cx
  | Struct items => flat_map boxes items
  | Trans axes vals h' => T axes vals (boxes h')
  | _ => []
  end.

(** Whether a scene is made only of boxes, translations and aggregates,
    so that [boxes] is all of it. *)
Fixpoint box_scene (h : hpc) : bool :=
  match h with
  | Cells _ => true
  | Struct items => forallb box_scene items
  | Trans _ _ h' => box_scene h'
  | _ => false
  end.

Lemma struct_items_objs hs : struct_items (map Obj hs) = hs.
Proof. induction hs as [|h hs IH]; simpl; [reflexivity | rewrite IH; reflexivity]. Qed.
