(* ===== verification/Geometry.v ===== *)
(** * Geometry: the point sets of scenes, and what [DUPLIROT] builds

    A scene [hpc] denotes a set of points of R^n ([mem]): a box complex
    its boxes, an aggregate the union of its items, [T], [R] and [S]
    the image of their argument, an [MKPOL] the union of its cells, each
    the convex hull of its vertices ([in_hull], as pyplasm's cells are
    convex), and [MAP(f)(shape)] what pyplasm draws: [f] is applied to
    the vertices of every cell of the shape (the corners of a box, the
    indexed points of a mesh cell) and the cell's image is the convex
    hull of the images ([vertex_cells]).  pyplasm splits a box into
    simplices on its corners before mapping them, so the image of a box
    cell is contained in that hull, and equal to it when the images of
    the corners are in convex position, as for the annulus sectors; a
    mesh of triangles, as [DOMAIN2D] builds, is mapped triangle by
    triangle, exactly.  The scripts map only box domains and meshes;
    another shape has no vertex cells here.  The leaves the scripts only call ([CYLINDER], the curves of
    the car drawings) are interpreted by an arbitrary [leaf_mem], a
    section variable: every theorem here holds whatever they denote.

    The rotation [R([i,j])(a)] turns the plane of the (1-based) axes [i]
    and [j] by [a] half turns ([a * PI] radians).

    Theorems: rotations compose by adding angles and a full turn is the
    identity; one copy of [DUPLIROT] is the object itself, and a count
    [n <= 0] raises pyplasm's exception ([STRUCT] of an empty list); for
    [n > 0] a point is in the result of [DUPLIROT(axis)(alpha)(obj)(n)]
    ([rot_copies]) exactly when one of its [n] rotations
    by [-k*alpha] is in [obj]; and when [n*alpha] is a full turn the
    aggregate is invariant under the rotation by [alpha] (the six spokes
    of the alloy wheel, line 141). *)

From Stdlib Require Import String List ZArith QArith Qreals Reals Lra Lia.
From S2P Require Import Prelude Kernel Scene.
Import ListNotations.
Local Open Scope R_scope.

(** ** [DUPLIROT], src/2013-05-10/python/exercise3.py lines 50-56 *)

(** [DUPLIROT(axis)(alpha)(obj)(n)]:
    [STRUCT([R(axis)(alpha*i)(obj) for i in range(n)])]. *)
Definition DUPLIROT (axis : list nat) (alpha : Q) (obj : hpc) (n : Z) : res hpc :=
  STRUCT_list (map (fun i => Obj (R_ axis (alpha * inject_Z (Z.of_nat i)) obj)) (py_range n)).

(** ** Points and the affine maps *)

Fixpoint upd (l : list R) (n : nat) (v : R) : list R :=
  match l, n with
  | [], _ => []
  | _ :: t, O => v :: t
  | h :: t, S n' => h :: upd t n' v
  end.

Definition coord (p : list R) (i : nat) : R := nth (i - 1) p 0.

Definition angle_rad (a : Q) : R := Q2R a * PI.

(** The rotation by [th] radians in the plane of the 1-based axes [i], [j]. *)
Definition rotate (i j : nat) (th : R) (p : list R) : list R :=
  let xi := coord p i in
  let xj := coord p j in
  upd (upd p (j - 1) (sin th * xi + cos th * xj)) (i - 1) (cos th * xi - sin th * xj).

Definition in_interval (iv : interval) (x : R) : Prop := Q2R (fst iv) <= x <= Q2R (snd iv).

Definition in_box (c : cell) (p : list R) : Prop := Forall2 in_interval c p.

(** The preimage of a point under [T(axes)(vals)]. *)
Definition untranslate (axes : list nat) (vals : list Q) (p : list R) : list R :=
  fold_left (fun p '(ax, v) => upd p (ax - 1) (coord p ax - Q2R v)) (combine axes vals) p.

(** The preimage of a point under [S(axes)(vals)]. *)
Definition unscale (axes : list nat) (vals : list Q) (p : list R) : list R :=
  fold_left (fun p '(ax, v) => upd p (ax - 1) (coord p ax / Q2R v)) (combine axes vals) p.

(** ** Convex hulls *)

(** Coordinate [i] of the weighted sum [ws_0 * vs_0 + ws_1 * vs_1 + ...]. *)
Fixpoint wcoord (ws : list R) (vs : list (list R)) (i : nat) : R :=
  match ws, vs with
  | w :: ws', v :: vs' => w * nth i v 0 + wcoord ws' vs' i
  | _, _ => 0
  end.

(** [p] is a convex combination of the points [vs], all of its dimension. *)
Definition in_hull (vs : list (list R)) (p : list R) : Prop :=
  exists ws, length ws = length vs /\ Forall (Rle 0) ws /\ fold_right Rplus 0 ws = 1 /\
             Forall (fun v => length v = length p) vs /\
             forall i, (i < length p)%nat -> nth i p 0 = wcoord ws vs i.

(** The vertices of a cell given by 1-based indices into [pts]. *)
Definition cell_vertices (pts : list (list R)) (cell : list nat) : list (list R) :=
  map (fun k => nth (k - 1) pts []) cell.

(** The corners of a box, over the reals: for [[(a1,b1); ...; (an,bn)]]
    the [2^n] points whose coordinate [i] is [ai] or [bi]. *)
Fixpoint box_corners (c : cell) : list (list R) :=
  match c with
  | [] => [[]]
  | iv :: c' => map (cons (Q2R (fst iv))) (box_corners c') ++ map (cons (Q2R (snd iv))) (box_corners c')
  end.

(** The vertex lists of the cells of a shape that [MAP] maps. *)
Definition vertex_cells (h : hpc) : list (list (list R)) :=
  match h with
  | Cells cx => map box_corners cx
  | Mesh pts cells => map (cell_vertices pts) cells
  | _ => []
  end.

Section Semantics.
Variable leaf_mem : hpc -> list R -> Prop.

Fixpoint mem (h : hpc) (p : list R) {struct h} : Prop :=
  match h with
  | Cells cx => Exists (fun c => in_box c p) cx
  | Mesh pts cells => Exists (fun c => in_hull (cell_vertices pts c) p) cells
  | Prim _ _ | Curve _ _ => leaf_mem h p
  | Map f d =>
      Exists (fun vs => match py_map f vs with Ok ws => in_hull ws p | Raise _ => False end)
             (vertex_cells d)
  | Struct items =>
      (fix mem_items (l : list hpc) : Prop :=
         match l with
         | [] => False
         | h' :: r => mem h' p \/ mem_items r
         end) items
  | Trans axes vals h' => mem h' (untranslate axes vals p)
  | Rot i j a h' => mem h' (rotate i j (- angle_rad a) p)
  | Scale axes vals h' => mem h' (unscale axes vals p)
  end.

Lemma mem_Struct items p : mem (Struct items) p <-> Exists (fun h => mem h p) items.
Proof.
  induction items as [|h items IH]; simpl.
  - split; [intros [] | intros Hex; inversion Hex].
  - rewrite Exists_cons. simpl in IH. rewrite IH. reflexivity.
Qed.

End Semantics.

(** ** Rotations *)

Lemma length_upd l n v : length (upd l n v) = length l.
Proof. revert n; induction l as [|x l IH]; intros [|n]; simpl; auto. Qed.

Lemma nth_upd_eq l n v : (n < length l)%nat -> nth n (upd l n v) 0 = v.
Proof.
  revert n; induction l as [|x l IH]; intros [|n] H; simpl in *; try lia; auto.
  apply IH. lia.
Qed.

Lemma nth_upd_ne l n m v : n <> m -> nth m (upd l n v) 0 = nth m l 0.
Proof.
  revert n m; induction l as [|x l IH]; intros [|n] [|m] H; simpl; auto; try congruence.
Qed.

Lemma upd_nth l n : upd l n (nth n l 0) = l.
Proof. revert n; induction l as [|x l IH]; intros [|n]; simpl; f_equal; auto. Qed.

Lemma upd_upd_eq l n v w : upd (upd l n v) n w = upd l n w.
Proof. revert n; induction l as [|x l IH]; intros [|n]; simpl; f_equal; auto. Qed.

Lemma upd_upd_ne l n m v w : n <> m -> upd (upd l n v) m w = upd (upd l m w) n v.
Proof.
  revert n m; induction l as [|x l IH]; intros [|n] [|m] H; simpl; f_equal; auto; congruence.
Qed.

(** The plane of a rotation, well formed for points of dimension [d]. *)
Definition plane_ok (i j : nat) (p : list R) : Prop :=
  (1 <= i <= length p)%nat /\ (1 <= j <= length p)%nat /\ i <> j.

Lemma rotate_0 i j p : rotate i j 0 p = p.
Proof.
  unfold rotate. rewrite cos_0, sin_0.
  replace (0 * coord p i + 1 * coord p j) with (coord p j) by ring.
  replace (1 * coord p i - 0 * coord p j) with (coord p i) by ring.
  unfold coord. rewrite upd_nth.
  destruct (Nat.eq_dec (i - 1) (j - 1)) as [E | E]; [rewrite E|]; apply upd_nth.
Qed.

Lemma coord_rotate_i i j th p :
  plane_ok i j p -> coord (rotate i j th p) i = cos th * coord p i - sin th * coord p j.
Proof.
  intros (Hi & Hj & Hij). unfold rotate at 1. unfold coord at 1.
  rewrite nth_upd_eq; [reflexivity|]. rewrite length_upd. lia.
Qed.

Lemma coord_rotate_j i j th p :
  plane_ok i j p -> coord (rotate i j th p) j = sin th * coord p i + cos th * coord p j.
Proof.
  intros (Hi & Hj & Hij). unfold rotate at 1. unfold coord at 1.
  rewrite nth_upd_ne by lia. rewrite nth_upd_eq by lia. reflexivity.
Qed.

Lemma length_rotate i j th p : length (rotate i j th p) = length p.
Proof. unfold rotate. rewrite !length_upd. reflexivity. Qed.

Lemma plane_ok_rotate i j th p : plane_ok i j p -> plane_ok i j (rotate i j th p).
Proof. unfold plane_ok. rewrite length_rotate. tauto. Qed.

(** Rotations in one plane compose by adding their angles. *)
Lemma rotate_compose i j a b p :
  plane_ok i j p -> rotate i j a (rotate i j b p) = rotate i j (a + b) p.
Proof.
  intros Hp. unfold rotate at 1. rewrite coord_rotate_i, coord_rotate_j by exact Hp.
  destruct Hp as (Hi & Hj & Hij). unfold rotate.
  rewrite (upd_upd_ne _ (i - 1) (j - 1)) by lia. rewrite !upd_upd_eq.
  rewrite cos_plus, sin_plus. f_equal; [f_equal|]; ring.
Qed.

Lemma rotate_ext i j a b p :
  cos a = cos b -> sin a = sin b -> rotate i j a p = rotate i j b p.
Proof. intros Hc Hs. unfold rotate. rewrite Hc, Hs. reflexivity. Qed.

(** A full turn is the identity. *)
Lemma rotate_full_turn i j p : rotate i j (- (2 * PI)) p = p.
Proof.
  rewrite <- (rotate_0 i j p) at 2. apply rotate_ext.
  - rewrite cos_neg, cos_2PI, cos_0. reflexivity.
  - rewrite sin_neg, sin_2PI, sin_0. ring.
Qed.

Lemma Q2R_0 : Q2R 0 = 0.
Proof. unfold Q2R. simpl. field. Qed.

Lemma Q2R_1 : Q2R 1 = 1.
Proof. unfold Q2R. simpl. field. Qed.

Lemma nth_map_Q2R l n : nth n (map Q2R l) 0%R = Q2R (nth n l 0%Q).
Proof. rewrite <- Q2R_0. apply map_nth. Qed.

Lemma Q2R_inject_Z z : Q2R (inject_Z z) = IZR z.
Proof. unfold Q2R. simpl. field. Qed.

Lemma angle_rad_nat alpha k :
  angle_rad (alpha * inject_Z (Z.of_nat k)) = Q2R alpha * INR k * PI.
Proof. unfold angle_rad. rewrite Q2R_mult, Q2R_inject_Z, <- INR_IZR_INZ. reflexivity. Qed.

Section Dupli.
Variable leaf_mem : hpc -> list R -> Prop.

Lemma STRUCT_list_ok l : l <> [] -> STRUCT_list l = Ok (STRUCT l).
Proof. destruct l; [congruence | reflexivity]. Qed.

(** The [N] copies of [obj] turned by [0, alpha, ..., (N-1)*alpha]. *)
Definition rot_copies (i j : nat) (alpha : Q) (obj : hpc) (N : nat) : hpc :=
  Struct (map (fun k => Rot i j (alpha * inject_Z (Z.of_nat k)) obj) (seq 0 N)).

Lemma DUPLIROT_struct i j alpha obj n :
  (0 < n)%Z -> DUPLIROT [i; j] alpha obj n = Ok (rot_copies i j alpha obj (Z.to_nat n)).
Proof.
  intros Hn. unfold DUPLIROT, py_range. rewrite STRUCT_list_ok.
  2:{ destruct (Z.to_nat n) eqn:E; [lia | discriminate]. }
  f_equal. unfold STRUCT, rot_copies.
  rewrite <- map_map with (g := Obj), struct_items_objs. reflexivity.
Qed.

Lemma DUPLIROT_raise i j alpha obj n :
  (n <= 0)%Z -> DUPLIROT [i; j] alpha obj n = Raise PlasmError.
Proof. intros Hn. unfold DUPLIROT. rewrite py_range_nonpos by exact Hn. reflexivity. Qed.

(** A point is in the copies exactly when, for some copy [k < N], its
    rotation by [-k*alpha] is in [obj]. *)
Lemma mem_rot_copies i j alpha obj N p :
  mem leaf_mem (rot_copies i j alpha obj N) p <->
  exists k, (k < N)%nat /\ mem leaf_mem obj (rotate i j (- (Q2R alpha * INR k * PI)) p).
Proof.
  unfold rot_copies. rewrite mem_Struct, Exists_map, Exists_exists.
  split; intros (k & Hk & Hm); exists k; rewrite in_seq in *;
    simpl in *; rewrite angle_rad_nat in *; split; auto; lia.
Qed.

(** C8: the smallest counts: [DUPLIROT(axis)(alpha)(obj)(n)] raises
    pyplasm's exception exactly when [n <= 0], since [range(n)] is then
    empty and [STRUCT] refuses an empty list; one copy is the object
    itself, copy [0] being rotated by [0*alpha]. *)
Theorem DUPLIROT_small_counts i j alpha obj :
  (forall n, DUPLIROT [i; j] alpha obj n = Raise PlasmError <-> (n <= 0)%Z) /\
  exists h, DUPLIROT [i; j] alpha obj 1 = Ok h /\ forall p, mem leaf_mem h p <-> mem leaf_mem obj p.
Proof.
  split.
  - intros n. split; [|apply DUPLIROT_raise]. intros E.
    destruct (Z.le_gt_cases n 0) as [Hn | Hn]; [exact Hn|].
    rewrite DUPLIROT_struct in E by lia. discriminate E.
  - eexists. split; [apply DUPLIROT_struct; lia|]. intros p. rewrite mem_rot_copies. simpl Z.to_nat.
    split; [intros ([|k] & Hk & Hm); [|lia] | intros Hm; exists 0%nat; split; [lia|]];
      simpl INR in *; replace (- (Q2R alpha * 0 * PI)) with 0 in * by ring; rewrite rotate_0 in *; exact Hm.
Qed.

Lemma rotate_step i j alpha k p :
  plane_ok i j p ->
  rotate i j (- (Q2R alpha * INR k * PI)) (rotate i j (- angle_rad alpha) p)
  = rotate i j (- (Q2R alpha * INR (S k) * PI)) p.
Proof.
  intros Hp. rewrite rotate_compose by exact Hp. f_equal.
  unfold angle_rad. rewrite S_INR. ring.
Qed.

Lemma rotate_turn i j alpha N p :
  Q2R alpha * INR N = 2 ->
  rotate i j (- (Q2R alpha * INR N * PI)) p = rotate i j (- (Q2R alpha * INR 0 * PI)) p.
Proof.
  intros Hn. rewrite Hn, rotate_full_turn. simpl INR.
  replace (- (Q2R alpha * 0 * PI)) with 0 by ring. symmetry. apply rotate_0.
Qed.

(** C6: Rotational symmetry: when [n] copies at [alpha] make a full turn,
    [DUPLIROT([i,j])(alpha)(obj)(n)] returns, and rotating it by [alpha]
    gives the same point set, for points of a dimension that has both
    axes. *)
Theorem DUPLIROT_symmetric i j alpha obj n :
  (0 < n)%Z -> (alpha * inject_Z n == 2)%Q ->
  exists h, DUPLIROT [i; j] alpha obj n = Ok h /\
  forall p, plane_ok i j p -> (mem leaf_mem (Rot i j alpha h) p <-> mem leaf_mem h p).
Proof.
  intros Hn Hturn. eexists. split; [apply DUPLIROT_struct, Hn|]. intros p Hp.
  cbn [mem]. rewrite !mem_rot_copies.
  set (N := Z.to_nat n).
  assert (HN : Q2R alpha * INR N = 2).
  { apply Qeq_eqR in Hturn. rewrite Q2R_mult, Q2R_inject_Z in Hturn.
    unfold N. rewrite INR_IZR_INZ, Z2Nat.id by lia. rewrite Hturn. unfold Q2R. simpl. field. }
  assert (HN0 : (0 < N)%nat) by (unfold N; lia).
  split.
  - intros (k & Hk & Hm). rewrite rotate_step in Hm by exact Hp.
    destruct (Nat.eq_dec (S k) N) as [E | E].
    + exists 0%nat. split; [exact HN0|]. rewrite <- (rotate_turn i j alpha N p HN), <- E. exact Hm.
    + exists (S k). split; [lia | exact Hm].
  - intros ([|k] & Hk & Hm).
    + exists (N - 1)%nat. split; [lia|]. rewrite rotate_step by exact Hp.
      replace (S (N - 1)) with N by lia. rewrite rotate_turn by exact HN. exact Hm.
    + exists k. split; [lia|]. rewrite rotate_step by exact Hp. exact Hm.
Qed.
End Dupli.

(** ** The alloy wheel's six spokes, line 141: [DUPLIROT([1,2])(PI/3)(AWPol1)(6)] *)

Definition AWPol1_leaf : hpc := Prim "AWPol1"%string [].

(** The six copies are rotated by 0, 1/3, ..., 5/3 half turns, i.e.
    0, 60, ..., 300 degrees. *)
Example DUPLIROT_six_angles :
  DUPLIROT [1; 2]%nat (1 # 3) AWPol1_leaf 6 =
  Ok (Struct (map (fun k => Rot 1 2 (Z.of_nat k # 3) AWPol1_leaf) (seq 0 6))).
Proof. reflexivity. Qed.

Lemma DUPLIROT_symmetric_witness :
  exists h, DUPLIROT [1; 2]%nat (1 # 3) AWPol1_leaf 6 = Ok h /\
  (mem (fun _ _ => True) (Rot 1 2 (1 # 3) h) [0; 0; 0] <-> mem (fun _ _ => True) h [0; 0; 0]).
Proof.
  destruct (DUPLIROT_symmetric (fun _ _ => True) 1 2 (1 # 3) AWPol1_leaf 6) as (h & Eh & Hs);
    [lia | reflexivity|].
  exists h. split; [exact Eh | apply Hs; unfold plane_ok; simpl; lia].
Defined.

Lemma DUPLIROT_small_counts_witness :
  DUPLIROT [1; 2]%nat (1 # 3) AWPol1_leaf 0 = Raise PlasmError /\
  exists h, DUPLIROT [1; 2]%nat (1 # 3) AWPol1_leaf 1 = Ok h /\
  (mem (fun _ _ => True) h [0; 0; 0] <-> mem (fun _ _ => True) AWPol1_leaf [0; 0; 0]).
Proof.
  destruct (DUPLIROT_small_counts (fun _ _ => True) 1 2 (1 # 3) AWPol1_leaf) as [Hr (h & Eh & Hm)].
  split; [apply Hr; lia | exists h; split; [exact Eh | apply Hm]].
Defined.
