(* ===== verification/Hull.v ===== *)
(** * Hull: convex combinations, for [MKPOL] cells and Bezier curves

    A point of an [MKPOL] cell is a convex combination of the cell's
    vertices ([Geometry.in_hull]); a point of a Bezier curve is the
    combination of its control points with the Bernstein weights, which
    are non-negative on [[0, 1]] and add up to 1 (the binomial theorem).
    Both are weighted sums [wcoord], and this file proves the one fact the
    bounds of [Spokes] and [Surfaces] rest on: a linear function that is
    at most [b] on the points is at most [b] on any convex combination of
    them ([in_hull_lin_le], [mesh_lin_bounds], [wcoord_convex_bounds]). *)

From Stdlib Require Import List Arith Reals Binomial Lra Lia.
From S2P Require Import Prelude Domain2D Scene Geometry.
Import ListNotations.
Local Open Scope R_scope.

(** The sum of [f i] over the list [l]. *)
Definition rsum (f : nat -> R) (l : list nat) : R := fold_right Rplus 0 (map f l).

(** The linear function [a . p] on the first [length a] coordinates. *)
Definition lin (a p : list R) : R := rsum (fun i => nth i a 0 * nth i p 0) (seq 0 (length a)).

(** The weighted sum [ws_0 * xs_0 + ws_1 * xs_1 + ...] of numbers. *)
Fixpoint wsum (ws xs : list R) : R :=
  match ws, xs with
  | w :: ws', x :: xs' => w * x + wsum ws' xs'
  | _, _ => 0
  end.

(** ** Sums *)

Lemma rsum_plus f g l : rsum (fun i => f i + g i) l = rsum f l + rsum g l.
Proof. unfold rsum. induction l as [|i l IH]; simpl; [ring | rewrite IH; ring]. Qed.

Lemma rsum_scal c f l : rsum (fun i => c * f i) l = c * rsum f l.
Proof. unfold rsum. induction l as [|i l IH]; simpl; [ring | rewrite IH; ring]. Qed.

Lemma rsum_ext f g l : (forall i, In i l -> f i = g i) -> rsum f l = rsum g l.
Proof. intros H. unfold rsum. f_equal. apply map_ext_in, H. Qed.

Lemma rsum_opp f l : rsum (fun i => - f i) l = - rsum f l.
Proof. unfold rsum. induction l as [|i l IH]; simpl; [ring | rewrite IH; ring]. Qed.

Lemma rsum_app f l1 l2 : rsum f (l1 ++ l2) = rsum f l1 + rsum f l2.
Proof. unfold rsum. induction l1 as [|i l IH]; simpl; [ring | rewrite IH; ring]. Qed.

Lemma rsum_0 l : rsum (fun _ => 0) l = 0.
Proof. unfold rsum. induction l as [|i l IH]; simpl; [reflexivity | rewrite IH; ring]. Qed.

(** [sum_f_R0] of the binomial theorem is a sum over [seq]. *)
Lemma sum_f_R0_rsum f n : sum_f_R0 f n = rsum f (seq 0 (S n)).
Proof.
  induction n as [|n IH]; [unfold rsum; simpl; ring|].
  rewrite tech5, IH, (seq_S (S n) 0), rsum_app. unfold rsum at 3. simpl. ring.
Qed.

(** ** Weighted sums *)

(** Coordinate [i] of a weighted sum of points is the weighted sum of
    their coordinates [i]. *)
Lemma wcoord_wsum ws vs i : wcoord ws vs i = wsum ws (map (fun v => nth i v 0) vs).
Proof. revert vs; induction ws as [|w ws IH]; intros [|v vs]; simpl; auto. rewrite IH. reflexivity. Qed.

(** A linear function of a weighted sum of points is the weighted sum of
    its values. *)
Lemma lin_wcoord a ws vs :
  rsum (fun i => nth i a 0 * wcoord ws vs i) (seq 0 (length a)) = wsum ws (map (lin a) vs).
Proof.
  assert (H0 : rsum (fun i => nth i a 0 * 0) (seq 0 (length a)) = 0)
    by (transitivity (rsum (fun _ => 0) (seq 0 (length a))); [apply rsum_ext; intros; ring | apply rsum_0]).
  revert vs; induction ws as [|w ws IH]; intros [|v vs]; simpl; try exact H0.
  rewrite <- IH. unfold lin. rewrite <- rsum_scal, <- rsum_plus.
    apply rsum_ext. intros i _. ring.
Qed.

(** Non-negative weights adding up to 1 keep a combination of numbers at
    most [b] at most [b]. *)
Lemma wsum_convex_le ws xs b :
  length ws = length xs -> Forall (Rle 0) ws -> fold_right Rplus 0 ws = 1 ->
  Forall (fun x => x <= b) xs -> wsum ws xs <= b.
Proof.
  intros Hlen Hw Hs Hx. enough (H : wsum ws xs <= fold_right Rplus 0 ws * b) by (rewrite Hs in H; lra).
  clear Hs. revert xs Hlen Hx.
  induction Hw as [|w ws Hw0 Hws IH]; intros [|x xs] Hlen Hx; simpl in *; try discriminate; [lra|].
  inversion Hx as [|? ? Hxb Hxs]; subst.
  assert (wsum ws xs <= fold_right Rplus 0 ws * b) by (apply IH; [lia | exact Hxs]).
  assert (w * x <= w * b) by (apply Rmult_le_compat_l; assumption). lra.
Qed.

Lemma wsum_convex_ge ws xs b :
  length ws = length xs -> Forall (Rle 0) ws -> fold_right Rplus 0 ws = 1 ->
  Forall (fun x => b <= x) xs -> b <= wsum ws xs.
Proof.
  intros Hlen Hw Hs Hx.
  assert (Hn : wsum ws (map Ropp xs) = - wsum ws xs).
  { clear Hlen Hw Hs Hx. revert xs. induction ws as [|w ws IH]; intros [|x xs]; simpl; try ring.
    rewrite IH. ring. }
  assert (wsum ws (map Ropp xs) <= - b); [|lra].
  apply wsum_convex_le; [rewrite length_map; exact Hlen | exact Hw | exact Hs|].
  apply Forall_map. eapply Forall_impl; [|exact Hx]. intros x Hbx. simpl. lra.
Qed.

(** ** Points of a cell *)

Lemma lin_opp a q : lin (map Ropp a) q = - lin a q.
Proof.
  unfold lin. rewrite length_map, <- rsum_opp. apply rsum_ext. intros i _.
  rewrite <- Ropp_0 at 1. rewrite map_nth. ring.
Qed.

(** A linear bound that holds at the vertices holds in their hull. *)
Lemma in_hull_lin_le a b vs p :
  in_hull vs p -> (length a <= length p)%nat -> Forall (fun v => lin a v <= b) vs -> lin a p <= b.
Proof.
  intros (ws & Hlen & Hw & Hs & _ & Hp) Ha Hv. unfold lin at 1.
  rewrite (rsum_ext _ (fun i => nth i a 0 * wcoord ws vs i)) by
    (intros i Hi; apply in_seq in Hi; rewrite Hp by lia; reflexivity).
  rewrite lin_wcoord. apply wsum_convex_le; [rewrite length_map; exact Hlen | exact Hw | exact Hs |].
  apply Forall_map, Hv.
Qed.

Lemma in_hull_lin_ge a b vs p :
  in_hull vs p -> (length a <= length p)%nat -> Forall (fun v => b <= lin a v) vs -> b <= lin a p.
Proof.
  intros Hp Ha Hv.
  assert (Hneg : forall q, lin (map Ropp a) q = - lin a q) by apply lin_opp.
  assert (lin (map Ropp a) p <= - b); [|rewrite Hneg in H; lra].
  apply (in_hull_lin_le _ _ vs); [exact Hp | rewrite length_map; exact Ha|].
  eapply Forall_impl; [|exact Hv]. intros v Hb. rewrite Hneg. lra.
Qed.

(** ** Points of a mesh *)

Lemma cell_vertices_Forall (P : list R -> Prop) pts cell :
  Forall P pts -> forallb (valid_index (length pts)) cell = true -> Forall P (cell_vertices pts cell).
Proof.
  intros HP Hc. unfold cell_vertices. apply Forall_map, Forall_forall. intros k Hk.
  rewrite forallb_forall in Hc. specialize (Hc k Hk). unfold valid_index in Hc.
  apply andb_prop in Hc as [H1 H2]. apply Nat.leb_le in H1, H2.
  apply (proj1 (Forall_forall _ _) HP). apply nth_In. lia.
Qed.

Section Mesh.
Variable leaf_mem : hpc -> list R -> Prop.

(** The point of a mesh is in the hull of the vertices of one of its
    cells, and those are points of the mesh. *)
Lemma mem_Mesh_hull pts cells p :
  forallb (forallb (valid_index (length pts))) cells = true -> mem leaf_mem (Mesh pts cells) p ->
  exists vs, in_hull vs p /\ forall P, Forall P pts -> Forall P vs.
Proof.
  intros Hcells Hm. cbn [mem] in Hm. apply Exists_exists in Hm as (c & Hc & Hh).
  exists (cell_vertices pts c). split; [exact Hh|]. intros P HP. apply cell_vertices_Forall; [exact HP|].
  rewrite forallb_forall in Hcells. apply Hcells, Hc.
Qed.

(** A linear bound on the points of a mesh holds on all of it. *)
Lemma mesh_lin_bounds a lo hi pts cells p :
  forallb (forallb (valid_index (length pts))) cells = true -> (length a <= length p)%nat ->
  Forall (fun v => lo <= lin a v <= hi) pts -> mem leaf_mem (Mesh pts cells) p -> lo <= lin a p <= hi.
Proof.
  intros Hcells Ha Hpts Hm. destruct (mem_Mesh_hull pts cells p Hcells Hm) as (vs & Hh & HF).
  split; [apply (in_hull_lin_ge a lo vs p Hh Ha) | apply (in_hull_lin_le a hi vs p Hh Ha)];
    eapply HF, Forall_impl; try exact Hpts; simpl; tauto.
Qed.
End Mesh.

Lemma fold_right_Rplus_repeat0 n : fold_right Rplus 0 (repeat 0 n) = 0.
Proof. induction n as [|n IH]; simpl; [reflexivity | rewrite IH; ring]. Qed.

Lemma wcoord_repeat0 n vs i : wcoord (repeat 0 n) vs i = 0.
Proof. revert vs; induction n as [|n IH]; intros [|v vs]; simpl; try reflexivity. rewrite IH. ring. Qed.

(** A point is in the hull of a list of points of its dimension that
    starts with it. *)
Lemma in_hull_head p vs : Forall (fun v => length v = length p) (p :: vs) -> in_hull (p :: vs) p.
Proof.
  intros Hl. exists (1 :: repeat 0 (length vs)). split; [simpl; rewrite repeat_length; reflexivity|].
  split; [constructor; [lra | apply Forall_forall; intros x Hx; apply repeat_spec in Hx; lra]|].
  split; [simpl; rewrite fold_right_Rplus_repeat0; ring|]. split; [exact Hl|].
  intros i _. simpl. rewrite wcoord_repeat0. ring.
Qed.

(** A point of a hull stays in it when a vertex is added (with weight 0). *)
Lemma in_hull_cons u vs p : length u = length p -> in_hull vs p -> in_hull (u :: vs) p.
Proof.
  intros Hu (ws & Hlen & Hw & Hs & Hl & Hp). exists (0 :: ws).
  split; [simpl; lia|]. split; [constructor; [lra | exact Hw]|]. split; [simpl; lra|].
  split; [constructor; assumption|]. intros i Hi. simpl. rewrite Hp by exact Hi. ring.
Qed.

(** Every vertex is a point of the hull. *)
Lemma in_hull_In v vs : In v vs -> Forall (fun u => length u = length v) vs -> in_hull vs v.
Proof.
  intros Hin Hl. induction vs as [|u vs IH]; [destruct Hin|].
  inversion Hl as [|? ? Hu Hl']; subst.
  destruct Hin as [<- | Hin]; [apply in_hull_head; exact Hl|].
  apply in_hull_cons; [exact Hu | apply IH; assumption].
Qed.

Lemma lin_2 a0 a1 v : lin [a0; a1] v = a0 * nth 0 v 0 + a1 * nth 1 v 0.
Proof. unfold lin, rsum. simpl. ring. Qed.

Lemma lin_3 a0 a1 a2 v : lin [a0; a1; a2] v = a0 * nth 0 v 0 + a1 * nth 1 v 0 + a2 * nth 2 v 0.
Proof. unfold lin, rsum. simpl. ring. Qed.

(** A disc about the axis of the first two coordinates that holds the
    vertices holds the hull: [|p|^2 = p.p] is a convex combination of
    the [v.p], each at most [(|v|^2 + |p|^2) / 2]. *)
Lemma in_hull_disc vs p b :
  in_hull vs p -> (2 <= length p)%nat ->
  Forall (fun v => nth 0 v 0 ^ 2 + nth 1 v 0 ^ 2 <= b) vs ->
  nth 0 p 0 ^ 2 + nth 1 p 0 ^ 2 <= b.
Proof.
  intros Hh Hl Hv. set (x := nth 0 p 0). set (y := nth 1 p 0).
  assert (H : lin [x; y] p <= (b + (x ^ 2 + y ^ 2)) / 2).
  { apply (in_hull_lin_le _ _ vs p Hh); [simpl; lia|].
    eapply Forall_impl; [|exact Hv]. intros v Hb. rewrite lin_2.
    pose proof (pow2_ge_0 (x - nth 0 v 0)). pose proof (pow2_ge_0 (y - nth 1 v 0)). nra. }
  rewrite lin_2 in H. fold x y in H. nra.
Qed.

(** ** Bernstein weights *)

(** pyplasm's weight [CHOOSE([N,I]) * (1-t)^(N-I) * t^I]. *)
Definition bernstein (N I : nat) (t : R) : R := C N I * (1 - t) ^ (N - I) * t ^ I.

Definition bernstein_weights (N : nat) (t : R) : list R := map (fun I => bernstein N I t) (seq 0 (S N)).

Lemma C_nonneg n i : 0 <= C n i.
Proof.
  unfold C. apply Rmult_le_pos; [apply pos_INR|]. apply Rlt_le, Rinv_0_lt_compat, Rmult_lt_0_compat;
    apply lt_0_INR, lt_O_fact.
Qed.

Lemma bernstein_weights_nonneg N t : 0 <= t <= 1 -> Forall (Rle 0) (bernstein_weights N t).
Proof.
  intros Ht. apply Forall_map, Forall_forall. intros I _. unfold bernstein.
  apply Rmult_le_pos; [apply Rmult_le_pos; [apply C_nonneg | apply pow_le; lra] | apply pow_le; lra].
Qed.

Lemma bernstein_weights_sum N t : fold_right Rplus 0 (bernstein_weights N t) = 1.
Proof.
  unfold bernstein_weights. change (fold_right Rplus 0 (map _ _)) with (rsum (fun I => bernstein N I t) (seq 0 (S N))).
  rewrite <- sum_f_R0_rsum. rewrite <- (pow1 N). replace 1 with (t + (1 - t)) at 1 by ring.
  rewrite binomial. apply sum_eq. intros i _. unfold bernstein. ring.
Qed.

Lemma length_bernstein_weights N t : length (bernstein_weights N t) = S N.
Proof. unfold bernstein_weights. rewrite length_map, length_seq. reflexivity. Qed.

(** A coordinate of a point of a Bezier curve on [[0, 1]] lies between
    the least and the greatest of that coordinate of its control points. *)
Lemma wcoord_convex_bounds ws vs i lo hi :
  length ws = length vs -> Forall (Rle 0) ws -> fold_right Rplus 0 ws = 1 ->
  Forall (fun v => lo <= nth i v 0 <= hi) vs -> lo <= wcoord ws vs i <= hi.
Proof.
  intros Hlen Hw Hs Hv. rewrite wcoord_wsum. split.
  - apply wsum_convex_ge; [rewrite length_map; exact Hlen | exact Hw | exact Hs |].
    apply Forall_map. eapply Forall_impl; [|exact Hv]. simpl. tauto.
  - apply wsum_convex_le; [rewrite length_map; exact Hlen | exact Hw | exact Hs |].
    apply Forall_map. eapply Forall_impl; [|exact Hv]. simpl. tauto.
Qed.
