(* ===== verification/Sector.v ===== *)
(** * Sector: [annulus_sector] and [circular_sector] of
      src/2013-04-05/python/exercise3.py, lines 22-31

    [annulus_sector(alpha, r, R)] builds the domain
    [DOMAIN([[0,alpha],[r,R]])([36,1])] (36 angular cells, one radial
    cell) and maps it by [mapping(v) = [v[1]*COS(v[0]), v[1]*SIN(v[0])]]
    with pyplasm's [MAP].  [MAP(f)(domain)] is the scene node [Map f d]
    of [Scene]; pyplasm maps the corners of every cell of the domain,
    and the points of a cell ([Geometry.mem]) are the convex hull of the
    images of its corners.

    Angles are rationals counted in half turns, as in [Geometry]: the
    angular axis of the domain is [[0, alpha]] in half turns and
    [mapping] multiplies by [PI] before [cos] and [sin], which draws the
    same figure as the source's domain [[0, alpha * PI]] in radians.

    The theorem [annulus_sector_points] characterises the result: cell
    [k] of [annulus_sector(alpha, r, R)] is the convex hull of the polar
    points at the angles [k*alpha/36] and [(k+1)*alpha/36] (times [PI])
    and the radii [r] and [R] ([sector_quad]), a 36-gon rather than the
    exact annulus.  [circular_half_disc] gives the facts the ground floor
    plan uses: the half sector of radius [R] lies in the upper half disc
    and has both ends of its diameter as points. *)

From Stdlib Require Import List ZArith QArith Qreals Reals Lra Lia.
From S2P Require Import Prelude Kernel Grid Scene Geometry Hull.
Import ListNotations.

(** [mapping(v)], lines 24-27 (the angle [v[0]] in half turns). *)
Definition mapping (v : list R) : res (list R) :=
  a <- py_index v 0 ;; r <- py_index v 1 ;;
  Ok [r * cos (a * PI); r * sin (a * PI)]%R.

(** [annulus_sector(alpha, r, R)], lines 22-28. *)
Definition annulus_sector (alpha r R : Q) : res hpc :=
  f <- DOMAIN [[0; alpha]; [r; R]]%Q ;;
  domain <- f [36; 1]%Z ;;
  Ok (MAP mapping (Cells domain)).

(** [circular_sector(alpha, r)], lines 30-31. *)
Definition circular_sector (alpha r : Q) : res hpc := annulus_sector alpha 0 r.

(** The reference domain: 36 angular cells of [[0, alpha]] by the
    radial cell [[r, R]]. *)
Definition sector_ref (alpha r R : Q) : complex := cprod (uniform 0 alpha 36) (uniform r R 1).

(** ** The domain *)

Lemma Qle_bool_lt a b : (a < b)%Q -> Qle_bool b a = false.
Proof. intros H. destruct (Qle_bool b a) eqn:E; [apply Qle_bool_iff in E; exfalso; exact (Qlt_not_le _ _ H E) | reflexivity]. Qed.

Lemma annulus_sector_domain alpha r R :
  exists cx, annulus_sector alpha r R = Ok (MAP mapping (Cells cx)) /\ complex_eqv cx (sector_ref alpha r R).
Proof.
  destruct (DOMAIN1_eqv [(0, alpha); (r, R)]%Q [36; 1]%Z) as (cx & Hcx & Heqv);
    [discriminate | simpl; lia|].
  exists cx. split; [|exact Heqv].
  unfold annulus_sector. change [[0; alpha]; [r; R]]%Q with (as_pairs [(0, alpha); (r, R)]%Q).
  rewrite DOMAIN_pairs. cbn [res_bind]. rewrite Hcx. reflexivity.
Qed.

Lemma In_uniform s e d c :
  (s < e)%Q -> In c (uniform s e d) <->
  exists k, (k < Z.to_nat d)%nat /\
            c = [(s + inject_Z (Z.of_nat k) * ((e - s) / inject_Z d),
                  s + inject_Z (Z.of_nat (S k)) * ((e - s) / inject_Z d))]%Q.
Proof.
  intros Hse. unfold uniform. rewrite Qle_bool_lt by exact Hse. rewrite in_map_iff.
  split; intros (k & H1 & H2); exists k; rewrite in_seq in *; split; (lia || congruence).
Qed.

(** ** Boxes over the reals *)

Local Open Scope R_scope.

Lemma in_interval_eqv iv iv' x : interval_eqv iv iv' -> in_interval iv x -> in_interval iv' x.
Proof.
  intros [H1 H2] Hx. unfold in_interval in *. rewrite <- (Qeq_eqR _ _ H1), <- (Qeq_eqR _ _ H2). exact Hx.
Qed.

Lemma in_box_eqv c c' v : cell_eqv c c' -> in_box c v -> in_box c' v.
Proof.
  intros Hc Hv. revert c' Hc. induction Hv as [|iv x c v Hx _ IH]; intros c' Hc;
    inversion Hc; subst; constructor; [eapply in_interval_eqv|apply IH]; eassumption.
Qed.

(** The corners of boxes equal up to [Qeq] are the same real points. *)
Lemma box_corners_eqv c c' : cell_eqv c c' -> box_corners c = box_corners c'.
Proof.
  induction 1 as [|iv iv' c c' [H1 H2] _ IH]; [reflexivity|].
  cbn [box_corners]. rewrite IH, (Qeq_eqR _ _ H1), (Qeq_eqR _ _ H2). reflexivity.
Qed.

(** The points of a mapped domain only depend on its cells up to [Qeq]. *)
Lemma mem_MAP_eqv leaf_mem f cx cx' p :
  complex_eqv cx cx' -> mem leaf_mem (MAP f (Cells cx)) p <-> mem leaf_mem (MAP f (Cells cx')) p.
Proof.
  intros H. cbn [MAP mem vertex_cells].
  replace (map box_corners cx') with (map box_corners cx); [reflexivity|].
  induction H as [|c c' cx cx' Hc _ IH]; [reflexivity|]. cbn [map]. rewrite IH, (box_corners_eqv _ _ Hc). reflexivity.
Qed.


Lemma Q2R_uniform s e d k :
  (0 < d)%Z ->
  Q2R (s + inject_Z (Z.of_nat k) * ((e - s) / inject_Z d)) = Q2R s + INR k * ((Q2R e - Q2R s) / IZR d).
Proof.
  intros Hd. assert (Hd' : ~ inject_Z d == 0%Q)
    by (intros E; unfold Qeq in E; simpl in E; lia).
  rewrite Q2R_plus, Q2R_mult, Q2R_div, Q2R_minus, !Q2R_inject_Z, <- INR_IZR_INZ by exact Hd'.
  reflexivity.
Qed.

(** Every point of [[0, n]] lies in one of the [n] unit segments. *)
Lemma floor_index n x :
  (0 < n)%nat -> 0 <= x <= INR n -> exists k, (k < n)%nat /\ INR k <= x <= INR (S k).
Proof.
  induction n as [|n IH]; intros Hn Hx; [lia|].
  destruct (Nat.eq_dec n 0) as [-> | Hn0].
  - exists 0%nat. split; [lia|]. simpl in *. lra.
  - destruct (Rle_lt_dec x (INR n)) as [Hle | Hlt].
    + destruct (IH ltac:(lia) ltac:(lra)) as (k & Hk & Hkx). exists k. split; [lia | exact Hkx].
    + exists n. split; [lia | lra].
Qed.

Lemma in_box_pair iv1 iv2 v :
  in_box [iv1; iv2] v <-> exists a b, v = [a; b] /\ in_interval iv1 a /\ in_interval iv2 b.
Proof.
  split.
  - intros Hv. inversion Hv as [|? a ? v' H1 Hv']; subst.
    inversion Hv' as [|? b ? v'' H2 Hv'']; subst. inversion Hv''; subst. eauto.
  - intros (a & b & -> & H1 & H2). apply Forall2_cons; [exact H1|]. apply Forall2_cons; [exact H2|]. apply Forall2_nil.
Qed.

(** The cells of [sector_ref], over the reals. *)
Lemma sector_cell_bounds alpha k :
  (0 < alpha)%Q -> (k < 36)%nat ->
  Q2R (0 + inject_Z (Z.of_nat k) * ((alpha - 0) / inject_Z 36)) = INR k * (Q2R alpha / 36) /\
  Q2R (0 + inject_Z (Z.of_nat (S k)) * ((alpha - 0) / inject_Z 36)) = INR (S k) * (Q2R alpha / 36).
Proof. intros _ _. rewrite !Q2R_uniform, Q2R_0 by lia. split; simpl IZR; field. Qed.

Lemma radial_cell_bounds r R :
  Q2R (r + inject_Z (Z.of_nat 0) * ((R - r) / inject_Z 1)) = Q2R r /\
  Q2R (r + inject_Z (Z.of_nat 1) * ((R - r) / inject_Z 1)) = Q2R R.
Proof. rewrite !Q2R_uniform by lia. simpl INR. simpl IZR. split; field. Qed.

Lemma sector_ref_sound alpha rin rout c v :
  (0 < alpha)%Q -> (rin < rout)%Q -> In c (sector_ref alpha rin rout) -> in_box c v ->
  exists a rho, v = [a; rho] /\ 0 <= a <= Q2R alpha /\ Q2R rin <= rho <= Q2R rout.
Proof.
  intros Ha Hr Hc Hv. unfold sector_ref in Hc. apply In_cprod in Hc as (ca & cb & -> & Hca & Hcb).
  apply In_uniform in Hca as (k & Hk & ->); [|exact Ha].
  apply In_uniform in Hcb as (j & Hj & ->); [|exact Hr].
  change (Z.to_nat 36) with 36%nat in Hk. change (Z.to_nat 1) with 1%nat in Hj.
  replace j with 0%nat in * by lia. cbn [app] in Hv. apply in_box_pair in Hv as (a & rho & -> & H1 & H2).
  unfold in_interval in H1, H2; cbn [fst snd] in H1, H2.
  destruct (sector_cell_bounds alpha k Ha Hk) as [E1 E2]. destruct (radial_cell_bounds rin rout) as [E3 E4].
  rewrite E1, E2 in H1. rewrite E3, E4 in H2.
  apply Qlt_Rlt in Ha. rewrite Q2R_0 in Ha.
  assert (0 <= INR k) by apply pos_INR. assert (HS : INR (S k) <= INR 36) by (apply le_INR; lia).
  rewrite (INR_IZR_INZ 36) in HS. change (Z.of_nat 36) with 36%Z in HS.
  exists a, rho. split; [reflexivity|]. split; [split; nra | lra].
Qed.

Lemma sector_ref_complete alpha rin rout a rho :
  (0 < alpha)%Q -> (rin < rout)%Q -> 0 <= a <= Q2R alpha -> Q2R rin <= rho <= Q2R rout ->
  exists c, In c (sector_ref alpha rin rout) /\ in_box c [a; rho].
Proof.
  intros Ha Hr Hax Hrho. pose proof (Qlt_Rlt _ _ Ha) as HA. rewrite Q2R_0 in HA.
  destruct (floor_index 36 (36 * a / Q2R alpha)) as (k & Hk & Hkx); [lia | split|].
  { apply Rmult_le_pos; [lra | apply Rlt_le, Rinv_0_lt_compat, HA]. }
  { apply (Rmult_le_reg_r (Q2R alpha)); [exact HA|]. field_simplify; [simpl INR; lra | lra]. }
  eexists. split.
  - unfold sector_ref. apply In_cprod. do 2 eexists. split; [reflexivity|].
    split; apply In_uniform; try assumption; [exists k | exists 0%nat]; split; try reflexivity; simpl; lia.
  - apply in_box_pair. exists a, rho. split; [reflexivity|]. unfold in_interval. cbn [fst snd].
    destruct (sector_cell_bounds alpha k Ha Hk) as [-> ->]. destruct (radial_cell_bounds rin rout) as [-> ->].
    split; [|exact Hrho].
    assert (Hpos : 0 <= Q2R alpha / 36) by lra.
    replace a with ((36 * a / Q2R alpha) * (Q2R alpha / 36)) by (field; lra).
    split; apply Rmult_le_compat_r; tauto.
Qed.

Lemma half_turns_to_rad a A : 0 <= a <= A -> 0 <= a * PI <= A * PI.
Proof. pose proof PI_RGT_0. intros [H1 H2]. split; nra. Qed.

Lemma rad_to_half_turns th A : 0 <= th <= A * PI -> 0 <= th / PI <= A.
Proof.
  pose proof PI_RGT_0 as HPI. intros [H1 H2]. split.
  - unfold Rdiv. apply Rmult_le_pos; [lra | left; apply Rinv_0_lt_compat, HPI].
  - apply (Rmult_le_reg_r PI); [exact HPI|]. unfold Rdiv. rewrite Rmult_assoc, Rinv_l; lra.
Qed.

Lemma length_sector_ref alpha rin rout :
  (0 < alpha)%Q -> (rin < rout)%Q -> length (sector_ref alpha rin rout) = 36%nat.
Proof.
  intros Ha Hr. unfold sector_ref, uniform. rewrite length_cprod, !Qle_bool_lt by assumption.
  rewrite !length_map, !length_seq. reflexivity.
Qed.

(** ** The points of a sector *)

(** The polar point of angle [a] half turns and radius [rho]. *)
Definition polar (a rho : R) : list R := [rho * cos (a * PI); rho * sin (a * PI)].

(** Cell [k] of the sector as pyplasm draws it: the images of the corners
    of the box [[k*alpha/36, (k+1)*alpha/36] x [r, R]], in the order of
    [box_corners]. *)
Definition sector_quad (alpha rin rout : Q) (k : nat) : list (list R) :=
  let a0 := INR k * (Q2R alpha / 36) in
  let a1 := INR (S k) * (Q2R alpha / 36) in
  [polar a0 (Q2R rin); polar a0 (Q2R rout); polar a1 (Q2R rin); polar a1 (Q2R rout)].

Lemma sector_cell_image alpha rin rout k :
  (0 < alpha)%Q -> (k < 36)%nat ->
  py_map mapping
    (box_corners ([(0 + inject_Z (Z.of_nat k) * ((alpha - 0) / inject_Z 36),
                    0 + inject_Z (Z.of_nat (S k)) * ((alpha - 0) / inject_Z 36))%Q] ++
                  [(rin + inject_Z (Z.of_nat 0) * ((rout - rin) / inject_Z 1),
                    rin + inject_Z (Z.of_nat 1) * ((rout - rin) / inject_Z 1))%Q]))
  = Ok (sector_quad alpha rin rout k).
Proof.
  intros Ha Hk. destruct (sector_cell_bounds alpha k Ha Hk) as [E1 E2].
  destruct (radial_cell_bounds rin rout) as [E3 E4].
  cbn [app box_corners map fst snd]. rewrite E1, E2, E3, E4. reflexivity.
Qed.

(** The points of the mapped reference domain: the hulls of the 36
    [sector_quad]s. *)
Lemma mem_sector_ref leaf_mem alpha rin rout p :
  (0 < alpha)%Q -> (rin < rout)%Q ->
  mem leaf_mem (MAP mapping (Cells (sector_ref alpha rin rout))) p <->
  exists k, (k < 36)%nat /\ in_hull (sector_quad alpha rin rout k) p.
Proof.
  intros Ha Hr. cbn [MAP mem vertex_cells]. rewrite Exists_map, Exists_exists. split.
  - intros (c & Hc & Hp). unfold sector_ref in Hc. apply In_cprod in Hc as (ca & cb & -> & Hca & Hcb).
    apply In_uniform in Hca as (k & Hk & ->); [|exact Ha].
    apply In_uniform in Hcb as (j & Hj & ->); [|exact Hr].
    change (Z.to_nat 36) with 36%nat in Hk. change (Z.to_nat 1) with 1%nat in Hj.
    replace j with 0%nat in * by lia. rewrite sector_cell_image in Hp by assumption. eauto.
  - intros (k & Hk & Hp). eexists. split.
    + unfold sector_ref. apply In_cprod. do 2 eexists. split; [reflexivity|].
      split; apply In_uniform; try assumption; [exists k | exists 0%nat]; split; try reflexivity; simpl; lia.
    + rewrite sector_cell_image by assumption. exact Hp.
Qed.

Lemma polar_norm a rho : nth 0 (polar a rho) 0 ^ 2 + nth 1 (polar a rho) 0 ^ 2 = rho ^ 2.
Proof. unfold polar. cbn [nth]. pose proof (sin2_cos2 (a * PI)) as H. unfold Rsqr in H. nra. Qed.

Lemma polar_upper a rho : 0 <= a <= 1 -> 0 <= rho -> 0 <= nth 1 (polar a rho) 0.
Proof.
  intros Ha Hr. unfold polar. cbn [nth]. apply Rmult_le_pos; [exact Hr|].
  pose proof PI_RGT_0. apply sin_ge_0; nra.
Qed.

(** [circular_sector(PI, R)] is the upper half disc of radius [R] as
    pyplasm draws it: its points are in the half disc, and both ends of
    its diameter are points of it. *)
Lemma circular_half_disc leaf_mem rad :
  (0 < rad)%Q ->
  exists cx, circular_sector 1 rad = Ok (MAP mapping (Cells cx)) /\
  (forall u v, mem leaf_mem (MAP mapping (Cells cx)) [u; v] -> u ^ 2 + v ^ 2 <= Q2R rad ^ 2 /\ 0 <= v) /\
  mem leaf_mem (MAP mapping (Cells cx)) [Q2R rad; 0] /\ mem leaf_mem (MAP mapping (Cells cx)) [- Q2R rad; 0].
Proof.
  intros HR. destruct (annulus_sector_domain 1 0 rad) as (cx & Hm & Heqv). exists cx. split; [exact Hm|].
  assert (Hmem : forall p, mem leaf_mem (MAP mapping (Cells cx)) p <->
                           exists k, (k < 36)%nat /\ in_hull (sector_quad 1 0 rad k) p)
    by (intros p; rewrite (mem_MAP_eqv _ _ _ _ p Heqv); apply mem_sector_ref; [reflexivity | exact HR]).
  pose proof (Qlt_Rlt _ _ HR) as HR'. rewrite Q2R_0 in HR'.
  assert (Hl : forall k, Forall (fun v => length v = 2%nat) (sector_quad 1 0 rad k))
    by (intros k; repeat constructor).
  split; [|split].
  - intros u v Hp. apply Hmem in Hp as (k & Hk & Hh). split.
    + change (nth 0 [u; v] 0 ^ 2 + nth 1 [u; v] 0 ^ 2 <= Q2R rad ^ 2).
      apply (in_hull_disc _ _ _ Hh); [simpl; lia|].
      unfold sector_quad; cbv zeta; repeat apply Forall_cons; try apply Forall_nil; rewrite polar_norm, ?Q2R_0; nra.
    + assert (Hk' : INR (S k) <= 36) by (replace 36 with (INR 36) by (simpl; ring); apply le_INR; lia).
      pose proof (pos_INR k). pose proof (S_INR k).
      enough (Hv : 0 <= lin [0; 1] [u; v]) by (rewrite lin_2 in Hv; cbn [nth] in Hv; lra).
      apply (in_hull_lin_ge _ _ _ _ Hh); [simpl; lia|].
      unfold sector_quad; cbv zeta; repeat apply Forall_cons; try apply Forall_nil; cbv beta; rewrite lin_2; cbn [nth]; rewrite ?Q2R_1, ?Q2R_0;
        match goal with |- context [polar ?a ?r] => assert (0 <= nth 1 (polar a r) 0) by (apply polar_upper; lra) end;
        unfold polar in *; cbn [nth] in *; lra.
  - apply Hmem. exists 0%nat. split; [lia|].
    replace [Q2R rad; 0] with (polar (INR 0 * (Q2R 1 / 36)) (Q2R rad))
      by (unfold polar; simpl INR; rewrite Rmult_0_l, Rmult_0_l, cos_0, sin_0; f_equal; [ring | f_equal; ring]).
    apply in_hull_In; [simpl; tauto | apply Hl].
  - apply Hmem. exists 35%nat. split; [lia|].
    replace [- Q2R rad; 0] with (polar (INR 36 * (Q2R 1 / 36)) (Q2R rad)).
    2:{ unfold polar. rewrite Q2R_1. replace (INR 36 * (1 / 36) * PI) with PI by (simpl; field).
        rewrite cos_PI, sin_PI. f_equal; [ring | f_equal; ring]. }
    apply in_hull_In; [simpl; tauto | apply Hl].
Qed.

(** C23: for [0 < alpha] and [r < R], [annulus_sector(alpha, r, R)]
    returns, without an exception, a mapped domain of 36 cells, and its
    points are what pyplasm draws: cell [k] is the convex hull of the
    images of the corners of [[k*alpha/36, (k+1)*alpha/36] x [r, R]],
    the polar points of those angles (times [PI]) and radii.  So the
    sector is the polygon through the 37 points at each radius, not the
    exact annulus. *)
Theorem annulus_sector_points (leaf_mem : hpc -> list R -> Prop) alpha rin rout :
  (0 < alpha)%Q -> (rin < rout)%Q ->
  exists cx, annulus_sector alpha rin rout = Ok (MAP mapping (Cells cx)) /\ length cx = 36%nat /\
  forall p, mem leaf_mem (MAP mapping (Cells cx)) p <->
            exists k, (k < 36)%nat /\ in_hull (sector_quad alpha rin rout k) p.
Proof.
  intros Ha Hr. destruct (annulus_sector_domain alpha rin rout) as (cx & Hm & Heqv).
  exists cx. split; [exact Hm|]. split.
  { rewrite (Forall2_length Heqv). apply length_sector_ref; assumption. }
  intros p. rewrite (mem_MAP_eqv _ _ _ _ p Heqv). apply mem_sector_ref; assumption.
Qed.

Lemma annulus_sector_points_witness :
  (0 < 1)%Q /\ (0 < 1.675)%Q /\
  exists cx, circular_sector 1 1.675 = Ok (MAP mapping (Cells cx)) /\ length cx = 36%nat /\
  mem (fun _ _ => True) (MAP mapping (Cells cx)) (polar 0 1.675).
Proof.
  split; [reflexivity | split; [reflexivity|]].
  destruct (annulus_sector_points (fun _ _ => True) 1 0 1.675 eq_refl eq_refl) as (cx & H1 & H2 & H3).
  exists cx. split; [exact H1 | split; [exact H2|]]. apply H3. exists 0%nat. split; [lia|].
  replace 0 with (INR 0 * (Q2R 1 / 36)) at 1 by (simpl; ring).
  apply in_hull_In; [simpl; tauto | repeat constructor].
Defined.
