(* ===== verification/Facade.v ===== *)
(** * Facade: the vertical enclosures of src/2013-04-05/python/exercise3.py

    Lines 35-63 build the four walls of the building, [north], [south],
    [east] and [west], each a [STRUCT] of [GRID]s of signed interval
    lists (a negative length is a hollow: a window or a door), and
    [vertical_enclosures], their [STRUCT].  This file holds those
    definitions, literal for literal, and checks the boxes they occupy:
    every wall is a slab 0.4 thick on its side of the building, all of
    them fit in the building's envelope and reach its top at 16.7, the
    boxes of the south, east and west walls never overlap, and the
    north wall's [north2] strip overlaps its [north0] frame.

    The checks are boolean functions on boxes, run by [vm_compute];
    [boxes_overlap_sound] says what a [false] means for the points of the
    boxes (no point strictly inside both). *)

From Stdlib Require Import List ZArith QArith Qminmax Qreals Reals Lra Lia.
From S2P Require Import Prelude Kernel Grid Scene Geometry.
Import ListNotations.
Local Open Scope Q_scope.

(** ** Python-level helpers *)

(** A [GRID] expression as a shape. *)
Definition GRID_ (seqs : list (list Q)) : res hpc := cx <- GRID seqs ;; Ok (Cells cx).

(** [STRUCT] of named shapes, each evaluated (and possibly raising) first. *)
Definition STRUCT_ (parts : list (res hpc)) : res hpc :=
  hs <- py_map (fun r => r) parts ;; Ok (STRUCT (map Obj hs)).

(** ** The data, lines 35-63 *)

Definition north0 := GRID_ [[-17.5; 0.4]; [0.4; -8; 1.4; -0.45; 0.4]; [-4; 12.7]].
Definition north1 := GRID_ [[-17.5; 0.4]; [-0.4; 8]; [-4; 2.15; -1.6; 2.15; -1.6; 2.15; -1.55; 1.5]].
Definition north2 := GRID_ [[-17.5; 0.4]; [-9.75; 0.5]; [-4; 0.5; -4; 0.5; -3.5; 0.5; -3.3; 0.4]].
Definition north := STRUCT_ [north0; north1; north2].

Definition south0 := GRID_ [[0.4]; [10.65]; [-4; -0.5; -3.2; 0.65; -3.2; 1.8; -1.85; 1.5]].
Definition south1 := GRID_ [[0.4]; [0.55; -1.3; 0.4; -8; 0.4]; [-4; 0.5; 3.2; -0.65; 3.2; -1.8; -1.85]].
Definition south2 := GRID_ [[0.4]; [0.2; -1.9; 0.2]; [-4; -0.5; -3.2; -0.65; -3.2; -1.8; 1.85]].
Definition south3 := GRID_ [[0.4]; [-0.55; -1.3; -0.4; 8]; [-4; 0.5]].
Definition south := STRUCT_ [south0; south1; south2; south3;
  Ok (T_ [2; 3]%nat [0.35 + 0.4 + 8; 4 + 0.5 + 3.2 + 0.65] (CUBOID [0.4; 1.5; 3.2]))].

Definition east0 := GRID_ [[-8.75; 0.4; -4; 4.75]; [0.4]; [-4; 12.7]].
Definition east1 := GRID_ [[8.75]; [0.4]; [-4; 9.35; -1.85; 1.5]].
Definition east2 := GRID_ [[-8.75; -0.4; 4]; [0.4]; [-4; 2.1; -1.6; 2.1; -1.6; 2.1; -1.6; 1.6]].
Definition east := STRUCT_ [east0; east1; east2].

Definition west0 := GRID_ [[17.9]; [-10.25; 0.4]; [-2.9; -0.9; 2.4; -1.6; 2.1; -1.6; 5.2]].
Definition west1 := GRID_ [[15.2]; [-10.25; 0.4]; [2.9]].
Definition west2 := GRID_ [[11.6; -0.9; 2.7]; [-10.25; 0.4]; [-2.9; 0.9]].
Definition west3 := GRID_ [[10; -4; 3.9]; [-10.25; 0.4]; [-2.9; -0.9; -2.4; 1.6]].
Definition west4 := GRID_ [[14.2; -0.2; 0.9; -0.2; 2.4]; [-10.25; 0.4]; [-2.9; -0.9; -2.4; -1.6; -2.1; 1.6]].
Definition west := STRUCT_ [west0; west1; west2; west3; west4].

Definition vertical_enclosures := STRUCT_ [north; south; east; west].

(** ** Checks on boxes *)

(** The boxes a shape expression occupies ([[]] if it raised). *)
Definition boxes_of (r : res hpc) : complex :=
  match r with Ok h => boxes h | Raise _ => [] end.

(** Two intervals share a segment of positive length. *)
Definition iv_overlap (a b : interval) : bool :=
  negb (Qle_bool (snd a) (fst b) || Qle_bool (snd b) (fst a)).

(** Two boxes of the same dimension share an open region. *)
Definition boxes_overlap (c1 c2 : cell) : bool :=
  (length c1 =? length c2)%nat && forallb (fun ab => iv_overlap (fst ab) (snd ab)) (combine c1 c2).

Fixpoint pairwise_disjoint (cx : complex) : bool :=
  match cx with
  | [] => true
  | c :: cx' => forallb (fun c' => negb (boxes_overlap c c')) cx' && pairwise_disjoint cx'
  end.

(** Every box lies in [env], axis by axis. *)
Definition inside (env : cell) (cx : complex) : bool :=
  forallb (fun c => (length c =? length env)%nat &&
                    forallb (fun ab => Qle_bool (fst (snd ab)) (fst (fst ab)) &&
                                       Qle_bool (snd (fst ab)) (snd (snd ab))) (combine c env)) cx.

(** Every box spans exactly [[lo, hi]] along [axis] (0-based). *)
Definition slab (axis : nat) (lo hi : Q) (cx : complex) : bool :=
  forallb (fun c => let iv := nth axis c (0, 0) in Qeq_bool (fst iv) lo && Qeq_bool (snd iv) hi) cx.

(** The largest upper bound along [axis]. *)
Definition top (axis : nat) (cx : complex) : Q :=
  fold_left (fun m c => Qmax m (snd (nth axis c (0, 0)))) cx 0.

(** ** What a [false] overlap test means *)

Definition strictly_in_box (c : cell) (p : list R) : Prop :=
  Forall2 (fun iv x => (Q2R (fst iv) < x < Q2R (snd iv))%R) c p.

Lemma iv_overlap_sound a b x :
  iv_overlap a b = false -> (Q2R (fst a) < x < Q2R (snd a))%R -> ~ (Q2R (fst b) < x < Q2R (snd b))%R.
Proof.
  unfold iv_overlap. intros H Ha Hb. apply Bool.negb_false_iff, Bool.orb_true_iff in H.
  destruct H as [H | H]; apply Qle_bool_iff, Qle_Rle in H; lra.
Qed.

(** Boxes of one dimension that the test finds apart have no point
    strictly inside both. *)
Lemma boxes_overlap_sound c1 c2 p :
  length c1 = length c2 -> boxes_overlap c1 c2 = false ->
  strictly_in_box c1 p -> ~ strictly_in_box c2 p.
Proof.
  unfold boxes_overlap. intros Hlen Hov H1 H2. rewrite Hlen, Nat.eqb_refl in Hov. simpl in Hov.
  revert c2 Hlen Hov H2. induction H1 as [|a x c1 p Ha H1 IH]; intros c2 Hlen Hov H2.
  - discriminate.
  - inversion H2 as [|b ? c2' ? Hb H2']; subst. simpl in Hov.
    destruct (iv_overlap a b) eqn:E; simpl in Hov.
    + apply (IH c2'); [simpl in Hlen; lia | exact Hov | exact H2'].
    + exact (iv_overlap_sound a b x E Ha Hb).
Qed.

Lemma strictly_in_box_length c p : strictly_in_box c p -> length c = length p.
Proof. apply Forall2_length. Qed.

(** A [false] overlap test separates the boxes whatever their order. *)
Lemma boxes_apart c1 c2 p :
  boxes_overlap c1 c2 = false -> ~ (strictly_in_box c1 p /\ strictly_in_box c2 p).
Proof.
  intros Hov [H1 H2]. apply (boxes_overlap_sound c1 c2 p); auto.
  rewrite (strictly_in_box_length _ _ H1), (strictly_in_box_length _ _ H2). reflexivity.
Qed.

Lemma pairwise_disjoint_nth cx i j c1 c2 :
  pairwise_disjoint cx = true -> (i < j)%nat ->
  nth_error cx i = Some c1 -> nth_error cx j = Some c2 -> boxes_overlap c1 c2 = false.
Proof.
  revert i j. induction cx as [|c cx IH]; intros i j Hd Hij Hi Hj; [destruct i; discriminate|].
  simpl in Hd. apply andb_true_iff in Hd as [Hhd Htl].
  destruct i as [|i], j as [|j]; simpl in Hi, Hj; try lia.
  - injection Hi as <-. rewrite forallb_forall in Hhd.
    apply Bool.negb_true_iff, Hhd. eapply nth_error_In; eassumption.
  - apply (IH i j); auto; lia.
Qed.

(** Two different boxes of a pairwise disjoint complex share no interior point. *)
Lemma pairwise_disjoint_sound cx i j c1 c2 p :
  pairwise_disjoint cx = true -> i <> j ->
  nth_error cx i = Some c1 -> nth_error cx j = Some c2 ->
  ~ (strictly_in_box c1 p /\ strictly_in_box c2 p).
Proof.
  intros Hd Hij Hi Hj. destruct (Nat.lt_gt_cases i j) as [[Hlt | Hlt] _]; [lia | |].
  - apply boxes_apart. exact (pairwise_disjoint_nth cx i j c1 c2 Hd Hlt Hi Hj).
  - intros [H1 H2]. apply (boxes_apart c2 c1 p); [|tauto].
    exact (pairwise_disjoint_nth cx j i c2 c1 Hd Hlt Hj Hi).
Qed.

(** ** Properties of the walls *)

(** C18: every wall of the building is a slab 0.4 thick on its own side,
    box by box: [north] spans x in [17.5, 17.9], [south] x in [0, 0.4],
    [east] y in [0, 0.4] and [west] y in [10.25, 10.65]; the enclosures
    lie in the envelope [0, 17.9] x [0, 10.65] x [0, 16.7], and each of
    the four walls reaches its top, z = 16.7. *)
Theorem walls_extent :
  slab 0 17.5 17.9 (boxes_of north) = true /\ slab 0 0 0.4 (boxes_of south) = true /\
  slab 1 0 0.4 (boxes_of east) = true /\ slab 1 10.25 10.65 (boxes_of west) = true /\
  inside [(0, 17.9); (0, 10.65); (0, 16.7)] (boxes_of vertical_enclosures) = true /\
  Forall (fun w => top 2 (boxes_of w) == 16.7) [north; south; east; west].
Proof.
  split; [vm_compute; reflexivity|]. split; [vm_compute; reflexivity|].
  split; [vm_compute; reflexivity|]. split; [vm_compute; reflexivity|].
  split; [vm_compute; reflexivity | repeat constructor; vm_compute; reflexivity].
Qed.

(** C19: within the south, east and west walls no two boxes share an
    interior point: the grids and the extra cuboid of [south] tile each
    wall without overlap. *)
Theorem walls_disjoint w i j c1 c2 p :
  In w [south; east; west] -> i <> j ->
  nth_error (boxes_of w) i = Some c1 -> nth_error (boxes_of w) j = Some c2 ->
  ~ (strictly_in_box c1 p /\ strictly_in_box c2 p).
Proof.
  intros Hw. apply pairwise_disjoint_sound.
  destruct Hw as [<- | [<- | [<- | []]]]; vm_compute; reflexivity.
Qed.

(** C20: the north wall does overlap itself: a box of the strip [north2]
    (y in [9.75, 10.25]) shares an open region with a box of the frame
    [north0] (y in [8.4, 9.8]), and the wall as a whole is not pairwise
    disjoint. *)
Theorem north_overlap :
  existsb (fun c0 => existsb (boxes_overlap c0) (boxes_of north2)) (boxes_of north0) = true /\
  pairwise_disjoint (boxes_of north) = false.
Proof. vm_compute. split; reflexivity. Qed.

Lemma walls_disjoint_witness :
  ~ (strictly_in_box (nth 0 (boxes_of south) []) [0; 0; 0]%R /\
     strictly_in_box (nth 1 (boxes_of south) []) [0; 0; 0]%R).
Proof.
  apply (walls_disjoint south 0 1); [simpl; auto | discriminate | vm_compute; reflexivity | vm_compute; reflexivity].
Defined.
