(* ===== verification/Pillars.v ===== *)
(** * Pillars: the pillars of src/2013-04-05/python/exercise3.py

    Lines 71-91 place the pillars of the four storeys.  Each storey is a
    [STRUCT] of a list built with [NN] (pyplasm's list repetition) in
    which translations [T([1])([4.375])] alternate with pillars: by the
    rule of [STRUCT], each translation moves everything after it, so the
    pillars march along the x axis.  The storeys are stacked by
    [T([3])([4])] in [pillars].

    Rounded pillars are cylinders, an opaque primitive of the kernel;
    [hull] replaces a cylinder by its bounding box (a cylinder of radius
    [r] and height [h] is centred on the z axis, pyplasm's convention), so
    the theorems below on boxes hold a fortiori for the solids. *)

From Stdlib Require Import String List ZArith QArith Qreals Reals Lia.
From S2P Require Import Prelude Kernel Scene Facade.
Import ListNotations.
Local Open Scope Q_scope.

(** pyplasm's [NN(n)(l)]: the list [l] repeated [n] times. *)
Definition NN {A} (n : nat) (l : list A) : list A := concat (repeat l n).

(** [CYLINDER([r, h])(n)]: a cylinder approximated by an [n]-gon. *)
Definition CYLINDER (rh : list Q) (n : Z) : hpc := Prim "CYLINDER"%string (rh ++ [inject_Z n]).

(** ** The data, lines 71-91 *)

Definition roundedPillar := T_ [1; 2]%nat [0.2; 0.2] (CYLINDER [0.2; 4] 12).
Definition squaredPillar := CUBOID [0.4; 0.4; 4].
Definition smallPillar := CUBOID [0.25; 0.25; 4].

Definition pillars0South : list item := NN 5 [Obj roundedPillar; Fn (T_ [1]%nat [4.375])].
Definition pillars0North : list item :=
  [Fn (T_ [2]%nat [8.35]); Obj roundedPillar] ++ NN 4 [Fn (T_ [1]%nat [4.375]); Obj squaredPillar].
Definition pillars0 := STRUCT (pillars0South ++ [Fn (T_ [1]%nat [-4.375 * 5])] ++ pillars0North).

Definition pillars1South : list item := NN 5 [Obj squaredPillar; Fn (T_ [1]%nat [4.375])].
Definition pillars1North : list item :=
  [Fn (T_ [2]%nat [8.35])] ++ NN 3 [Obj squaredPillar; Fn (T_ [1]%nat [4.375])] ++
  [Obj roundedPillar; Fn (T_ [1]%nat [4.375]); Obj squaredPillar].
Definition pillars1 := STRUCT (pillars1South ++ [Fn (T_ [1]%nat [-4.375 * 5])] ++ pillars1North).

Definition pillars2South : list item :=
  NN 2 [Obj squaredPillar; Fn (T_ [1]%nat [4.375])] ++ [Fn (T_ [1]%nat [4.375 * 2]); Obj squaredPillar].
Definition pillars2North : list item :=
  [Fn (T_ [2]%nat [8.35])] ++ NN 5 [Obj squaredPillar; Fn (T_ [1]%nat [4.375])].
Definition pillars2 := STRUCT (pillars2South ++ [Fn (T_ [1]%nat [-17.5])] ++ pillars2North).

Definition pillars3South : list item :=
  [Fn (T_ [1]%nat [4.375 * 2]); Obj squaredPillar; Fn (T_ [1]%nat [4.375 * 2]); Obj squaredPillar].
Definition pillars3North : list item :=
  [Fn (T_ [2]%nat [8.35]); Obj (T_ [1; 2]%nat [0.075; 0.075] smallPillar);
   Obj (T_ [1; 2]%nat [4.45; 0.075] smallPillar); Fn (T_ [1]%nat [4.375 * 2])] ++
  NN 3 [Obj squaredPillar; Fn (T_ [1]%nat [4.375])].
Definition pillars3 := STRUCT (pillars3South ++ [Fn (T_ [1]%nat [-17.5])] ++ pillars3North).

Definition pillars := STRUCT [Obj pillars0; Fn (T_ [3]%nat [4]); Obj pillars1; Fn (T_ [3]%nat [4]);
                              Obj pillars2; Fn (T_ [3]%nat [4]); Obj pillars3].

(** ** Bounding boxes *)

(** The boxes of a scene, a cylinder counted by its bounding box. *)
Fixpoint hull (h : hpc) : complex :=
  match h with
  | Cells cx => cx
  | Prim name (r :: ht :: _) =>
      if String.eqb name "CYLINDER" then [[(- r, r); (- r, r); (0, ht)]] else []
  | Struct items => flat_map hull items
  | Trans axes vals h' => T axes vals (hull h')
  | _ => []
  end.

(** ** The structural grid *)

(** Columns at x = 4.375 i (i <= 4), rows at y = 0 and y = 8.35, storeys
    of height 4. *)
Definition columns : list Q := map (fun i => 4.375 * inject_Z (Z.of_nat i)) (seq 0 5).
Definition rows : list Q := [0; 8.35].
Definition storey_z (k : nat) : Q := 4 * inject_Z (Z.of_nat k).

(** The 0.4 x 0.4 square bay of column [x], row [y], storey [k]. *)
Definition bay (x y : Q) (k : nat) : cell := [(x, x + 0.4); (y, y + 0.4); (storey_z k, storey_z k + 4)].

(** A box stands in a bay of the grid and spans its storey's height. *)
Definition on_grid (c : cell) : bool :=
  existsb (fun k => let z := nth 2 c (0, 0) in
                    Qeq_bool (fst z) (storey_z k) && Qeq_bool (snd z) (storey_z k + 4) &&
                    existsb (fun x => existsb (fun y => inside (bay x y k) [c]) rows) columns)
          (seq 0 4).

(** C21: no two pillars of the building share an interior point: within a
    storey the translations of the pillar lists keep them apart, and the
    storeys are stacked by [T([3])([4])] onto each other. *)
Theorem pillars_disjoint i j c1 c2 p :
  i <> j -> nth_error (hull pillars) i = Some c1 -> nth_error (hull pillars) j = Some c2 ->
  ~ (strictly_in_box c1 p /\ strictly_in_box c2 p).
Proof. apply pairwise_disjoint_sound. vm_compute. reflexivity. Qed.

(** C22: every pillar stands in a 0.4 x 0.4 bay of the grid of columns
    x = 0, 4.375, ..., 17.5 and rows y = 0, 8.35 and spans its whole
    storey; the four storeys have 10, 10, 8 and 7 pillars. *)
Theorem pillars_on_grid :
  forallb on_grid (hull pillars) = true /\
  map (fun h => length (hull h)) [pillars0; pillars1; pillars2; pillars3] = [10; 10; 8; 7]%nat.
Proof. vm_compute. split; reflexivity. Qed.


Lemma pillars_disjoint_witness :
  ~ (strictly_in_box (nth 0 (hull pillars) []) [0; 0; 0]%R /\
     strictly_in_box (nth 1 (hull pillars) []) [0; 0; 0]%R).
Proof. apply (pillars_disjoint 0 1); [discriminate | vm_compute; reflexivity | vm_compute; reflexivity]. Defined.
