(* ===== verification/Floors.v ===== *)
(** * Floors: the floor slabs, the ground and the building,
      src/2013-04-05/python/exercise3.py, lines 94-122

    The ground floor [floor0] is the extrusion of a plan made of three
    [DOMAIN] rectangles and two half discs ([circular_sector(PI, r)]
    turned by [R([1,2])] and placed by [T([1,2])]); [floor21] is the
    extrusion of an [MKPOL] triangle.  pyplasm's [EXTRUDE] is a library
    operator of which no behaviour is given here: it is the variable of
    [Section Extrusions], so [floor0], [floor2], [floors] and [building]
    are modelled for whatever solid it makes of its arguments.  The other
    slabs are [GRID]s and [CUBOID]s lifted by [T([3])] to their storey;
    [ground] is a [CUBOID] of negative height, and [floors] shifts them
    all by [T([2])([.4])].

    [floors_slabs] places the box slabs: each storey's slab is 0.5 thick
    at the base of that storey's pillars (the [storey_z] of [Pillars]),
    the roof [floor4] is flush with the top of the walls of [Facade], and
    the ground is a sheet just below z = 0.  [plan_half_discs] describes
    the rounded ends of the ground floor plan over the real point
    semantics: [floor01] is the half disc on the right edge of the
    rectangle [floor00], [floor04] the half disc under the bottom edge
    of [floor03], each passing through the corners of its edge; both are
    the 36-gons pyplasm draws ([Sector.circular_half_disc]), which lie
    inside the exact half discs. *)

From Stdlib Require Import List ZArith QArith Qreals Reals Lra Lia.
From S2P Require Import Prelude Kernel Grid Scene Geometry Sector Facade Pillars.
Import ListNotations.
Local Open Scope Q_scope.

(** [DOMAIN(dims)(divs)] used as a shape. *)
Definition DOMAIN_ (dims : list (list Q)) (divs : list Z) : res hpc :=
  f <- DOMAIN dims ;; cx <- f divs ;; Ok (Cells cx).

(** ** The plan of the ground floor, lines 94-98 *)

Definition floor00 : res hpc := DOMAIN_ [[2.7; 15.1]; [6.5; 9.85]] [1; 1]%Z.
Definition floor01 : res hpc :=
  m <- circular_sector 1 1.675 ;; Ok (T_ [1; 2]%nat [15.1; 9.85 - 1.675] (R_ [1; 2]%nat (-1 / 2) m)).
Definition floor02 : res hpc := DOMAIN_ [[2.7; 13.125]; [3.7; 6.5]] [1; 1]%Z.
Definition floor03 : res hpc := DOMAIN_ [[2.7; 3.8]; [2.6; 3.7]] [1; 1]%Z.
Definition floor04 : res hpc :=
  m <- circular_sector 1 0.55 ;; Ok (T_ [1; 2]%nat [3.25; 2.6] (R_ [1; 2]%nat 1 m)).

(** ** The slabs of the upper storeys, lines 101-114 *)

Definition floor10 : res hpc := g <- GRID_ [[4; -7.3; 8.2]; [1.7]; [0.5]] ;; Ok (T_ [1; 2; 3]%nat [-1.6; 8.2; 4] g).
Definition floor11 : hpc := T_ [3]%nat [4] (CUBOID [17.9; 8.2; 0.5]).
Definition floor1 : res hpc := STRUCT_ [floor10; Ok floor11].

Definition floor20 : res hpc := g <- GRID_ [[-7.5; 1.3; 4.375; 4.7]; [1.7]; [0.5]] ;; Ok (T_ [2; 3]%nat [8.2; 8] g).
Definition floor22 : hpc := T_ [1; 3]%nat [8.8; 8] (CUBOID [9.085; 8.2; 0.5]).

Definition floor30 : res hpc := g <- GRID_ [[9.15; -4.85; 3.5]; [1.5]; [0.5]] ;; Ok (T_ [2; 3]%nat [8.75; 12] g).
Definition floor31 : hpc := T_ [3]%nat [12] (CUBOID [17.5; 8.75; 0.5]).
Definition floor3 : res hpc := STRUCT_ [floor30; Ok floor31].

Definition floor4 : hpc := T_ [3]%nat [15.95] (CUBOID [17.9; 10; 0.75]).

(** Line 116: a green sheet under the building. *)
Definition ground : hpc := T_ [1; 2]%nat [-6; -4] (COLOR [0; 1; 0] (CUBOID [30; 18; -0.1])).

Section Extrusions.
(** pyplasm's [EXTRUDE([n, shape, h])]. *)
Variable EXTRUDE : Z -> hpc -> Q -> hpc.

(** Line 99. *)
Definition floor0 : res hpc :=
  plan <- STRUCT_ [floor00; floor01; floor02; floor03; floor04] ;; Ok (EXTRUDE 3 plan 0.3).

(** Line 106: a triangle extruded and lifted to the second storey. *)
Definition floor21 : hpc :=
  T_ [3]%nat [8] (EXTRUDE 3 (MKPOL_ [[7.5; 8.2]; [8.8; 8.2]; [8.8; 0.4]]%R [[1; 2; 3]%nat]) 0.5).
Definition floor2 : res hpc := STRUCT_ [floor20; Ok floor21; Ok floor22].

(** Line 117. *)
Definition floors : res hpc :=
  s <- STRUCT_ [floor0; floor1; floor2; floor3; Ok floor4; Ok ground] ;; Ok (T_ [2]%nat [0.4] s).

(** Line 122. *)
Definition building : res hpc := STRUCT_ [Ok pillars; floors; vertical_enclosures].
End Extrusions.

(** ** The box slabs *)

(** C31: the box slabs of the floors lie at the storey levels: the slabs
    of storeys 1, 2 and 3 ([floor1], the [GRID] and [CUBOID] of [floor2],
    [floor3]) span z in [[4k, 4k + 0.5]], from the base [storey_z k] of
    that storey's pillars; the roof [floor4] spans [[15.95, 16.7]], its
    top level with the top of the walls; the ground spans [[-0.1, 0]]. *)
Theorem floors_slabs :
  Forall2 (fun r k => slab 2 (storey_z k) (storey_z k + 0.5) (boxes_of r) = true)
          [floor1; floor20; Ok floor22; floor3] [1; 2; 2; 3]%nat /\
  slab 2 15.95 16.7 (boxes_of (Ok floor4)) = true /\
  top 2 (boxes_of (Ok floor4)) == top 2 (boxes_of vertical_enclosures) /\
  slab 2 (-0.1) 0 (boxes_of (Ok ground)) = true.
Proof. split; [repeat constructor; vm_compute; reflexivity | vm_compute; repeat split]. Qed.

(** ** The rounded end of the ground floor plan *)

Section Plan.
Variable leaf_mem : hpc -> list R -> Prop.

Lemma list2_eq (a b a' b' : R) : a = a' -> b = b' -> [a; b] = [a'; b'].
Proof. intros -> ->. reflexivity. Qed.

Lemma mem_placed_map a b th m x y :
  mem leaf_mem (T_ [1; 2]%nat [a; b] (R_ [1; 2]%nat th m)) [x; y] <->
  mem leaf_mem m (rotate 1 2 (- angle_rad th) [x - Q2R a; y - Q2R b]%R).
Proof. reflexivity. Qed.

Lemma rotate_12 t u v : rotate 1 2 t [u; v] = [cos t * u - sin t * v; sin t * u + cos t * v]%R.
Proof. reflexivity. Qed.

Lemma cos_sin_neg_quarter : cos (- angle_rad (-1 / 2)) = 0%R /\ sin (- angle_rad (-1 / 2)) = 1%R.
Proof.
  unfold angle_rad. replace (- (Q2R (-1 / 2) * PI))%R with (PI / 2)%R by (unfold Q2R; simpl; field).
  rewrite cos_PI2, sin_PI2. split; reflexivity.
Qed.

Lemma cos_sin_neg_half : cos (- angle_rad 1) = (-1)%R /\ sin (- angle_rad 1) = 0%R.
Proof.
  unfold angle_rad. rewrite Q2R_1, Rmult_1_l, cos_neg, sin_neg, cos_PI, sin_PI. split; [reflexivity | ring].
Qed.

Lemma angle_rad_1 : angle_rad 1 = PI.
Proof. unfold angle_rad. rewrite Q2R_1. ring. Qed.

(** [floor01] is the half disc right of x = 15.1, of diameter
    (15.1, 6.5)-(15.1, 9.85). *)
Lemma floor01_half_disc :
  exists h, floor01 = Ok h /\
  (forall x y, mem leaf_mem h [x; y] -> (15.1 <= x /\ (x - 15.1) ^ 2 + (y - 8.175) ^ 2 <= 1.675 ^ 2)%R) /\
  mem leaf_mem h [15.1; 6.5]%R /\ mem leaf_mem h [15.1; 9.85]%R.
Proof.
  destruct (circular_half_disc leaf_mem 1.675 eq_refl) as (cx & Hm & Hd & Hc1 & Hc2).
  exists (T_ [1; 2]%nat [15.1; 9.85 - 1.675] (R_ [1; 2]%nat (-1 / 2) (MAP mapping (Cells cx)))).
  split; [unfold floor01; rewrite Hm; reflexivity|].
  destruct cos_sin_neg_quarter as [Hc Hs].
  assert (Hb : Q2R (9.85 - 1.675) = 8.175%R) by (unfold Q2R; simpl; field).
  split; [|split]; [intros x y|..]; rewrite mem_placed_map, rotate_12, Hc, Hs, Hb.
  - intros Hp. apply Hd in Hp as [H1 H2]. unfold Q2R in *; simpl in *. split; nra.
  - replace [_; _] with [Q2R 1.675; 0%R]; [exact Hc1 | apply list2_eq; unfold Q2R; simpl; lra].
  - replace [_; _] with [(- Q2R 1.675)%R; 0%R]; [exact Hc2 | apply list2_eq; unfold Q2R; simpl; lra].
Qed.

(** [floor04] is the half disc below y = 2.6, of diameter
    (2.7, 2.6)-(3.8, 2.6). *)
Lemma floor04_half_disc :
  exists h, floor04 = Ok h /\
  (forall x y, mem leaf_mem h [x; y] -> (y <= 2.6 /\ (x - 3.25) ^ 2 + (y - 2.6) ^ 2 <= 0.55 ^ 2)%R) /\
  mem leaf_mem h [2.7; 2.6]%R /\ mem leaf_mem h [3.8; 2.6]%R.
Proof.
  destruct (circular_half_disc leaf_mem 0.55 eq_refl) as (cx & Hm & Hd & Hc1 & Hc2).
  exists (T_ [1; 2]%nat [3.25; 2.6] (R_ [1; 2]%nat 1 (MAP mapping (Cells cx)))).
  split; [unfold floor04; rewrite Hm; reflexivity|].
  destruct cos_sin_neg_half as [Hc Hs].
  split; [|split]; [intros x y|..]; rewrite mem_placed_map, rotate_12, Hc, Hs.
  - intros Hp. apply Hd in Hp as [H1 H2]. unfold Q2R in *; simpl in *. split; nra.
  - replace [_; _] with [Q2R 0.55; 0%R]; [exact Hc1 | apply list2_eq; unfold Q2R; simpl; lra].
  - replace [_; _] with [(- Q2R 0.55)%R; 0%R]; [exact Hc2 | apply list2_eq; unfold Q2R; simpl; lra].
Qed.

(** C32: the two rounded ends of the ground floor plan are half discs
    whose diameters are edges of the plan's rectangles: [floor01] lies
    right of the edge x = 15.1 of [floor00] = [[2.7, 15.1] x [6.5, 9.85]],
    within 1.675 of its midpoint, and passes through both of its corners;
    [floor04] lies below the edge y = 2.6 of [floor03] =
    [[2.7, 3.8] x [2.6, 3.7]], within 0.55 of its midpoint, and passes
    through both of its corners. *)
Theorem plan_half_discs :
  complex_eqv (boxes_of floor00) [[(2.7, 15.1); (6.5, 9.85)]] /\
  complex_eqv (boxes_of floor03) [[(2.7, 3.8); (2.6, 3.7)]] /\
  (exists h, floor01 = Ok h /\
   (forall x y, mem leaf_mem h [x; y] -> (15.1 <= x /\ (x - 15.1) ^ 2 + (y - 8.175) ^ 2 <= 1.675 ^ 2)%R) /\
   mem leaf_mem h [15.1; 6.5]%R /\ mem leaf_mem h [15.1; 9.85]%R) /\
  (exists h, floor04 = Ok h /\
   (forall x y, mem leaf_mem h [x; y] -> (y <= 2.6 /\ (x - 3.25) ^ 2 + (y - 2.6) ^ 2 <= 0.55 ^ 2)%R) /\
   mem leaf_mem h [2.7; 2.6]%R /\ mem leaf_mem h [3.8; 2.6]%R).
Proof.
  split; [vm_compute; repeat constructor|]. split; [vm_compute; repeat constructor|].
  exact (conj floor01_half_disc floor04_half_disc).
Qed.
End Plan.
