(* ===== verification/Outline.v ===== *)
(** * Outline: when the curves of a drawing form one closed outline

    A drawing is known here by the end points of its curves, a list of
    pairs [(start, end)] of points with rational coordinates, points being
    equal when their coordinates are ([pt_eqb], up to [Qeq]).

    [closed_outline] is the executable check the car's views are run
    through: every end point is the end of exactly two curves ([degree])
    and every end point can be reached from the first one along curves
    ([connected], which explores the curves in as many rounds as there
    are curves, [reach]).  [linked] is the reachability it stands for, as
    an inductive relation; [closed_outline_sound] shows that a drawing
    the check accepts has both properties as propositions. *)

From Stdlib Require Import List Arith QArith Lia Setoid Morphisms.
From S2P Require Import Prelude.
Import ListNotations.
Local Open Scope Q_scope.

Abbreviation point := (list Q).
Abbreviation drawing := (list (point * point)).

Definition pt_eqb (p q : point) : bool :=
  (length p =? length q)%nat && forallb (fun ab => Qeq_bool (fst ab) (snd ab)) (combine p q).

Definition endpoints (es : drawing) : list point := flat_map (fun e => [fst e; snd e]) es.

(** How many curve ends lie at [p]. *)
Definition degree (es : drawing) (p : point) : nat := length (filter (pt_eqb p) (endpoints es)).

(** A curve meets the points [r]. *)
Definition touches (r : list point) (e : point * point) : bool :=
  existsb (pt_eqb (fst e)) r || existsb (pt_eqb (snd e)) r.

(** One round: add both ends of every curve that meets [r]. *)
Definition step (es : drawing) (r : list point) : list point :=
  r ++ flat_map (fun e => if touches r e then [fst e; snd e] else []) es.

(** The end points reachable from [r] along curves, in [fuel] rounds. *)
Fixpoint reach (fuel : nat) (es : drawing) (r : list point) : list point :=
  match fuel with
  | O => r
  | S f => reach f es (step es r)
  end.

(** All end points are reachable from the first one. *)
Definition connected (es : drawing) : bool :=
  match es with
  | [] => true
  | e :: _ => let r := reach (length es) es [fst e] in forallb (fun p => existsb (pt_eqb p) r) (endpoints es)
  end.

(** A drawing whose curves join two by two at every end point into one
    connected figure: a single closed outline. *)
Definition closed_outline (es : drawing) : bool :=
  forallb (fun p => degree es p =? 2)%nat (endpoints es) && connected es.

(** Reachability along the curves of [es], from [a]. *)
Inductive linked (es : drawing) (a : point) : point -> Prop :=
| linked_here : linked es a a
| linked_eqv p q : linked es a p -> pt_eqb p q = true -> linked es a q
| linked_fwd e : In e es -> linked es a (fst e) -> linked es a (snd e)
| linked_bwd e : In e es -> linked es a (snd e) -> linked es a (fst e).

(** ** Point equality *)

Lemma pt_eqb_cons x y p q : pt_eqb (x :: p) (y :: q) = Qeq_bool x y && pt_eqb p q.
Proof.
  unfold pt_eqb. cbn [length combine forallb fst snd Nat.eqb].
  destruct (length p =? length q)%nat, (Qeq_bool x y); reflexivity.
Qed.

Lemma pt_eqb_spec p q : pt_eqb p q = true <-> Forall2 Qeq p q.
Proof.
  revert q. induction p as [|x p IH]; intros [|y q].
  - split; constructor.
  - split; intros H; [discriminate | inversion H].
  - split; intros H; [discriminate | inversion H].
  - rewrite pt_eqb_cons, andb_true_iff, Qeq_bool_iff, IH.
    split; [intros [H1 H2]; constructor; assumption | intros H; inversion H; subst; split; assumption].
Qed.

Lemma pt_eqb_sym p q : pt_eqb p q = true -> pt_eqb q p = true.
Proof.
  rewrite !pt_eqb_spec. induction 1; constructor; [symmetry|]; assumption.
Qed.

Lemma pt_eqb_trans p q s : pt_eqb p q = true -> pt_eqb q s = true -> pt_eqb p s = true.
Proof.
  rewrite !pt_eqb_spec. intros H. revert s.
  induction H as [|x y p q Hxy _ IH]; intros s Hs; inversion Hs; subst; constructor;
    [etransitivity|apply IH]; eassumption.
Qed.

(** Point equality as a relation, an equivalence. *)
Definition pt_eqv (p q : point) : Prop := pt_eqb p q = true.

#[export] Instance pt_eqv_equiv : Equivalence pt_eqv.
Proof.
  unfold pt_eqv. split.
  - intros p. apply pt_eqb_spec, Forall2_diag, Forall_forall. intros x _. reflexivity.
  - intros p q. apply pt_eqb_sym.
  - intros p q s. apply pt_eqb_trans.
Qed.

(** ** What the check means *)

Lemma linked_existsb es a r q :
  Forall (linked es a) r -> existsb (pt_eqb q) r = true -> linked es a q.
Proof.
  intros Hr Hq. apply existsb_exists in Hq as (x & Hx & Hqx).
  apply (linked_eqv _ _ x); [exact (proj1 (Forall_forall _ _) Hr x Hx)|].
  change (pt_eqv x q). symmetry. exact Hqx.
Qed.

Lemma step_linked es a r : Forall (linked es a) r -> Forall (linked es a) (step es r).
Proof.
  intros Hr. unfold step. apply Forall_app. split; [exact Hr|].
  apply Forall_forall. intros q Hq. apply in_flat_map in Hq as (e & He & Hq).
  destruct (touches r e) eqn:Ht; [|destruct Hq].
  unfold touches in Ht. apply orb_true_iff in Ht as [Ht | Ht].
  - assert (H1 : linked es a (fst e)) by exact (linked_existsb es a r _ Hr Ht).
    destruct Hq as [<- | [<- | []]]; [exact H1 | exact (linked_fwd _ _ e He H1)].
  - assert (H2 : linked es a (snd e)) by exact (linked_existsb es a r _ Hr Ht).
    destruct Hq as [<- | [<- | []]]; [exact (linked_bwd _ _ e He H2) | exact H2].
Qed.

Lemma reach_linked f es a r : Forall (linked es a) r -> Forall (linked es a) (reach f es r).
Proof. revert r. induction f as [|f IH]; intros r Hr; [exact Hr | apply IH, step_linked, Hr]. Qed.

(** A drawing that passes [closed_outline] is a closed outline: every end
    point is the end of exactly two curves and is reachable along curves
    from the start of the first curve. *)
Lemma closed_outline_sound es :
  closed_outline es = true ->
  forall p, In p (endpoints es) -> degree es p = 2%nat /\ linked es (fst (hd ([], []) es)) p.
Proof.
  destruct es as [|e0 es']; [intros _ p []|].
  unfold closed_outline, connected. intros H p Hp. apply andb_prop in H as [Hdeg Hcon].
  split.
  - apply Nat.eqb_eq. exact (proj1 (forallb_forall _ _) Hdeg p Hp).
  - apply (linked_existsb _ _ (reach (length (e0 :: es')) (e0 :: es') [fst e0])).
    + apply reach_linked. repeat constructor.
    + exact (proj1 (forallb_forall _ _) Hcon p Hp).
Qed.
