(* ===== verification/Car.v ===== *)
(** * Car: the 2D drawings of the car, src/2013-05-10/python/exercise3.py

    Lines 66-116 draw the car in three views: the side ([side]), the top
    ([up]) and the back and front ([back], [front]).  Each view is a
    [STRUCT] of curves: polylines, Bezier curves mapped over [domain1D],
    and uniform cubic B-splines, whose control points are literals or are
    built with [AAPOINTS] and [MIRROR].  Python floats are exact
    rationals here ([2/3.] is [2/3]).

    A curve is known by where it starts and ends ([curve_ends]): a
    polyline and a Bezier curve start at their first and end at their last
    control point; the uniform cubic B-spline of [P0 ... Pn] starts at
    [(P0 + 4 P1 + P2) / 6] and ends at [(Pn-2 + 4 Pn-1 + Pn) / 6], which
    is why the scripts triple their first and last control points.
    [ends] collects the end points of every curve of a view, after the
    translations of its [STRUCT]s.

    The theorems say that the views are closed drawings ([Outline]): in
    the side and top views every end point is shared by exactly two curve
    ends and is reachable along the curves from the first one, so they
    join into a single closed outline; the back and front splines end
    where they start.

    [exercise2] (line 118) assembles the four views in 3D with [T] and
    quarter turns [R(...)(PI/2)].  [placed] follows the control points
    through them (and through the scalings [S] of the wheels' placement
    in [Assembly]), rotating exactly on rationals ([qrotate], equal to
    [Geometry.rotate] over the reals by [qrotate_rotate]) and giving a 2D
    shape the zero coordinates a higher axis needs, as pyplasm does; the
    last theorem puts each view in its coordinate plane. *)

From Stdlib Require Import String List ZArith QArith Qreals Reals Lra Lia.
From S2P Require Import Prelude PointOps Mirror Kernel Scene Geometry Outline.
Import ListNotations.
Local Open Scope Q_scope.

Definition POLYLINE_ (pts : list (list Q)) : hpc := Curve POLYLINE pts.
(** [MAP(BEZIER(S1)(ctrl))(domain1D)]. *)
Definition BEZIER_ (ctrl : list (list Q)) : hpc := Curve BEZIER ctrl.
(** [SPLINE(CUBICUBSPLINE(domain1D))(ctrl)]. *)
Definition SPLINE_ (ctrl : list (list Q)) : hpc := Curve CUBICUBSPLINE ctrl.

(** ** The side view, lines 69-99 *)

Definition wheelSectionControlPoints : res (list (list Q)) :=
  AAPOINTS PROD [8; 8] [[0; 0]; [0.05; 2 / 3]; [0.95; 2 / 3]; [1; 0]].
Definition wheelSectionLine1Points : list (list Q) := [[0; 0]; [0.1; -1.5]].
Definition wheelSectionLine2Points : list (list Q) := [[8; 0]; [8; -2]].
Definition wheelSectionLine3Points : list (list Q) := [[0; 0]; [0; -2]].
Definition frotWheelSide : res hpc :=
  c <- wheelSectionControlPoints ;;
  Ok (STRUCT [Obj (BEZIER_ c); Obj (POLYLINE_ wheelSectionLine1Points); Obj (POLYLINE_ wheelSectionLine2Points)]).
Definition rearWheelSide : res hpc :=
  c <- wheelSectionControlPoints ;;
  Ok (STRUCT [Fn (T_ [1]%nat [27]); Obj (BEZIER_ c); Obj (POLYLINE_ wheelSectionLine3Points)]).
Definition wheelsSide : res hpc :=
  f <- frotWheelSide ;; r <- rearWheelSide ;; Ok (T_ [1]%nat [-9] (STRUCT [Obj f; Obj r])).

Definition bumperSideLinePoints : list (list Q) :=
  [[5.5; 0]; [0; 0]; [0; 0.1]; [0.2; 0.1]; [0.7; 0.3]; [0; 0.9]; [0.2; 0.9]].
Definition bumperSideControlPoints : res (list (list Q)) :=
  AAPOINTS SUM [0.2; 0.9] [[0; 0]; [-0.5; 0.75]; [-0.5; 1.5]].
Definition bumperSide : res hpc :=
  c <- bumperSideControlPoints ;;
  Ok (T_ [1; 2]%nat [-9 - 5.5 + 0.1; -1.5] (STRUCT [Obj (POLYLINE_ bumperSideLinePoints); Obj (BEZIER_ c)])).

Definition fenderSideLinePoints : list (list Q) := [[-14.7; 0.9]; [-15.0; 1.0]; [-15.1; 1.4]].
Definition fenderSideControlPoints : list (list Q) := [[-15.1; 1.4]; [-12; 3.5]; [-4; 5.5]; [-1; 5.1]].
Definition fenderSide : hpc := STRUCT [Obj (BEZIER_ fenderSideControlPoints); Obj (POLYLINE_ fenderSideLinePoints)].

Definition glassSidePoints : list (list Q) := [[-1; 5.1]; [5.2; 8]].
Definition glassSide : hpc := POLYLINE_ glassSidePoints.

Definition roofSideControlPoints1 : list (list Q) := [[5.2; 8]; [6.2; 8.5]; [16.5; 8.5]; [21; 6]; [22; 6]].
Definition roofSideControlPoints2 : list (list Q) := [[22; 6]; [25; 6.5]; [29; 3.6]; [30.5; 5]].
Definition roofSide : hpc := STRUCT [Obj (BEZIER_ roofSideControlPoints1); Obj (BEZIER_ roofSideControlPoints2)].

Definition backSideControlPoints : list (list Q) := [[26; 0]; [28.5; 0.5]; [30; 4]; [30.5; 5]].
Definition backSide : hpc := BEZIER_ backSideControlPoints.

Definition bottomSidePoints : list (list Q) := [[-1; -2]; [18; -2]].
Definition bottomSide : hpc := POLYLINE_ bottomSidePoints.

Definition side : res hpc :=
  w <- wheelsSide ;; b <- bumperSide ;;
  Ok (STRUCT (map Obj [w; b; fenderSide; glassSide; roofSide; backSide; bottomSide])).

(** ** The top view, lines 101-108 *)

Definition frontUpControlPoints : res (list (list Q)) :=
  MIRROR 1 [[14; 9.5]; [14; 9.5]; [14; 9.5]; [9; 9.5]; [8; 9.5]; [4; 8]; [1; 6]; [0; 5.3]; [0; 0]; [0; 0]; [0; 0]].
Definition frontUp : res hpc := c <- frontUpControlPoints ;; Ok (SPLINE_ c).
Definition sideUpLinePoints1 : list (list Q) := [[14; 9.5]; [29; 9.5]; [29; 9.8]].
Definition sideUpLinePoints2 : res (list (list Q)) := AAPOINTS PROD [1; -1] sideUpLinePoints1.
Definition sideUp : res hpc :=
  l2 <- sideUpLinePoints2 ;; Ok (STRUCT (map Obj (map POLYLINE_ [sideUpLinePoints1; l2]))).
Definition rearUpControlPoints : res (list (list Q)) :=
  pts <- AAPOINTS SUM [29; 0]
           [[0; 9.8]; [0; 9.8]; [0; 9.8]; [2.7; 9.9]; [3.5; 9.6]; [3.5; 9.6]; [5.5; 10]; [5.5; 10]; [10.5; 9.7];
            [16.6; 7.5]; [16.8; 7.3]; [17; 6.5]; [17; 6.5]; [17.3; 6]; [17.2; 3]] ;;
  MIRROR 1 pts.
Definition rearUp : res hpc := c <- rearUpControlPoints ;; Ok (SPLINE_ c).
Definition up : res hpc :=
  f <- frontUp ;; s <- sideUp ;; r <- rearUp ;; Ok (STRUCT [Obj f; Obj s; Obj r]).

(** ** The back and front views, lines 110-116 *)

Definition backViewControlPoints : res (list (list Q)) :=
  MIRROR 0 [[0; 2.2]; [0; 2.2]; [0; 2.2]; [1; 2.2]; [1.8; 2]; [2; 1.3]; [2; 1.3]; [6.1; 1.3]; [6.1; 1.3];
            [6.1; 0]; [6.1; 0]; [8.1; 0]; [8.1; 0]; [9.3; 1.2]; [10.1; 4]; [10.5; 5]; [10.5; 5]; [10.3; 5.7];
            [9.5; 6.2]; [9; 6.2]; [8.3; 6.3]; [8.3; 6.3]; [7.5; 7.2]; [6.3; 8]; [6.3; 8.1]; [5; 8.5]].
Definition back : res hpc := c <- backViewControlPoints ;; Ok (SPLINE_ c).

Definition frontVent : hpc := POLYLINE_ [[-5; 2.6]; [5; 2.6]; [5; 1]; [-5; 1]; [-5; 2.6]].
Definition frontViewControlPoints : res (list (list Q)) :=
  MIRROR 0 [[0; 0]; [0; 0]; [0; 0]; [7.9; 0]; [7.9; 0]; [7.9; 0.3]; [7.9; 0.3]; [9; 1.2]; [9.5; 2.6];
            [9.8; 4]; [10.1; 5.5]; [10.2; 5.6]; [10.3; 5.5]; [10.5; 4.5]; [9.75; 1.6]; [8.1; -0.3];
            [8.1; -0.3]; [9.2; -0.3]; [9.2; -0.3]; [9.2; 0]; [9.2; 0]; [10; 0.5]; [10.3; 1.7]; [10.7; 4];
            [10.7; 4.2]; [10.7; 5.5]; [10.7; 5.7]; [10; 7.5]; [8.3; 7.5]; [8.3; 7.5]; [6.3; 9.3];
            [6.4; 9.2]; [1; 9.7]].
Definition front : res hpc := c <- frontViewControlPoints ;; Ok (STRUCT [Obj (SPLINE_ c); Obj frontVent]).

(** ** The assembly, line 118 *)

(** [exercise2]: the side view stood up in the plane of axes 1 and 3, the
    top view moved back, the back and front views turned into the planes
    x = 22.8 and x = -22.8 ([PI/2] is half a half turn). *)
Definition exercise2 : res hpc :=
  s <- side ;; u <- up ;; b <- back ;; f <- front ;;
  Ok (STRUCT [Obj (R_ [2; 3]%nat (1 / 2) (T_ [1; 2]%nat [15.5 - 22.8; 2] s));
              Obj (T_ [1]%nat [-22.8] u);
              Obj (R_ [1; 2]%nat (1 / 2) (R_ [2; 3]%nat (1 / 2) (T_ [3]%nat [22.8] b)));
              Obj (R_ [1; 2]%nat (1 / 2) (R_ [2; 3]%nat (1 / 2) (T_ [3]%nat [-22.8] f)))]).

(** ** Where the curves start and end *)

(** The start of the uniform cubic B-spline segment on [p0 p1 p2 _]. *)
Definition bspline_start (p0 p1 p2 : list Q) : list Q :=
  map (fun i => (nth i p0 0 + 4 * nth i p1 0 + nth i p2 0) / 6) (seq 0 (length p0)).

Definition curve_ends (k : curve_kind) (ctrl : list (list Q)) : option (list Q * list Q) :=
  match k, ctrl with
  | _, [] => None
  | (POLYLINE | BEZIER), p :: _ => Some (p, last ctrl p)
  | CUBICUBSPLINE, p0 :: p1 :: p2 :: _ :: _ =>
      match rev ctrl with
      | q0 :: q1 :: q2 :: _ => Some (bspline_start p0 p1 p2, bspline_start q0 q1 q2)
      | _ => None
      end
  | CUBICUBSPLINE, _ => None
  end.

(** [T(axes)(vals)] on a point. *)
Fixpoint shift_coord (i : nat) (v : Q) (p : list Q) : list Q :=
  match p, i with
  | [], _ => []
  | x :: p', O => (x + v) :: p'
  | x :: p', S i' => x :: shift_coord i' v p'
  end.

Definition translate (axes : list nat) (vals : list Q) (p : list Q) : list Q :=
  fold_left (fun p '(ax, v) => shift_coord (ax - 1) v p) (combine axes vals) p.

(** [S(axes)(vals)] on a point. *)
Fixpoint scale_coord (i : nat) (v : Q) (p : list Q) : list Q :=
  match p, i with
  | [], _ => []
  | x :: p', O => (x * v) :: p'
  | x :: p', S i' => x :: scale_coord i' v p'
  end.

Definition scale (axes : list nat) (vals : list Q) (p : list Q) : list Q :=
  fold_left (fun p '(ax, v) => scale_coord (ax - 1) v p) (combine axes vals) p.

(** The end points of every curve of a drawing. *)
Fixpoint ends (h : hpc) : list (list Q * list Q) :=
  match h with
  | Curve k ctrl => match curve_ends k ctrl with Some e => [e] | None => [] end
  | Struct items => flat_map ends items
  | Trans axes vals h' => map (fun e => (translate axes vals (fst e), translate axes vals (snd e))) (ends h')
  | _ => []
  end.

(** ** Where the control points go *)

(** pyplasm gives a 2D shape the coordinates a transformation of higher
    axes needs, as zeros. *)
Definition embed (n : nat) (p : list Q) : list Q := p ++ repeat 0 (n - length p).

Fixpoint updq (l : list Q) (n : nat) (v : Q) : list Q :=
  match l, n with
  | [], _ => []
  | _ :: t, O => v :: t
  | h :: t, S n' => h :: updq t n' v
  end.

(** Cosine and sine of a multiple of a quarter turn ([a] in half turns). *)
Definition quarter (a : Q) : option (Q * Q) :=
  if Qeq_bool a 0 then Some (1, 0)
  else if Qeq_bool a (1 / 2) then Some (0, 1)
  else if Qeq_bool a 1 then Some (-1, 0)
  else if Qeq_bool a (-1 / 2) then Some (0, -1)
  else None.

(** [R([i,j])] by a quarter-turn multiple, exactly, as [Geometry.rotate]. *)
Definition qrotate (i j : nat) (c s : Q) (p : list Q) : list Q :=
  let p := embed (Nat.max i j) p in
  let xi := nth (i - 1) p 0 in
  let xj := nth (j - 1) p 0 in
  updq (updq p (j - 1) (s * xi + c * xj)) (i - 1) (c * xi - s * xj).

(** The control points of every curve of a shape, where its
    translations, scalings and quarter-turn rotations put them; [None] for a shape
    with other leaves or angles. *)
Fixpoint placed (h : hpc) : option (list (list Q)) :=
  match h with
  | Curve _ ctrl => Some ctrl
  | Struct items =>
      (fix placed_items (l : list hpc) : option (list (list Q)) :=
         match l with
         | [] => Some []
         | h' :: r => match placed h', placed_items r with
                      | Some a, Some b => Some (a ++ b)
                      | _, _ => None
                      end
         end) items
  | Trans axes vals h' =>
      option_map (map (fun p => translate axes vals (embed (list_max axes) p))) (placed h')
  | Scale axes vals h' =>
      option_map (map (fun p => scale axes vals (embed (list_max axes) p))) (placed h')
  | Rot i j a h' =>
      match quarter a, placed h' with
      | Some (c, s), Some pts => Some (map (qrotate i j c s) pts)
      | _, _ => None
      end
  | _ => None
  end.

(** Every point has coordinate [v] on the 1-based axis [ax]. *)
Definition on_plane (ax : nat) (v : Q) (pts : list (list Q)) : bool :=
  forallb (fun p => Qeq_bool (nth (ax - 1) p 0) v) pts.

(** No point below [v] on the axis [ax]. *)
Definition on_or_above (ax : nat) (v : Q) (pts : list (list Q)) : bool :=
  forallb (fun p => Qle_bool v (nth (ax - 1) p 0)) pts.

(** A tripled control point clamps a cubic B-spline: it starts there. *)
Lemma map_nth_seq_eqv (g : Q -> Q) p :
  (forall x, g x == x) -> Forall2 Qeq (map (fun i => g (nth i p 0)) (seq 0 (length p))) p.
Proof.
  intros Hg. induction p as [|x p IH]; [constructor|]. cbn [length seq map].
  constructor; [apply Hg|]. rewrite <- seq_shift, map_map. exact IH.
Qed.

Lemma bspline_start_triple p : Forall2 Qeq (bspline_start p p p) p.
Proof. apply (map_nth_seq_eqv (fun x => (x + 4 * x + x) / 6)). intros x. field. Qed.

(** ** The views are closed *)

(** A view that returns, with [n] curves, and passes [closed_outline]. *)
Definition view_ok (n : nat) (r : res hpc) : bool :=
  match r with Ok h => (length (ends h) =? n)%nat && closed_outline (ends h) | Raise _ => false end.

Lemma view_ok_closed n r :
  view_ok n r = true ->
  match r with
  | Ok h => length (ends h) = n /\
            forall p, In p (endpoints (ends h)) ->
                      degree (ends h) p = 2%nat /\ linked (ends h) (fst (hd ([], []) (ends h))) p
  | Raise _ => False
  end.
Proof.
  destruct r as [h|e]; [|discriminate]. intros H. apply andb_prop in H as [Hn Hc].
  split; [apply Nat.eqb_eq, Hn | apply closed_outline_sound, Hc].
Qed.

(** C24: the side and top views are each one closed outline.  The 14
    curves of the side view (wheel arches and their vertical strokes,
    bumper line and curve, fender, glass, roof, back and bottom) meet two
    by two at every end point, after the translations [T([1])([-9])],
    [T([1])([27])] and [T([1,2])([-9-5.5+.1,-1.5])], and form one
    connected figure; so do the 4 curves of the top view, the two
    mirrored splines [frontUp] and [rearUp], clamped by their tripled end
    points, and the two polylines of [sideUp].  The back and front views
    are closed curves: the splines of the mirrored control points
    [backViewControlPoints] and [frontViewControlPoints], and the
    polyline [frontVent], end where they start. *)
Theorem views_closed :
  match side, up with
  | Ok s, Ok u =>
      (length (ends s) = 14%nat /\
       forall p, In p (endpoints (ends s)) ->
                 degree (ends s) p = 2%nat /\ linked (ends s) (fst (hd ([], []) (ends s))) p) /\
      (length (ends u) = 4%nat /\
       forall p, In p (endpoints (ends u)) ->
                 degree (ends u) p = 2%nat /\ linked (ends u) (fst (hd ([], []) (ends u))) p)
  | _, _ => False
  end /\
  match back, front with
  | Ok b, Ok f => length (ends b ++ ends f) = 3%nat /\
                  forallb (fun e => pt_eqb (fst e) (snd e)) (ends b ++ ends f) = true
  | _, _ => False
  end.
Proof.
  split; [|vm_compute; split; reflexivity].
  pose proof (view_ok_closed 14 side ltac:(vm_compute; reflexivity)) as Hs.
  pose proof (view_ok_closed 4 up ltac:(vm_compute; reflexivity)) as Hu.
  destruct side as [s|e]; [|destruct Hs]. destruct up as [u|e]; [|destruct Hu]. split; assumption.
Qed.


(** ** The exact rotation is the rotation *)

Lemma map_Q2R_updq l n v : map Q2R (updq l n v) = upd (map Q2R l) n (Q2R v).
Proof. revert n. induction l as [|x l IH]; intros [|n]; simpl; try rewrite IH; reflexivity. Qed.


Lemma quarter_cos_sin a c s :
  quarter a = Some (c, s) -> cos (angle_rad a) = Q2R c /\ sin (angle_rad a) = Q2R s.
Proof.
  unfold quarter, angle_rad.
  destruct (Qeq_bool a 0) eqn:E0; [|destruct (Qeq_bool a (1 / 2)) eqn:E1;
    [|destruct (Qeq_bool a 1) eqn:E2; [|destruct (Qeq_bool a (-1 / 2)) eqn:E3]]];
    intros H; try discriminate; injection H as <- <-.
  - apply Qeq_bool_iff, Qeq_eqR in E0. rewrite E0, Q2R_0, Q2R_1, Rmult_0_l, cos_0, sin_0. auto.
  - apply Qeq_bool_iff, Qeq_eqR in E1. rewrite E1, Q2R_0, Q2R_1.
    replace (Q2R (1 / 2) * PI)%R with (PI / 2)%R by (unfold Q2R; simpl; field).
    rewrite cos_PI2, sin_PI2. auto.
  - apply Qeq_bool_iff, Qeq_eqR in E2. rewrite E2, Q2R_0, Q2R_1, Rmult_1_l, cos_PI, sin_PI.
    unfold Q2R; simpl; split; field.
  - apply Qeq_bool_iff, Qeq_eqR in E3. rewrite E3.
    replace (Q2R (-1 / 2) * PI)%R with (- (PI / 2))%R by (unfold Q2R; simpl; field).
    rewrite cos_neg, sin_neg, cos_PI2, sin_PI2. unfold Q2R; simpl; split; field.
Qed.

(** On a point that has both axes, [qrotate] at a quarter-turn multiple
    is [Geometry.rotate] by that angle, read over the reals. *)
Lemma qrotate_rotate i j a c s p :
  quarter a = Some (c, s) -> (Nat.max i j <= length p)%nat ->
  map Q2R (qrotate i j c s p) = rotate i j (angle_rad a) (map Q2R p).
Proof.
  intros Hq Hlen. destruct (quarter_cos_sin a c s Hq) as [Hc Hs].
  unfold qrotate, rotate, coord, embed.
  replace (Nat.max i j - length p)%nat with 0%nat by lia. rewrite app_nil_r.
  rewrite !map_Q2R_updq, !nth_map_Q2R, Hc, Hs, Q2R_minus, Q2R_plus, !Q2R_mult. reflexivity.
Qed.

(** C27: [exercise2] puts each view in its plane: every control point
    of the side view ends up in the plane y = 0, standing on the ground
    (z >= 0), the top view in z = 0, the back view in x = 22.8 and the
    front view in x = -22.8, after the translations and quarter-turn
    rotations of line 118. *)
Theorem exercise2_planes :
  match exercise2 with
  | Ok (Struct [s; u; b; f]) =>
      option_map (fun pts => on_plane 2 0 pts && on_or_above 3 0 pts) (placed s) = Some true /\
      option_map (on_plane 3 0) (placed u) = Some true /\
      option_map (on_plane 1 22.8) (placed b) = Some true /\
      option_map (on_plane 1 (-22.8)) (placed f) = Some true
  | _ => False
  end.
Proof. vm_compute. repeat split. Qed.
