(* ===== verification/Wheels.v ===== *)
(** * Wheels: the mirrored profiles of the car's wheels,
      src/2013-05-10/python/exercise3.py, lines 143 and 147

    The rim ([AWPol2]) and the tire ([tire1]) are surfaces of revolution
    of Bezier profiles whose control points are built the same way:
    a half profile is completed by [MIRROR(2)] (reflection across the
    wheel's mid-plane z = 0) and then moved away from the axis by
    [AAPOINTS(SUM)([r,0,0])].

    [MIRROR_translate_comm] shows that the order of the two steps does not
    matter when the translation does not move the mirror axis: translating
    the mirrored profile gives, point for point, the mirror of the
    translated profile, so the profiles of lines 143 and 147 are
    symmetric about z = 0 as the mirrored half profiles are. *)

From Stdlib Require Import List ZArith QArith Lia.
From S2P Require Import Prelude PointOps Mirror.
Import ListNotations.
Local Open Scope Q_scope.

(** [AWPol2], line 143 (the control points of the rim profile). *)
Definition AWPol2 : res (list (list Q)) :=
  m <- MIRROR 2 [[0; 0; 0]; [0; 0; 3]; [-0.3; 0; 3]; [-0.9; 0; 3.9]; [0; 0; 3.9]; [0.9; 0; 3.9];
                 [2; 0; 4.2]; [2; 0; 4]; [0.6; 0; 3]; [0.6; 0; 0]] ;;
  AAPOINTS SUM [6; 0; 0] m.

(** [tire1], line 147 (the control points of the tire profile). *)
Definition tire1 : res (list (list Q)) :=
  m <- MIRROR 2 [[1; 0; 3.6]; [2; 0; 3.6]; [2.2; 0; 4]; [4; 0; 4]; [4.3; 0; 3.6]] ;;
  AAPOINTS SUM [5.5; 0; 0] m.

(** ** Translation and reflection commute off the axis *)

Lemma SUM_pair (a b : Q) : SUM [a; b] = a + b.
Proof. reflexivity. Qed.

Lemma PROD_pair (a b : Q) : PROD [a; b] = a * b.
Proof. reflexivity. Qed.

(** Coordinatewise, [v + s * x == s * (v + x)] when [s * v == v]. *)
Lemma pointwise_translate_reflect s v p :
  Forall2 (fun si vi => si * vi == vi) s v ->
  Forall2 Qeq (pointwise SUM v (pointwise PROD s p)) (pointwise PROD s (pointwise SUM v p)).
Proof.
  intros Hsv. revert p. induction Hsv as [|si vi s v Hi _ IH]; intros [|x p]; try constructor.
  - cbn [pointwise]. rewrite !SUM_pair, !PROD_pair. rewrite <- Hi at 1. ring.
  - apply IH.
Qed.

Lemma Forall2_Qeq_refl (p : list Q) : Forall2 Qeq p p.
Proof. apply Forall2_diag, Forall_forall. intros x _. reflexivity. Qed.

Lemma fits_same_length {A} (ops : list A) pts :
  Forall (fun p => length p = length ops) pts -> fits ops pts = true.
Proof.
  intros H. unfold fits. apply forallb_forall. intros p Hp.
  rewrite (proj1 (Forall_forall _ _) H p Hp). apply Nat.leb_refl.
Qed.

(** C25: translating the output of [MIRROR(axis)] by [AAPOINTS(SUM)(v)]
    gives, point for point up to [Qeq], the same list as mirroring the
    translated points, when every point has the dimension of [v] and [v]
    is 0 on the mirror axis; both orders return without an exception. *)
Theorem MIRROR_translate_comm axis v p0 ps :
  Forall (fun p => length p = length v) (p0 :: ps) ->
  (forall n, Z.of_nat n = axis -> nth n v 0 == 0) ->
  exists r1 r2, (m <- MIRROR axis (p0 :: ps) ;; AAPOINTS SUM v m) = Ok r1 /\
                (t <- AAPOINTS SUM v (p0 :: ps) ;; MIRROR axis t) = Ok r2 /\
                Forall2 (Forall2 Qeq) r1 r2.
Proof.
  intros Hlen Hv. set (s := mirror_signs axis (length v)).
  assert (Hs : length s = length v) by apply length_mirror_signs.
  assert (Hp0 : length p0 = length v) by (inversion Hlen; assumption).
  assert (Hrefl : Forall (fun p => length p = length v) (reflect s (p0 :: ps))).
  { apply Forall_map. eapply Forall_impl; [|exact Hlen]. intros p Hp. cbv beta in Hp.
    rewrite length_pointwise; [exact Hp | rewrite Hs; lia]. }
  assert (Htr : Forall (fun p => length p = length v) (map (pointwise SUM v) (p0 :: ps))).
  { apply Forall_map. eapply Forall_impl; [|exact Hlen]. intros p Hp. cbv beta in Hp.
    rewrite length_pointwise; [exact Hp | lia]. }
  rewrite MIRROR_eq. cbv zeta. rewrite Hp0. fold s. rewrite fits_same_length by (rewrite Hs; exact Hlen).
  cbn [res_bind]. rewrite AAPOINTS_ok by (apply fits_same_length, Forall_app; split;
    [exact Hlen | apply Forall_rev, Hrefl]).
  rewrite AAPOINTS_ok by (apply fits_same_length, Hlen). cbn [res_bind].
  rewrite MIRROR_eq. cbn [map]. cbv zeta. rewrite length_pointwise by lia. rewrite Hp0. fold s.
  change (pointwise SUM v p0 :: map (pointwise SUM v) ps) with (map (pointwise SUM v) (p0 :: ps)).
  rewrite (fits_same_length s (map (pointwise SUM v) (p0 :: ps))) by (rewrite Hs; exact Htr).
  do 2 eexists. split; [reflexivity | split; [reflexivity|]].
  rewrite map_app, map_rev. apply Forall2_app.
  - apply Forall2_diag, Forall_forall. intros p _. apply Forall2_Qeq_refl.
  - apply Forall2_rev. unfold reflect. rewrite !map_map. apply Forall2_map_map. intros p _.
    apply pointwise_translate_reflect. rewrite <- (firstn_all s), Hs.
    apply mirror_signs_fix; [lia | exact Hv].
Qed.


Lemma MIRROR_translate_comm_witness :
  exists r1 r2,
    (m <- MIRROR 2 [[1; 0; 3.6]; [2; 0; 3.6]; [2.2; 0; 4]; [4; 0; 4]; [4.3; 0; 3.6]] ;;
     AAPOINTS SUM [5.5; 0; 0] m) = Ok r1 /\
    (t <- AAPOINTS SUM [5.5; 0; 0] [[1; 0; 3.6]; [2; 0; 3.6]; [2.2; 0; 4]; [4; 0; 4]; [4.3; 0; 3.6]] ;;
     MIRROR 2 t) = Ok r2 /\
    Forall2 (Forall2 Qeq) r1 r2.
Proof.
  apply MIRROR_translate_comm; [repeat constructor|].
  intros n Hn. assert (n = 2%nat) by lia. subst n. reflexivity.
Defined.
