(* ===== verification/Spokes.v ===== *)
(** * Spokes: the spoke polyhedron of the alloy wheel,
      src/2013-05-10/python/exercise3.py, lines 129-141

    [AWPoints1] (line 129) lists 21 points, three of them at
    [(COS(PI/6), SIN(PI/6))], the point of the unit circle at 30 degrees;
    they are reals here.  [AWPol1_mkpol] (lines 131-138) is their [MKPOL]
    with 13 cells of 3 or 4 vertices, each the convex hull of its
    vertices ([Geometry.mem] on meshes).  Line 140 adds the mirror image
    across y = 0 and line 141 turns six copies of the pair by [PI/3]
    ([Assembly.AWPol1_pair], [Assembly.AWPol1]).

    [spoke_wedge]: every point of the polyhedron lies in the wedge
    between the x axis and the ray at 30 degrees, with 0 <= z <= 1.2 and
    x <= 6.  [Assembly.spokes_sectors] builds on it: each of the twelve
    half spokes of line 141 lies in its own 60-degree sector. *)

From Stdlib Require Import List Arith ZArith QArith Reals Lra Lia.
From S2P Require Import Prelude Domain2D Scene Geometry Hull.
Import ListNotations.
Local Open Scope R_scope.

(** Line 129. *)
Definition AWPoints1 : list (list R) :=
  [[0; 0; 1]; [cos (PI / 6); sin (PI / 6); 1]; [cos (PI / 6); 0; 1]; [1; 0.5; 1.2]; [1; 0; 1.2];
   [5; 0.3; 0.8]; [5; 0; 0.8]; [5.5; 0.4; 1]; [5.5; 0; 1]; [6; 0.4; 1]; [6; 0; 1];
   [cos (PI / 6); sin (PI / 6); 0.5]; [cos (PI / 6); 0; 0.5]; [1; 0.5; 0.6]; [1; 0; 0.6];
   [5; 0.3; 0]; [5; 0; 0]; [5.5; 0.4; 0]; [5.5; 0; 0]; [6; 0.4; 0]; [6; 0; 0]].

(** Lines 131-138. *)
Definition AWPol1_mkpol : hpc :=
  MKPOL_ AWPoints1
    [[1; 3; 2]; [2; 3; 5; 4]; [4; 5; 6; 7]; [6; 7; 9; 8]; [8; 9; 10; 11];
     [2; 4; 14; 12]; [4; 6; 16; 14]; [6; 8; 18; 16]; [8; 10; 20; 18];
     [12; 14; 15; 13]; [14; 16; 17; 15]; [16; 18; 19; 17]; [18; 20; 21; 19]]%nat.

(** The cells of [AWPol1_mkpol]. *)
Definition AWPol1_cells : list (list nat) :=
  match AWPol1_mkpol with Mesh _ cells => cells | _ => [] end.

(** ** The wedge *)

Lemma cos_PI6_bounds : 0 <= cos (PI / 6) <= 1.
Proof. rewrite cos_PI6. pose proof (sqrt_pos 3). assert (sqrt 3 < 2); [|lra].
  rewrite <- sqrt_Rsqr with (x := 2) by lra. apply sqrt_lt_1; unfold Rsqr; lra. Qed.

Lemma AWPol1_cells_valid : forallb (forallb (valid_index (length AWPoints1))) AWPol1_cells = true.
Proof. reflexivity. Qed.

Lemma lin2 a0 a1 x y z : lin [a0; a1] [x; y; z] = a0 * x + a1 * y.
Proof. unfold lin, rsum. simpl. ring. Qed.

Lemma lin3 a0 a1 a2 x y z : lin [a0; a1; a2] [x; y; z] = a0 * x + a1 * y + a2 * z.
Proof. unfold lin, rsum. simpl. ring. Qed.

(** A linear bound checked on the 21 points holds on the polyhedron. *)
Ltac spoke_points a :=
  eapply (mesh_lin_bounds _ a _ _ AWPoints1 AWPol1_cells); [exact AWPol1_cells_valid | simpl; lia |
    pose proof cos_PI6_bounds; pose proof sin_PI6; unfold AWPoints1;
    repeat apply Forall_cons; try apply Forall_nil; rewrite ?lin2, ?lin3; split; nra | eassumption].

(** The bounds of every point of the spoke polyhedron, with [c] and [s]
    the cosine and sine of 30 degrees. *)
Lemma spoke_bounds leaf_mem x y z :
  mem leaf_mem AWPol1_mkpol [x; y; z] ->
  0 <= y <= 1 /\ -10 <= - sin (PI / 6) * x + cos (PI / 6) * y <= 0 /\ 0 <= z <= 1.2 /\ 0 <= x <= 6.
Proof.
  intros Hm.
  assert (Hy : 0 <= lin [0; 1] [x; y; z] <= 1) by spoke_points [0; 1].
  assert (Hw : -10 <= lin [- sin (PI / 6); cos (PI / 6)] [x; y; z] <= 0)
    by spoke_points [- sin (PI / 6); cos (PI / 6)].
  assert (Hz : 0 <= lin [0; 0; 1] [x; y; z] <= 1.2) by spoke_points [0; 0; 1].
  assert (Hx : 0 <= lin [1; 0] [x; y; z] <= 6) by spoke_points [1; 0].
  rewrite ?lin2, ?lin3 in *. lra.
Qed.

(** Every point of the polyhedron has the three coordinates of its vertices. *)
Lemma AWPol1_mkpol_dim leaf_mem p : mem leaf_mem AWPol1_mkpol p -> length p = 3%nat.
Proof.
  cbn [AWPol1_mkpol MKPOL_ mem]. intros (c & Hc & ws & _ & _ & _ & Hl & _)%Exists_exists.
  simpl in Hc. repeat destruct Hc as [<- | Hc]; try destruct Hc;
    cbn [cell_vertices map] in Hl; apply Forall_inv in Hl; rewrite <- Hl; reflexivity.
Qed.

(** C33: the spoke polyhedron of lines 129-138 is a wedge: its 13 cells
    name only its 21 points, and every point of every cell lies between
    the x axis (y >= 0) and the ray at 30 degrees
    (y cos(PI/6) <= x sin(PI/6)), with 0 <= z <= 1.2 and x <= 6, so its
    mirror image of line 140 completes it into the 60-degree wedge that
    line 141 turns six times. *)
Theorem spoke_wedge leaf_mem x y z :
  forallb (forallb (valid_index (length AWPoints1))) AWPol1_cells = true /\
  (mem leaf_mem AWPol1_mkpol [x; y; z] ->
   0 <= y /\ y * cos (PI / 6) <= x * sin (PI / 6) /\ 0 <= z <= 1.2 /\ x <= 6).
Proof.
  split; [exact AWPol1_cells_valid|]. intros Hm.
  destruct (spoke_bounds leaf_mem x y z Hm) as (Hy & Hw & Hz & Hx). lra.
Qed.

(** The first point of the first cell is a point of the polyhedron. *)
Lemma AWPol1_mkpol_vertex leaf_mem : mem leaf_mem AWPol1_mkpol [0; 0; 1].
Proof. cbn [AWPol1_mkpol MKPOL_ mem]. apply Exists_cons_hd, in_hull_head. repeat apply Forall_cons; auto. Qed.

Lemma spoke_wedge_witness :
  mem (fun _ _ => True) AWPol1_mkpol [0; 0; 1] /\
  0 <= 0 /\ 0 * cos (PI / 6) <= 0 * sin (PI / 6) /\ 0 <= 1 <= 1.2 /\ 0 <= 6.
Proof.
  split; [apply AWPol1_mkpol_vertex|].
  apply (proj2 (spoke_wedge (fun _ _ => True) 0 0 1)), AWPol1_mkpol_vertex.
Defined.
