(* ===== verification/Surfaces.v ===== *)
(** * Surfaces: the rim and the tire as surfaces of revolution,
      src/2013-05-10/python/exercise3.py, lines 144 and 148

    Each of the two lines maps the 2D domain
    [DOMAIN2D([INTERVALS(1)(24), INTERVALS(2*PI)(36)])] by
    [ROTATIONALSURFACE(BEZIER(S1)(profile))]: the Bezier curve of the
    profile's control points ([Wheels.AWPol2], [Wheels.tire1]) at the
    parameter [u], turned by the angle [v] about the z axis.  The pyplasm
    functions are modelled from their library definitions (they are not
    code of this repository): [BEZIER(U)(ctrl)] weighs the control
    points with [CHOOSE([N,I]) * (1-t)^(N-I) * t^I] ([Hull.bernstein]),
    raising [IndexError] on an empty or ragged control list;
    [ROTATIONALSURFACE(profile)] maps [[u, v]] to
    [[f cos v, f sin v, g]] for [profile([u, v]) = [f, h, g]], raising
    [ValueError] when an unpacking fails.  Angles are in half turns, as
    everywhere here, so [INTERVALS(2*PI)(36)] is [INTERVALS 2 36] and
    the cosine is taken of [v * PI].  [MAP] maps the vertices of the
    domain's triangles and draws the triangles through their images
    ([Geometry.mem]).

    [surfaces_bounds]: whatever vertex numbering [UKPOL] uses (the
    [UkpolLaws] of [Domain2D]), both lines return, and every point of
    the rim lies within the radius 8 of the axis with |z| <= 4.2, every
    point of the tire within 9.8 with |z| <= 4.  The control points also
    bound the radius from below (5.1 and 6.5), which every mapped vertex
    keeps ([rotational_bezier_vertex]), but the flat triangles between
    vertices 10 degrees apart come closer to the axis, so no lower
    bound is claimed for the drawn surface. *)

From Stdlib Require Import List Arith ZArith QArith Qreals Reals Lra Lia.
From S2P Require Import Prelude PointOps Mirror Kernel Domain2D Scene Geometry Hull Wheels.
Import ListNotations.
Local Open Scope R_scope.

(** pyplasm's [S1]: the first coordinate. *)
Definition S1 (point : list R) : res R := py_index point 0.

(** pyplasm's [BEZIER(U)(controldata)], for control points given as
    numbers. *)
Definition BEZIER (U : list R -> res R) (ctrl : list (list R)) (point : list R) : res (list R) :=
  t <- U point ;;
  c0 <- py_index ctrl 0 ;;
  if forallb (fun c => length c0 <=? length c)%nat ctrl
  then Ok (map (wcoord (bernstein_weights (length ctrl - 1) t) ctrl) (seq 0 (length c0)))
  else Raise IndexError.

(** pyplasm's [ROTATIONALSURFACE(profile)] (the angle in half turns). *)
Definition ROTATIONALSURFACE (profile : list R -> res (list R)) (point : list R) : res (list R) :=
  match point with
  | [u; v] =>
      fhg <- profile point ;;
      match fhg with
      | [f; h; g] => Ok [f * cos (v * PI); f * sin (v * PI); g]
      | _ => Raise ValueError
      end
  | _ => Raise ValueError
  end.

(** The [MKPOL] that [DOMAIN2D] returns, as a shape. *)
Definition mkpol_shape (m : mkpol) : hpc := MKPOL_ (map (map Q2R) (mk_points m)) (mk_cells m).

(** The domain of lines 144 and 148. *)
Definition surface_domains : list complex := [INTERVALS 1 24; INTERVALS 2 36].

Section Surfaces.
Context `{Ukpol}.

(** Line 144. *)
Definition AWPol2_surface : res hpc :=
  ctrl <- AWPol2 ;;
  d <- DOMAIN2D surface_domains ;;
  Ok (MAP (ROTATIONALSURFACE (BEZIER S1 (map (map Q2R) ctrl))) (mkpol_shape d)).

(** Line 148. *)
Definition tire : res hpc :=
  ctrl <- tire1 ;;
  d <- DOMAIN2D surface_domains ;;
  Ok (MAP (ROTATIONALSURFACE (BEZIER S1 (map (map Q2R) ctrl))) (mkpol_shape d)).
End Surfaces.

(** ** What the maps compute *)

(** A point of the profile [BEZIER(S1)(ctrl)] at [[u, v]]: coordinates
    0 and 2 are the combinations of the control points' with the
    Bernstein weights at [u]. *)
Lemma BEZIER_S1_3 ctrl u w f h g :
  BEZIER S1 ctrl [u; w] = Ok [f; h; g] ->
  ctrl <> [] /\ f = wcoord (bernstein_weights (length ctrl - 1) u) ctrl 0 /\
  g = wcoord (bernstein_weights (length ctrl - 1) u) ctrl 2.
Proof.
  unfold BEZIER, S1. destruct ctrl as [|c0 cs]; [discriminate|]. cbn [py_index nth_error res_bind].
  destruct (forallb _ _); [|discriminate]. intros E. injection E as E.
  assert (Hl : length c0 = 3%nat)
    by (apply (f_equal (@length R)) in E; rewrite length_map, length_seq in E; exact E).
  rewrite Hl in E. injection E as E1 E2 E3. split; [discriminate | split; [rewrite <- E1 | rewrite <- E3]; reflexivity].
Qed.

(** A point of [ROTATIONALSURFACE(profile)] comes from a point [[u, v]]
    of the domain and a profile point [[f, h, g]]. *)
Lemma ROTATIONALSURFACE_ok prof v p :
  ROTATIONALSURFACE prof v = Ok p ->
  exists u w f h g, v = [u; w] /\ prof [u; w] = Ok [f; h; g] /\
                    p = [f * cos (w * PI); f * sin (w * PI); g].
Proof.
  destruct v as [|u [|w [|? ?]]]; cbn [ROTATIONALSURFACE]; try (intros E; discriminate E).
  destruct (prof [u; w]) as [[|f [|h [|g [|? ?]]]]|e] eqn:Hp; cbn [res_bind]; try (intros E; discriminate E).
  intros E. injection E as <-. exists u, w, f, h, g. auto.
Qed.

(** ** Bounds of a surface of revolution *)

Section Bounds.
Variable leaf_mem : hpc -> list R -> Prop.

(** A vertex of the surface: the image of a domain point whose first
    coordinate is in [[0, 1]] lies between the radii [lo] and [hi] and
    the heights [zl] and [zh] that bound the control points. *)
Lemma rotational_bezier_vertex ctrl lo hi zl zh v q :
  0 <= nth 0 v 0 <= 1 ->
  Forall (fun c => lo <= nth 0 c 0 <= hi /\ zl <= nth 2 c 0 <= zh) ctrl -> 0 <= lo ->
  ROTATIONALSURFACE (BEZIER S1 ctrl) v = Ok q ->
  length q = 3%nat /\ lo ^ 2 <= nth 0 q 0 ^ 2 + nth 1 q 0 ^ 2 <= hi ^ 2 /\ zl <= nth 2 q 0 <= zh.
Proof.
  intros Hu Hctrl Hlo Hf.
  destruct (ROTATIONALSURFACE_ok _ _ _ Hf) as (u & w & f & h & g & -> & Hb & ->). cbn [nth] in *.
  destruct (BEZIER_S1_3 _ _ _ _ _ _ Hb) as (Hne & -> & ->).
  set (ws := bernstein_weights (length ctrl - 1) u).
  assert (Hlen : length ws = length ctrl)
    by (unfold ws; rewrite length_bernstein_weights; destruct ctrl; [contradiction | simpl; lia]).
  assert (Hw : Forall (Rle 0) ws) by (apply bernstein_weights_nonneg; exact Hu).
  assert (Hs : fold_right Rplus 0 ws = 1) by apply bernstein_weights_sum.
  assert (Hf0 : lo <= wcoord ws ctrl 0 <= hi)
    by (apply wcoord_convex_bounds; auto; eapply Forall_impl; [|exact Hctrl]; simpl; tauto).
  assert (Hg : zl <= wcoord ws ctrl 2 <= zh)
    by (apply wcoord_convex_bounds; auto; eapply Forall_impl; [|exact Hctrl]; simpl; tauto).
  pose proof (sin2_cos2 (w * PI)) as Hsc. unfold Rsqr in Hsc.
  replace ((wcoord ws ctrl 0 * cos (w * PI)) ^ 2 + (wcoord ws ctrl 0 * sin (w * PI)) ^ 2)
    with (wcoord ws ctrl 0 ^ 2) by (rewrite <- (Rmult_1_r (wcoord ws ctrl 0 ^ 2)), <- Hsc; ring).
  split; [reflexivity | split; [split|]]; nra.
Qed.

(** The surface of revolution of a Bezier profile over a triangulated
    domain whose points have their first coordinate in [[0, 1]]: every
    triangle is the hull of three vertices within the radius [hi] and
    the heights [zl], [zh], so the whole surface is. *)
Lemma rotational_bezier_bounds ctrl m lo hi zl zh x y z :
  forallb (forallb (valid_index (length (mk_points m)))) (mk_cells m) = true ->
  Forall (fun p => 0 <= Q2R (nth 0 p 0%Q) <= 1) (mk_points m) ->
  Forall (fun c => lo <= nth 0 c 0 <= hi /\ zl <= nth 2 c 0 <= zh) ctrl -> 0 <= lo ->
  mem leaf_mem (MAP (ROTATIONALSURFACE (BEZIER S1 ctrl)) (mkpol_shape m)) [x; y; z] ->
  x ^ 2 + y ^ 2 <= hi ^ 2 /\ zl <= z <= zh.
Proof.
  intros Hcells Hpts Hctrl Hlo Hm. cbn [MAP mkpol_shape MKPOL_ mem vertex_cells] in Hm.
  apply Exists_exists in Hm as (vs & Hvs & Hh). apply in_map_iff in Hvs as (c & <- & Hc).
  destruct (py_map _ _) as [ws|e] eqn:Hws in Hh; [|contradiction]. apply py_map_ok_Forall2 in Hws.
  assert (Hv : Forall (fun v => 0 <= nth 0 v 0 <= 1) (cell_vertices (map (map Q2R) (mk_points m)) c)).
  { apply cell_vertices_Forall.
    - apply Forall_map. eapply Forall_impl; [|exact Hpts]. intros p Hp. rewrite nth_map_Q2R. exact Hp.
    - rewrite length_map. rewrite forallb_forall in Hcells. apply Hcells, Hc. }
  assert (Hw : Forall (fun q => length q = 3%nat /\ lo ^ 2 <= nth 0 q 0 ^ 2 + nth 1 q 0 ^ 2 <= hi ^ 2 /\
                                 zl <= nth 2 q 0 <= zh) ws).
  { apply Forall_forall. intros q Hq. destruct (Forall2_In_r _ _ _ _ Hws Hq) as (v & Hin & Hf).
    rewrite Forall_forall in Hv. exact (rotational_bezier_vertex ctrl lo hi zl zh v q (Hv v Hin) Hctrl Hlo Hf). }
  split.
  - change (nth 0 [x; y; z] 0 ^ 2 + nth 1 [x; y; z] 0 ^ 2 <= hi ^ 2).
    apply (in_hull_disc _ _ _ Hh); [simpl; lia|].
    eapply Forall_impl; [|exact Hw]. intros q (_ & [_ H] & _). exact H.
  - assert (Hz : zl <= lin [0; 0; 1] [x; y; z] <= zh).
    { split; [apply (in_hull_lin_ge _ _ ws) | apply (in_hull_lin_le _ _ ws)]; try exact Hh; try (simpl; lia);
        eapply Forall_impl; try exact Hw; intros q (_ & _ & H); rewrite lin_3; lra. }
    rewrite lin_3 in Hz. cbn [nth] in Hz. lra.
Qed.
End Bounds.

(** ** The rim and the tire *)

(** The first interval of a cell lies in [[0, 1]]. *)
Definition unit_first (c : cell) : bool :=
  let iv := nth 0 c (0, 0)%Q in
  Qle_bool 0 (fst iv) && Qle_bool (fst iv) 1 && Qle_bool 0 (snd iv) && Qle_bool (snd iv) 1.

(** The control points lie in [[lo, hi]] along x and [[zl, zh]] along z. *)
Definition ctrl_within (lo hi zl zh : Q) (c : list Q) : bool :=
  Qle_bool lo (nth 0 c 0%Q) && Qle_bool (nth 0 c 0%Q) hi && Qle_bool zl (nth 2 c 0%Q) && Qle_bool (nth 2 c 0%Q) zh.

Lemma Qle_bool_R a b : Qle_bool a b = true -> Q2R a <= Q2R b.
Proof. intros H. apply Qle_Rle, Qle_bool_iff, H. Qed.

Lemma ctrl_within_R lo hi zl zh ctrl :
  forallb (ctrl_within lo hi zl zh) ctrl = true ->
  Forall (fun c => Q2R lo <= nth 0 c 0 <= Q2R hi /\ Q2R zl <= nth 2 c 0 <= Q2R zh) (map (map Q2R) ctrl).
Proof.
  intros Hc. apply Forall_map, Forall_forall. intros c Hin. rewrite forallb_forall in Hc.
  specialize (Hc c Hin). unfold ctrl_within in Hc. rewrite !andb_true_iff in Hc.
  destruct Hc as [[[H1 H2] H3] H4]. rewrite !nth_map_Q2R.
  apply Qle_bool_R in H1, H2, H3, H4. auto.
Qed.

Section Domain.
Context `{UkpolLaws}.

(** Every vertex of the domain of lines 144 and 148 has its [u] in [[0, 1]]. *)
Lemma surface_domain_points m :
  DOMAIN2D surface_domains = Ok m -> Forall (fun p => 0 <= Q2R (nth 0 p 0%Q) <= 1) (mk_points m).
Proof.
  intros Hm. apply Forall_forall. intros p Hp.
  destruct (DOMAIN2D_corners (INTERVALS 1 24) (INTERVALS 2 36) [] m p (QUOTE_one_dim _) (QUOTE_one_dim _) Hm Hp)
    as (c & Hc & Hcp).
  assert (Hchk : forallb unit_first (cprod (INTERVALS 1 24) (INTERVALS 2 36)) = true) by (vm_compute; reflexivity).
  rewrite forallb_forall in Hchk. specialize (Hchk c Hc). unfold unit_first in Hchk.
  destruct Hcp as [|iv x c' p' Hx _]; [cbn [nth]; rewrite Q2R_0; lra|]. cbn [nth] in *.
  rewrite !andb_true_iff in Hchk. destruct Hchk as [[[H1 H2] H3] H4].
  apply Qle_bool_R in H1, H2, H3, H4. rewrite Q2R_0, Q2R_1 in *.
  destruct Hx as [Hx | Hx]; apply Qeq_eqR in Hx; rewrite Hx; lra.
Qed.

Section Leaves.
Variable leaf_mem : hpc -> list R -> Prop.

(** A surface of lines 144 and 148 made of control points within bounds
    returns and keeps those bounds. *)
Lemma surface_of_bounds ctrlr lo hi zl zh :
  match ctrlr with Ok c => forallb (ctrl_within lo hi zl zh) c = true | Raise _ => False end ->
  0 <= Q2R lo ->
  exists s, (ctrl <- ctrlr ;; d <- DOMAIN2D surface_domains ;;
             Ok (MAP (ROTATIONALSURFACE (BEZIER S1 (map (map Q2R) ctrl))) (mkpol_shape d))) = Ok s /\
  forall x y z, mem leaf_mem s [x; y; z] -> x ^ 2 + y ^ 2 <= Q2R hi ^ 2 /\ Q2R zl <= z <= Q2R zh.
Proof.
  intros Hc Hlo. destruct ctrlr as [c|e]; [|contradiction].
  destruct (DOMAIN2D_count (INTERVALS 1 24) (INTERVALS 2 36) [] (QUOTE_one_dim _) (QUOTE_one_dim _))
    as (m & Hm & _).
  cbn [res_bind]. unfold surface_domains. rewrite Hm. eexists. split; [reflexivity|].
  intros x y z Hmem. apply (rotational_bezier_bounds leaf_mem (map (map Q2R) c) m (Q2R lo)); auto.
  - exact (DOMAIN2D_valid _ m Hm).
  - exact (surface_domain_points m Hm).
  - apply ctrl_within_R, Hc.
Qed.

Lemma rim_bounds :
  exists rim, AWPol2_surface = Ok rim /\
  forall x y z, mem leaf_mem rim [x; y; z] -> x ^ 2 + y ^ 2 <= 8 ^ 2 /\ -4.2 <= z <= 4.2.
Proof.
  destruct (surface_of_bounds AWPol2 5.1 8 (-4.2) 4.2) as (r & Hr & Hb);
    [vm_compute; reflexivity | unfold Q2R; simpl; lra|].
  exists r. split; [exact Hr|]. intros x y z Hm. specialize (Hb x y z Hm).
  unfold Q2R in Hb; simpl in Hb. split; nra.
Qed.

Lemma tire_bounds :
  exists tyre, tire = Ok tyre /\
  forall x y z, mem leaf_mem tyre [x; y; z] -> x ^ 2 + y ^ 2 <= 9.8 ^ 2 /\ -4 <= z <= 4.
Proof.
  destruct (surface_of_bounds tire1 6.5 9.8 (-4) 4) as (r & Hr & Hb);
    [vm_compute; reflexivity | unfold Q2R; simpl; lra|].
  exists r. split; [exact Hr|]. intros x y z Hm. specialize (Hb x y z Hm).
  unfold Q2R in Hb; simpl in Hb. split; nra.
Qed.
End Leaves.

(** C35: whatever vertex numbering [UKPOL] uses, lines 144 and 148
    return, and every point of the triangles pyplasm draws through the
    mapped vertices lies, for the rim [AWPol2], within the radius 8 of
    the wheel's axis with |z| <= 4.2, and for the tire within the radius
    9.8 with |z| <= 4: the bounds of their profiles' control points,
    which every point of a Bezier curve on [[0, 1]] keeps and a flat
    triangle through such points keeps too. *)
Theorem surfaces_bounds (leaf_mem : hpc -> list R -> Prop) :
  exists rim tyre, AWPol2_surface = Ok rim /\ tire = Ok tyre /\
  (forall x y z, mem leaf_mem rim [x; y; z] -> x ^ 2 + y ^ 2 <= 8 ^ 2 /\ -4.2 <= z <= 4.2) /\
  (forall x y z, mem leaf_mem tyre [x; y; z] -> x ^ 2 + y ^ 2 <= 9.8 ^ 2 /\ -4 <= z <= 4).
Proof.
  destruct (rim_bounds leaf_mem) as (r & Hr & Hbr). destruct (tire_bounds leaf_mem) as (t & Ht & Hbt).
  exists r, t. auto.
Qed.
End Domain.

Lemma surfaces_bounds_witness :
  exists rim tyre, AWPol2_surface = Ok rim /\ tire = Ok tyre /\
  (forall x y z, mem (fun _ _ => True) rim [x; y; z] -> x ^ 2 + y ^ 2 <= 8 ^ 2 /\ -4.2 <= z <= 4.2) /\
  (forall x y z, mem (fun _ _ => True) tyre [x; y; z] -> x ^ 2 + y ^ 2 <= 9.8 ^ 2 /\ -4 <= z <= 4).
Proof. apply (surfaces_bounds (fun _ _ => True)). Defined.
