(* ===== verification/Assembly.v ===== *)
(** * Assembly: the wheels and the whole car,
      src/2013-05-10/python/exercise3.py, lines 140-160

    The wheel (line 150) is built from the alloy rim [AWPol] and the tire.
    The rim is the six spokes [AWPol1] (line 141: the spoke polyhedron of
    line 131 and its mirror image, turned six times by [PI/3]) lifted by
    [T([3])([1.5])] onto one face, together with the rim surface.  Its
    axis is the z axis: [DUPLIROT([1,2])] and [ROTATIONALSURFACE] both
    turn about it.  [Section Wheel] builds the wheel from any spoke, rim
    and tire shapes ([spoke], [rim], [tyre]); [exercise3] (line 158) and
    [total] (line 160) take the concrete ones: [Spokes.AWPol1_mkpol] and
    the surfaces [Surfaces.AWPol2_surface] and [Surfaces.tire], for any
    [UKPOL] numbering.

    [wheelPositoned] (line 151) scales a wheel by 0.4, stands it up by
    [R([2,3])(PI/2)] and moves it to the front left; [wheels12] adds its
    mirror image across y = 0 and [wheels] (line 156) a copy moved back by
    28.  They take the wheel as an argument, which line 151 reads from the
    global [wheel].  A number given where pyplasm expects a list, as in
    [S([2])(-1)] and [T(1)(28)], is the one-element list.

    [wheels_frames] describes the result over the real point semantics of
    [Geometry]: a point is in [wheels w] exactly when one of four explicit
    changes of frame ([wheel_local]) takes it into [w], i.e. the scene is
    four copies of the wheel, centred at (-12.3, +-9, 2) and (15.7, +-9, 2),
    with their axes along y and the spoke face (local z > 0) turned away
    from the car's mid-plane.  [wheels_off_arches] compares the centres
    with the wheel arches of the side view as [exercise2] places them: the
    front wheels are centred under their arch, the rear wheels 1 behind
    theirs, since the arches are [27] apart (line 74) and the wheels [28].

    [spokes_sectors]: [AWPol1] is six copies of the mirrored spoke pair,
    copy [k] inside the 60-degree sector around the angle [k * PI/3].
    [exercise3_extent]: from the bounds of the spokes ([Spokes]), the
    rim and the tire ([Surfaces]), every point of [exercise3] lies within
    3.92 of one of the four hubs in the x-z plane and within 1.68 of that
    wheel's mid-plane, so the front wheels stay strictly inside the span
    x in (-16.3, -8.3) of the front wheel arch. *)

From Stdlib Require Import String List ZArith QArith Qreals Reals Lra Lia.
From S2P Require Import Prelude Kernel Domain2D Scene Geometry Hull Car Spokes Surfaces.
Import ListNotations.
Local Open Scope Q_scope.

Section Wheel.
(** The spoke polyhedron ([Spokes.AWPol1_mkpol]), the rim surface of
    line 144 and the tire of line 148 ([Surfaces.AWPol2_surface],
    [Surfaces.tire]), which [exercise3] passes in. *)
Variables spoke rim tyre : hpc.

(** Line 140: a spoke and its mirror image across y = 0. *)
Definition AWPol1_pair : hpc := STRUCT [Obj spoke; Obj (S_ [2]%nat [-1] spoke)].

(** Line 141: six copies turned by [PI/3] about the z axis. *)
Definition AWPol1 : res hpc := DUPLIROT [1; 2]%nat (1 # 3) AWPol1_pair 6.

(** Line 145: the spokes lifted onto the face z = 1.5, and the rim. *)
Definition AWPol : res hpc := a <- AWPol1 ;; Ok (STRUCT [Obj (T_ [3]%nat [1.5] a); Obj rim]).

(** Line 150. *)
Definition wheel : res hpc := a <- AWPol ;; Ok (STRUCT [Obj a; Obj (COLOR [0.3; 0.3; 0.3] tyre)]).
End Wheel.

(** Line 151, the wheel [w] scaled, stood up and moved to the front left. *)
Definition wheelPositoned (w : hpc) : hpc :=
  T_ [1; 2; 3]%nat [-5 - 7.3; -9; 2] (R_ [2; 3]%nat (1 / 2) (S_ [1; 2; 3]%nat [0.4; 0.4; 0.4] w)).

(** Lines 152-155: the front pair. *)
Definition wheels12 (w : hpc) : hpc :=
  STRUCT [Obj (wheelPositoned w); Obj (S_ [2]%nat [-1] (wheelPositoned w))].

(** Line 156: the front pair and the rear pair, [T(1)(28)] being
    [T([1])([28])]. *)
Definition wheels (w : hpc) : hpc := STRUCT [Obj (wheels12 w); Obj (T_ [1]%nat [28] (wheels12 w))].

Section Car3D.
Context `{Ukpol}.

(** Line 158: the wheels of the wheel of line 150. *)
Definition exercise3 : res hpc :=
  rim <- AWPol2_surface ;; tyre <- tire ;; w <- wheel AWPol1_mkpol rim tyre ;; Ok (wheels w).

(** Line 160: the car, the drawings of [exercise2] and the wheels. *)
Definition total : res hpc :=
  e2 <- exercise2 ;; e3 <- exercise3 ;; Ok (STRUCT [Obj e2; Obj e3]).
End Car3D.

(** ** The frames of the four wheels *)

(** The point [p] of space in the frame of a wheel centred at
    [(cx, -9 s, 2)], scaled by 0.4, whose own z axis is [-s] times the
    y axis: for [s = 1] the copy of line 151, for [s = -1] its mirror. *)
Definition wheel_local (cx s : R) (p : list R) : list R :=
  match p with
  | [x; y; z] => [((x - cx) / 0.4)%R; ((z - 2) / 0.4)%R; ((- (s * y) - 9) / 0.4)%R]
  | _ => p
  end.

(** The centres and orientations of the four copies, in the order of
    [wheels]. *)
Definition wheel_frames : list (R * R) := [(-12.3, 1); (-12.3, -1); (15.7, 1); (15.7, -1)]%R.

(** The hub of a wheel: the point where its axis meets its mid-plane. *)
Definition hub : hpc := POLYLINE_ [[0; 0; 0]].

(** The midpoint of two points. *)
Definition midpoint (p q : list Q) : list Q := map (fun ab => (fst ab + snd ab) / 2) (combine p q).

Section Frames.
Variable leaf_mem : hpc -> list R -> Prop.

Lemma iff_point (P : list R -> Prop) p q : p = q -> (P p <-> P q).
Proof. intros ->. reflexivity. Qed.

Lemma list3_eq (a b c a' b' c' : R) : a = a' -> b = b' -> c = c' -> [a; b; c] = [a'; b'; c'].
Proof. intros -> -> ->. reflexivity. Qed.

Ltac point_eq := apply list3_eq; unfold Q2R; simpl; field.

Lemma mem_STRUCT_pair a b p :
  mem leaf_mem (STRUCT [Obj a; Obj b]) p <-> mem leaf_mem a p \/ mem leaf_mem b p.
Proof. cbn [STRUCT struct_items mem]. tauto. Qed.

Lemma cos_sin_quarter : cos (- angle_rad (1 / 2)) = 0%R /\ sin (- angle_rad (1 / 2)) = (-1)%R.
Proof.
  unfold angle_rad. replace (Q2R (1 / 2) * PI)%R with (PI / 2)%R by (unfold Q2R; simpl; field).
  rewrite cos_neg, sin_neg, cos_PI2, sin_PI2. split; reflexivity.
Qed.

Lemma mem_wheelPositoned w x y z :
  mem leaf_mem (wheelPositoned w) [x; y; z] <-> mem leaf_mem w (wheel_local (-12.3) 1 [x; y; z]).
Proof.
  cbn [wheelPositoned T_ R_ S_ mem nth]. apply iff_point. destruct cos_sin_quarter as [Hc Hs].
  cbn [untranslate unscale rotate fold_left combine coord upd nth Nat.sub]. rewrite Hc, Hs.
  unfold wheel_local. point_eq.
Qed.

Lemma mem_mirror_y h x y z : mem leaf_mem (S_ [2]%nat [-1] h) [x; y; z] <-> mem leaf_mem h [x; - y; z]%R.
Proof.
  cbn [S_ mem unscale fold_left combine coord upd nth Nat.sub]. apply iff_point.
  point_eq.
Qed.

Lemma mem_shift_x h x y z : mem leaf_mem (T_ [1]%nat [28] h) [x; y; z] <-> mem leaf_mem h [x - 28; y; z]%R.
Proof.
  cbn [T_ mem untranslate fold_left combine coord upd nth Nat.sub]. apply iff_point.
  point_eq.
Qed.

Lemma wheel_local_mirror cx x y z : wheel_local cx 1 [x; - y; z]%R = wheel_local cx (-1) [x; y; z].
Proof. unfold wheel_local. point_eq. Qed.

Lemma wheel_local_shift s x y z : wheel_local (-12.3) s [x - 28; y; z]%R = wheel_local 15.7 s [x; y; z].
Proof. unfold wheel_local. point_eq. Qed.

(** C29: the wheels of line 156 are four copies of the wheel [w] and
    nothing else: a point of space is in [wheels w] exactly when, for one
    of the four frames of [wheel_frames], its coordinates in that frame
    are a point of [w].  The copies are scaled by 0.4 and centred at
    (-12.3, -9, 2), (-12.3, 9, 2), (15.7, -9, 2) and (15.7, 9, 2); the
    wheel's own axis lies along y, its spoke face (local z > 0) turned
    outward, towards y < -9 on the left and y > 9 on the right. *)
Theorem wheels_frames w x y z :
  mem leaf_mem (wheels w) [x; y; z] <->
  Exists (fun f => mem leaf_mem w (wheel_local (fst f) (snd f) [x; y; z])) wheel_frames.
Proof.
  unfold wheels, wheels12, wheel_frames.
  rewrite !mem_STRUCT_pair, mem_shift_x, !mem_STRUCT_pair, !mem_mirror_y, !mem_wheelPositoned.
  rewrite !wheel_local_mirror, !wheel_local_shift, !Exists_cons, Exists_nil. cbn [fst snd]. tauto.
Qed.
End Frames.

(** ** The wheels and the wheel arches *)

(** C30: where [exercise2] puts the side view, the front wheel arch (the
    Bezier curve of [frotWheelSide], from x = -16.3 to -8.3 at z = 2) is
    centred at x = -12.3, where [wheels] puts the hubs of the front
    wheels; the rear arch (moved by [T([1])([27])]) is centred at
    x = 14.7, but the rear hubs are at x = 15.7, one unit behind it,
    since [wheels] moves the rear pair by 28. *)
Theorem wheels_off_arches :
  match exercise2, placed (wheels hub) with
  | Ok (Struct (s :: _)), Some hubs =>
      match placed s with
      | Some ps =>
          Forall2 (Forall2 Qeq) hubs [[-12.3; -9; 2]; [-12.3; 9; 2]; [15.7; -9; 2]; [15.7; 9; 2]] /\
          Forall2 (Forall2 Qeq) [nth 0 ps []; nth 3 ps []; nth 8 ps []; nth 11 ps []]
                                [[-16.3; 0; 2]; [-8.3; 0; 2]; [10.7; 0; 2]; [18.7; 0; 2]] /\
          nth 0 (nth 0 hubs []) 0 == nth 0 (midpoint (nth 0 ps []) (nth 3 ps [])) 0 /\
          nth 0 (nth 2 hubs []) 0 == nth 0 (midpoint (nth 8 ps []) (nth 11 ps [])) 0 + 1
      | None => False
      end
  | _, _ => False
  end.
Proof. vm_compute. repeat split; repeat constructor. Qed.

(** ** The spokes and the extent of the wheels *)

Section WheelPoints.
Variable leaf_mem : hpc -> list R -> Prop.

(** Six copies: [DUPLIROT] returns. *)
Lemma AWPol1_ok spoke : AWPol1 spoke = Ok (rot_copies 1 2 (1 # 3) (AWPol1_pair spoke) 6).
Proof. unfold AWPol1. apply DUPLIROT_struct. lia. Qed.

Lemma wheel_ok spoke rim tyre :
  wheel spoke rim tyre =
  Ok (STRUCT [Obj (STRUCT [Obj (T_ [3]%nat [1.5] (rot_copies 1 2 (1 # 3) (AWPol1_pair spoke) 6)); Obj rim]);
              Obj (COLOR [0.3; 0.3; 0.3] tyre)]).
Proof. unfold wheel, AWPol. rewrite AWPol1_ok. reflexivity. Qed.

Lemma rotate_123 t x y z : rotate 1 2 t [x; y; z] = [cos t * x - sin t * y; sin t * x + cos t * y; z]%R.
Proof. reflexivity. Qed.

Lemma rotate_norm t x y : ((cos t * x - sin t * y) ^ 2 + (sin t * x + cos t * y) ^ 2 = x ^ 2 + y ^ 2)%R.
Proof. pose proof (sin2_cos2 t) as H. unfold Rsqr in H. nra. Qed.

(** A point of the six spoke pairs of line 141 is, turned back by a
    multiple of 60 degrees, a point of the spoke or of its mirror image. *)
Lemma AWPol1_spoke_point x y z :
  mem leaf_mem (rot_copies 1 2 (1 # 3) (AWPol1_pair AWPol1_mkpol) 6) [x; y; z] ->
  exists k, (k < 6)%nat /\
    let t := (- (INR k * PI / 3))%R in
    mem leaf_mem AWPol1_mkpol [cos t * x - sin t * y; sin t * x + cos t * y; z]%R \/
    mem leaf_mem AWPol1_mkpol [cos t * x - sin t * y; - (sin t * x + cos t * y); z]%R.
Proof.
  rewrite mem_rot_copies. intros (k & Hk & Hm). exists k. split; [exact Hk|].
  replace (- (Q2R (1 # 3) * INR k * PI))%R with (- (INR k * PI / 3))%R in Hm by (unfold Q2R; simpl; field).
  rewrite rotate_123 in Hm. unfold AWPol1_pair in Hm. rewrite mem_STRUCT_pair, mem_mirror_y in Hm. exact Hm.
Qed.

(** A point of the spoke is within [sqrt 48] of the axis. *)
Lemma spoke_norm x y z : mem leaf_mem AWPol1_mkpol [x; y; z] -> (x ^ 2 + y ^ 2 <= 48 /\ 0 <= z <= 1.2)%R.
Proof.
  intros Hm. destruct (spoke_bounds leaf_mem x y z Hm) as (Hy & Hw & Hz & Hx). rewrite sin_PI6 in Hw.
  assert (Hc2 : (cos (PI / 6) ^ 2 = 3 / 4)%R)
    by (rewrite cos_PI6; replace ((sqrt 3 / 2) ^ 2)%R with (sqrt 3 * sqrt 3 / 4)%R by field;
        rewrite sqrt_sqrt; lra).
  pose proof cos_PI6_bounds. split; [|lra]. nra.
Qed.

Lemma mem_shift_z h x y z : mem leaf_mem (T_ [3]%nat [1.5] h) [x; y; z] <-> mem leaf_mem h [x; y; z - 1.5]%R.
Proof. cbn [T_ mem untranslate fold_left combine coord upd nth Nat.sub]. apply iff_point, list3_eq; unfold Q2R; simpl; field. Qed.

(** The wheel of line 150 stays within radius 9.8 of its axis and
    within 4.2 of its mid-plane, given those bounds of the rim and tire. *)
Lemma wheel_bounds rim tyre w x y z :
  (forall x y z, mem leaf_mem rim [x; y; z] -> x ^ 2 + y ^ 2 <= 8 ^ 2 /\ -4.2 <= z <= 4.2)%R ->
  (forall x y z, mem leaf_mem tyre [x; y; z] -> x ^ 2 + y ^ 2 <= 9.8 ^ 2 /\ -4 <= z <= 4)%R ->
  wheel AWPol1_mkpol rim tyre = Ok w ->
  mem leaf_mem w [x; y; z] -> (x ^ 2 + y ^ 2 <= 9.8 ^ 2 /\ -4.2 <= z <= 4.2)%R.
Proof.
  intros Hr Ht Ew. rewrite wheel_ok in Ew. injection Ew as <-. unfold COLOR.
  rewrite !mem_STRUCT_pair, mem_shift_z.
  intros [[Hs | Hm] | Hm].
  - destruct (AWPol1_spoke_point _ _ _ Hs) as (k & _ & Hq). cbv zeta in Hq.
    pose proof (rotate_norm (- (INR k * PI / 3)) x y).
    destruct Hq as [Hq | Hq]; apply spoke_norm in Hq; unfold Q2R in *; simpl in *; split; nra.
  - apply Hr in Hm. unfold Q2R in *; simpl in *. split; nra.
  - apply Ht in Hm. unfold Q2R in *; simpl in *. split; nra.
Qed.

(** Every point of the mirrored pair of line 140 lies within 30 degrees
    of the x axis. *)
Lemma pair_sector p :
  mem leaf_mem (AWPol1_pair AWPol1_mkpol) p ->
  (Rabs (nth 1 p 0) * cos (PI / 6) <= nth 0 p 0 * sin (PI / 6))%R.
Proof.
  intros Hm. assert (Hl : length p = 3%nat).
  { unfold AWPol1_pair in Hm. rewrite mem_STRUCT_pair in Hm.
    destruct Hm as [Hm | Hm]; [exact (AWPol1_mkpol_dim _ _ Hm)|].
    cbn [S_ mem] in Hm. apply AWPol1_mkpol_dim in Hm.
    unfold unscale in Hm. cbn [fold_left combine] in Hm. rewrite length_upd in Hm. exact Hm. }
  destruct p as [|x [|y [|z [|w r]]]]; try discriminate Hl. cbn [nth].
  unfold AWPol1_pair in Hm. rewrite mem_STRUCT_pair, mem_mirror_y in Hm. pose proof cos_PI6_bounds.
  destruct Hm as [Hm | Hm]; destruct (spoke_bounds leaf_mem _ _ _ Hm) as (Hy & Hw & _); unfold Rabs;
    destruct (Rcase_abs _); nra.
Qed.

(** The bounds of the wheel in the frame of one of its copies. *)
Lemma wheel_local_bounds w cx s x y z :
  (forall x y z, mem leaf_mem w [x; y; z] -> x ^ 2 + y ^ 2 <= 9.8 ^ 2 /\ -4.2 <= z <= 4.2)%R ->
  mem leaf_mem w (wheel_local cx s [x; y; z]) ->
  ((x - cx) ^ 2 + (z - 2) ^ 2 <= 3.92 ^ 2 /\ Rabs (s * y + 9) <= 1.68)%R.
Proof.
  intros Hw Hm. apply Hw in Hm as [Hn Hz].
  assert (E : ((x - cx) ^ 2 + (z - 2) ^ 2 = 0.16 * (((x - cx) / 0.4) ^ 2 + ((z - 2) / 0.4) ^ 2))%R)
    by (unfold Q2R; simpl; field).
  assert (E' : (s * y + 9 = - 0.4 * ((- (s * y) - 9) / 0.4))%R) by (unfold Q2R; simpl; field).
  rewrite E, E'. unfold Q2R in *; simpl in *. split; [nra|]. unfold Rabs. destruct (Rcase_abs _); lra.
Qed.
End WheelPoints.

(** C34: the twelve half spokes of lines 140-141 keep to their sectors:
    [AWPol1] is the [STRUCT] of six copies of the mirrored pair, and every
    point of copy [k], turned back by [k * 60] degrees, lies within 30
    degrees of the x axis (|y| cos(PI/6) <= x sin(PI/6)); the six
    sectors around the multiples of 60 degrees meet only along their
    edges, so the copies do not overlap. *)
Theorem spokes_sectors leaf_mem :
  exists copies, AWPol1 AWPol1_mkpol = Ok (Struct copies) /\ length copies = 6%nat /\
  forall k p, (k < 6)%nat -> mem leaf_mem (nth k copies (Struct [])) p ->
    let q := rotate 1 2 (- (INR k * PI / 3)) p in
    (Rabs (nth 1 q 0) * cos (PI / 6) <= nth 0 q 0 * sin (PI / 6))%R.
Proof.
  eexists. split; [unfold AWPol1; rewrite DUPLIROT_struct by lia; reflexivity|]. split; [reflexivity|].
  intros k p Hk Hm. cbv zeta.
  rewrite nth_map_seq in Hm by (simpl; lia). cbn [mem] in Hm. rewrite angle_rad_nat in Hm.
  replace (Q2R (1 # 3) * INR k * PI)%R with (INR k * PI / 3)%R in Hm by (unfold Q2R; simpl; field).
  apply pair_sector in Hm. exact Hm.
Qed.

(** C36: whatever vertex numbering [UKPOL] uses, [exercise3] (line 158)
    returns, and every point of it lies in one of the four wheels: within
    3.92 (0.4 times the tire's radius 9.8) of the hub of a frame of
    [wheel_frames] in the x-z plane and within 1.68 of the wheel's
    mid-plane y = -9 s.  So the front wheels (x < 0) lie strictly inside
    the span x in [-16.3, -8.3] of the front wheel arch. *)
Theorem exercise3_extent `{UkpolLaws} leaf_mem :
  exists e3, exercise3 = Ok e3 /\
  forall x y z, mem leaf_mem e3 [x; y; z] ->
    Exists (fun f => (x - fst f) ^ 2 + (z - 2) ^ 2 <= 3.92 ^ 2 /\ Rabs (snd f * y + 9) <= 1.68)%R wheel_frames /\
    (x < 0 -> -16.3 < x < -8.3)%R.
Proof.
  destruct (rim_bounds leaf_mem) as (r & Hr & Hbr). destruct (tire_bounds leaf_mem) as (t & Ht & Hbt).
  destruct (wheel AWPol1_mkpol r t) as [w|e] eqn:Ew; [|rewrite wheel_ok in Ew; discriminate Ew].
  exists (wheels w). split; [unfold exercise3; rewrite Hr, Ht; cbn [res_bind]; rewrite Ew; reflexivity|].
  intros x y z Hm.
  assert (Hw : forall a b c, mem leaf_mem w [a; b; c] ->
                             (a ^ 2 + b ^ 2 <= 9.8 ^ 2 /\ -4.2 <= c <= 4.2)%R).
  { intros a b c. apply (wheel_bounds leaf_mem r t); [| |exact Ew];
      intros a' b' c' H'; [apply Hbr in H' | apply Hbt in H']; lra. }
  unfold wheels, wheels12 in Hm.
  rewrite !mem_STRUCT_pair, mem_shift_x, !mem_STRUCT_pair, !mem_mirror_y, !mem_wheelPositoned,
    !wheel_local_mirror, !wheel_local_shift in Hm.
  unfold wheel_frames. rewrite !Exists_cons, Exists_nil. cbn [fst snd].
  destruct Hm as [[Hm | Hm] | [Hm | Hm]]; apply (wheel_local_bounds _ _ _ _ x y z Hw) in Hm as [Hd Hy];
    (split; [tauto | intros Hx; pose proof (pow2_ge_0 (z - 2)); clear Hw Hy Hbr Hbt;
                     unfold Q2R in *; simpl in *; split; nra]).
Qed.

Lemma spokes_sectors_witness :
  exists copies, AWPol1 AWPol1_mkpol = Ok (Struct copies) /\ length copies = 6%nat /\
    mem (fun _ _ => True) (nth 0 copies (Struct [])) [0; 0; 1]%R /\
    (Rabs (nth 1 (rotate 1 2 (- (INR 0 * PI / 3)) [0; 0; 1]%R) 0) * cos (PI / 6) <=
     nth 0 (rotate 1 2 (- (INR 0 * PI / 3)) [0; 0; 1]%R) 0 * sin (PI / 6))%R.
Proof.
  destruct (spokes_sectors (fun _ _ => True)) as (cs & E & Hl & Hs).
  assert (Hm : mem (fun _ _ => True) (nth 0 cs (Struct [])) [0; 0; 1]%R).
  { unfold AWPol1 in E. rewrite DUPLIROT_struct in E by lia. unfold rot_copies in E. injection E as <-.
    cbn [nth mem]. replace (- angle_rad ((1 # 3) * inject_Z 0))%R with 0%R
      by (unfold angle_rad, Q2R; simpl; ring).
    rewrite rotate_0. unfold AWPol1_pair. rewrite mem_STRUCT_pair. left. apply AWPol1_mkpol_vertex. }
  exists cs. split; [exact E | split; [exact Hl | split; [exact Hm | exact (Hs 0%nat _ ltac:(lia) Hm)]]].
Defined.

Lemma exercise3_extent_witness :
  exists e3, exercise3 = Ok e3 /\
  forall x y z, mem (fun _ _ => True) e3 [x; y; z] ->
    Exists (fun f => (x - fst f) ^ 2 + (z - 2) ^ 2 <= 3.92 ^ 2 /\ Rabs (snd f * y + 9) <= 1.68)%R wheel_frames /\
    (x < 0 -> -16.3 < x < -8.3)%R.
Proof. apply (exercise3_extent (fun _ _ => True)). Defined.
